(** * reencoding: the bad-encoding ledger, the transcode orchestrator and
      the file placement workflow of [reencode.py]

    The development embeds the Python code as Rocq functions.  Paths and
    text are [string]s (read as ASCII), integers are [Z], floats are exact
    binary64 values, the file system, the ledger table, the two
    [functools.cache] memo tables and the list of spawned subprocesses are
    fields of an explicit world that every effectful function threads. *)

From Stdlib Require Import ZArith Lia Bool List Ascii String DecimalString Sorted.
From stdpp Require Import base option list gmap strings.

Open Scope string_scope.
Open Scope list_scope.
Open Scope Z_scope.

Abbreviation byte := Init.Byte.byte.

#[global] Instance byte_eq_dec : EqDecision byte := Strings.Byte.byte_eq_dec.

(** ** Python string and [os.path] operations *)

Module PyStr.

(** [s.startswith(pre)] *)
Definition startswith (s pre : string) : bool := String.prefix pre s.

(** [s.endswith(suf)]: some tail of [s] is [suf]. *)
Fixpoint endswith (s suf : string) : bool :=
  String.eqb s suf ||
  match s with
  | EmptyString => false
  | String _ s' => endswith s' suf
  end.

(** [sub in s] *)
Fixpoint contains (sub s : string) : bool :=
  String.prefix sub s ||
  match s with
  | EmptyString => false
  | String _ s' => contains sub s'
  end.

Definition lower_ascii (c : ascii) : ascii :=
  let n := N_of_ascii c in
  if ((65 <=? n) && (n <=? 90))%N then ascii_of_N (n + 32) else c.

(** [s.lower()], on ASCII text. *)
Fixpoint lower (s : string) : string :=
  match s with
  | EmptyString => EmptyString
  | String c s' => String (lower_ascii c) (lower s')
  end.

Definition is_char (c d : ascii) : bool := Ascii.eqb c d.

Fixpoint has_char (c : ascii) (s : string) : bool :=
  match s with
  | EmptyString => false
  | String d s' => is_char c d || has_char c s'
  end.

(** [s.rsplit(".", 1)[0]]: everything before the last dot, or all of
    [s] when it has no dot. *)
Fixpoint rsplit1_dot_head (s : string) : string :=
  match s with
  | EmptyString => EmptyString
  | String c s' =>
      if has_char "." s' then String c (rsplit1_dot_head s')
      else if is_char "." c then EmptyString
      else s
  end.

(** [s.rstrip('/')] *)
Fixpoint rstrip_slash (s : string) : string :=
  match s with
  | EmptyString => EmptyString
  | String c s' =>
      let r := rstrip_slash s' in
      if is_char "/" c && String.eqb r EmptyString then EmptyString else String c r
  end.

(** [str(n)] for an [int]. *)
Definition str (n : Z) : string := NilZero.string_of_int (Z.to_int n).

End PyStr.

Module Path.
Import PyStr.

(** [p[:i]] for [i = p.rfind('/') + 1] *)
Fixpoint head (p : string) : string :=
  match p with
  | EmptyString => EmptyString
  | String c p' => if has_char "/" p then String c (head p') else EmptyString
  end.

(** [os.path.basename]: [p[i:]] for the same [i]. *)
Fixpoint basename (p : string) : string :=
  match p with
  | EmptyString => EmptyString
  | String _ p' => if has_char "/" p then basename p' else p
  end.

(** [os.path.dirname]: the head, without its trailing slashes unless it
    consists of slashes only. *)
Definition dirname (p : string) : string :=
  let h := head p in
  if String.eqb (rstrip_slash h) EmptyString then h else rstrip_slash h.

(** [os.path.join(a, b)] *)
Definition join (a b : string) : string :=
  if startswith b "/" then b
  else if String.eqb a EmptyString || endswith a "/" then a +:+ b
  else a +:+ "/" +:+ b.

(** [os.path.splitext(p)[1]] is not used by the program; [extension] is
    the text after the last dot of the base name (empty when there is
    none), the usual meaning of a file's extension. *)
Fixpoint after_last_dot (s : string) : option string :=
  match s with
  | EmptyString => None
  | String c s' =>
      match after_last_dot s' with
      | Some e => Some e
      | None => if is_char "." c then Some s' else None
      end
  end.

Definition extension (p : string) : string :=
  match after_last_dot (basename p) with
  | Some e => e
  | None => EmptyString
  end.

End Path.

(** ** Pure helpers of [reencode.py] *)

Import PyStr.

(** [as_mp4] *)
Definition as_mp4 (f : string) : string :=
  let dirname := Path.dirname f in
  let basename := Path.basename f in
  let mp4 := rsplit1_dot_head basename +:+ ".mp4" in
  Path.join dirname mp4.

Definition BACKUP_MARKER : string := "REENC_BACKUP".

(** The destination that [backup] hands to [shutil.move]. *)
Definition backup_target (f : string) : string := "REENC_BACKUP-" +:+ f.

(** [is_backup] *)
Definition is_backup (f : string) : bool := contains BACKUP_MARKER f.

Definition SKIP_EXTS : list string :=
  [ "jpg"; "png"; "jpeg"; "posts"; "yml"; "info"; "sh"; "pdf"; "swf"; "xml";
    "mp3"; "css"; "url"; "txt"; "html"; "exe"; "py"; "dv"; "heic"; "db";
    "zip"; "psd"; "pyc"; "pem"; "jpe"; "typed"; "readme"; "md"; "rar" ].

(** [any(map(lambda ext, s=f: s.lower().endswith(ext), SKIP_EXTS))] *)
Definition has_skip_ext (f : string) : bool :=
  existsb (fun ext => endswith (lower f) ext) SKIP_EXTS.

(** [skip_file] *)
Definition skip_file (f : string) : bool := is_backup f || has_skip_ext f.


(** ** Python floats

    A finite non-negative binary64 value is [f_mant * 2 ^ f_exp], with
    [2^52 <= f_mant < 2^53], or [f_exp = -1074] and [f_mant < 2^52]
    (subnormals and zero).  File sizes are non-negative, so no negative
    float arises in the modelled code. *)

Module Float.

Record float := mk { f_mant : Z; f_exp : Z }.

Definition zero : float := mk 0 (-1074).

(** The integer nearest to [n / d], ties to even ([d > 0]). *)
Definition rhe (n d : Z) : Z :=
  let q := n / d in
  let r := n mod d in
  match 2 * r ?= d with
  | Lt => q
  | Gt => q + 1
  | Eq => if Z.even q then q else q + 1
  end.

(** The integer nearest to [(n / d) / 2^e]. *)
Definition scaled (n d e : Z) : Z :=
  if 0 <=? e then rhe n (d * 2 ^ e) else rhe (n * 2 ^ (- e)) d.

(** The binary64 value nearest to [n / d] ([n >= 0], [d > 0]), or [None]
    when it is out of range. *)
Definition round_to_double (n d : Z) : option float :=
  if n =? 0 then Some zero
  else
    let l := Z.log2 n - Z.log2 d in
    let below := if 0 <=? l then n <? d * 2 ^ l else n * 2 ^ (- l) <? d in
    let e := Z.max (l - 52 - (if below then 1 else 0)) (-1074) in
    let m := scaled n d e in
    let '(m, e) := if m =? 2 ^ 53 then (2 ^ 52, e + 1) else (m, e) in
    if 1024 <=? e + 52 then None else Some (mk m e).

(** [float(n)] *)
Definition of_Z (n : Z) : option float := round_to_double n 1.

(** [round(x, 1)]: the decimal with one fractional digit nearest to the
    exact value of [x] (ties to even), converted back to binary64. *)
Definition round1 (x : float) : option float :=
  let k := scaled (10 * f_mant x) 1 (- f_exp x) in
  round_to_double k 10.

(** [x >= n] for a float [x] and an int [n]: an exact comparison. *)
Definition ge_int (x : float) (n : Z) : bool :=
  if 0 <=? f_exp x then n <=? f_mant x * 2 ^ f_exp x
  else n * 2 ^ (- f_exp x) <=? f_mant x.

End Float.


(** ** Exceptions *)

Inductive exn :=
| ErrorCalled          (* raised by [Log.error] *)
| CalledProcessError   (* [subprocess.run(check=True)], non-zero exit *)
| IntegrityError       (* sqlite3: primary key constraint failed *)
| OperationalError     (* sqlite3: no such table *)
| ZeroDivisionError
| OverflowError
| FileNotFoundError
| FileExistsError
| OSError              (* any other [OSError] *)
| OtherError (name : string).

#[global] Instance exn_eq_dec : EqDecision exn.
Proof. solve_decision. Defined.

Inductive res (A : Type) :=
| Ret (a : A)
| Raise (e : exn).
Arguments Ret {A} a.
Arguments Raise {A} e.

(** ** The file system

    Names map literal paths to nodes; regular files point into a store of
    inodes, so that hard links alias.  A new inode takes the next free index
    and inodes are never reclaimed.  Paths are compared literally (the
    kernel's normalisation of [.], [..] and repeated slashes is not
    modelled). *)

Inductive node :=
| Dir (dev : N)
| Reg (ino : nat)
| Lnk (target : string).

#[global] Instance node_eq_dec : EqDecision node.
Proof. solve_decision. Defined.

Record inode := { i_dev : N; i_data : list byte }.

Record filesystem :=
  { names : gmap string node; inodes : list inode; cwd_dev : N }.

Record stat_result := { st_size : Z; st_dev : N }.

Module FS.

Definition SYMLOOP_MAX : nat := 40.
Definition DIR_SIZE : Z := 4096.
Definition MAX_FILE_SIZE : Z := 2 ^ 63 - 1.

Definition set_names (fs : filesystem) (m : gmap string node) : filesystem :=
  {| names := m; inodes := inodes fs; cwd_dev := cwd_dev fs |}.

(** The path reached from [p] through symbolic links, [None] on a loop. *)
Fixpoint follow (fuel : nat) (fs : filesystem) (p : string) : option string :=
  match names fs !! p with
  | Some (Lnk t) =>
      match fuel with
      | O => None
      | S k => follow k fs t
      end
  | _ => Some p
  end.

Definition final_path (fs : filesystem) (p : string) : option string :=
  follow SYMLOOP_MAX fs p.

Definition resolve (fs : filesystem) (p : string) : option node :=
  match final_path fs p with
  | Some q => names fs !! q
  | None => None
  end.

(** [os.path.exists], [isfile], [isdir] follow links; [islink] does not. *)
Definition exists_ (fs : filesystem) (p : string) : bool :=
  match resolve fs p with Some _ => true | None => false end.

Definition isfile (fs : filesystem) (p : string) : bool :=
  match resolve fs p with Some (Reg _) => true | _ => false end.

Definition isdir (fs : filesystem) (p : string) : bool :=
  match resolve fs p with Some (Dir _) => true | _ => false end.

Definition islink (fs : filesystem) (p : string) : bool :=
  match names fs !! p with Some (Lnk _) => true | _ => false end.

(** The device of the directory that holds [p]. *)
Definition parent_dev (fs : filesystem) (p : string) : option N :=
  let d := Path.dirname p in
  if String.eqb d EmptyString then Some (cwd_dev fs)
  else match resolve fs d with
       | Some (Dir dev) => Some dev
       | _ => None
       end.

(** [os.stat] *)
Definition stat (fs : filesystem) (p : string) : res stat_result :=
  match resolve fs p with
  | Some (Reg i) =>
      match inodes fs !! i with
      | Some ino =>
          Ret {| st_size := Z.of_nat (length (i_data ino)); st_dev := i_dev ino |}
      | None => Raise OSError
      end
  | Some (Dir dev) => Ret {| st_size := DIR_SIZE; st_dev := dev |}
  | _ => Raise FileNotFoundError
  end.

(** The bytes read by [open(p, "rb")]. *)
Definition read_file (fs : filesystem) (p : string) : res (list byte) :=
  match resolve fs p with
  | Some (Reg i) =>
      match inodes fs !! i with
      | Some ino => Ret (i_data ino)
      | None => Raise OSError
      end
  | Some _ => Raise OSError
  | None => Raise FileNotFoundError
  end.

(** A new regular file at the free name [p]; a file cannot grow past
    the largest [off_t]. *)
Definition create (fs : filesystem) (p : string) (data : list byte)
  : res filesystem :=
  match parent_dev fs p with
  | None => Raise FileNotFoundError
  | Some dev =>
      if MAX_FILE_SIZE <? Z.of_nat (length data) then Raise OSError
      else
      Ret {| names := <[p := Reg (length (inodes fs))]> (names fs);
             inodes := inodes fs ++ [{| i_dev := dev; i_data := data |}];
             cwd_dev := cwd_dev fs |}
  end.

(** [pathlib.Path(p).touch()] *)
Definition touch (fs : filesystem) (p : string) : res filesystem :=
  match final_path fs p with
  | None => Raise OSError
  | Some q =>
      match names fs !! q with
      | Some _ => Ret fs
      | None => create fs q []
      end
  end.

(** [os.unlink] *)
Definition unlink (fs : filesystem) (p : string) : res filesystem :=
  match names fs !! p with
  | None => Raise FileNotFoundError
  | Some (Dir _) => Raise OSError
  | Some _ => Ret (set_names fs (delete p (names fs)))
  end.

(** The device a directory entry lives on. *)
Definition node_dev (fs : filesystem) (p : string) (n : node) : option N :=
  match n with
  | Dir dev => Some dev
  | Reg i => i_dev <$> inodes fs !! i
  | Lnk _ => parent_dev fs p
  end.

(** [os.link(src, dst)] *)
Definition link (fs : filesystem) (src dst : string) : res filesystem :=
  match names fs !! src with
  | None => Raise FileNotFoundError
  | Some (Dir _) => Raise OSError
  | Some n =>
      match names fs !! dst with
      | Some _ => Raise FileExistsError
      | None =>
          match parent_dev fs dst with
          | None => Raise FileNotFoundError
          | Some dev =>
              if decide (node_dev fs src n = Some dev)
              then Ret (set_names fs (<[dst := n]> (names fs)))
              else Raise OSError
          end
      end
  end.

(** [shutil.copy2(src, dst)]; the copied timestamps and permission bits
    are not part of the model. *)
Definition copy2 (fs : filesystem) (src dst : string) : res filesystem :=
  let dst := if isdir fs dst then Path.join dst (Path.basename src) else dst in
  match read_file fs src with
  | Raise e => Raise e
  | Ret data =>
      match final_path fs dst with
      | None => Raise OSError
      | Some q =>
          match names fs !! q with
          | None => create fs q data
          | Some (Reg j) =>
              if decide (resolve fs src = Some (Reg j)) then Raise OSError
              else
                match inodes fs !! j with
                | None => Raise OSError
                | Some ino =>
                    Ret {| names := names fs;
                           inodes := <[j := {| i_dev := i_dev ino; i_data := data |}]> (inodes fs);
                           cwd_dev := cwd_dev fs |}
                end
          | Some _ => Raise OSError
          end
      end
  end.

(** [os.rename(src, dst)] *)
Definition rename (fs : filesystem) (src dst : string) : res filesystem :=
  match names fs !! src with
  | None => Raise FileNotFoundError
  | Some n =>
      match parent_dev fs dst with
      | None => Raise FileNotFoundError
      | Some dev =>
          if decide (node_dev fs src n = Some dev) then
            match names fs !! dst with
            | Some (Dir _) => Raise OSError
            | _ => Ret (set_names fs (<[dst := n]> (delete src (names fs))))
            end
          else Raise OSError
      end
  end.

(** [shutil.move(src, dst)]: rename, and when that fails, copy and remove.
    Moving a directory or a symbolic link across devices is left out
    (it raises here). *)
Definition move (fs : filesystem) (src dst : string) : res filesystem :=
  let real_dst := if isdir fs dst then Path.join dst (Path.basename src) else dst in
  if isdir fs dst && exists_ fs real_dst then Raise OSError
  else
    match rename fs src real_dst with
    | Ret fs' => Ret fs'
    | Raise _ =>
        if islink fs src || isdir fs src then Raise OSError
        else match copy2 fs src real_dst with
             | Raise e => Raise e
             | Ret fs' => unlink fs' src
             end
    end.

(** [p] is [d] or lies below it. *)
Definition under (d p : string) : bool :=
  String.eqb p d || String.prefix (d +:+ "/") p.

(** [shutil.rmtree(d)], as run by [TemporaryDirectory]'s cleanup. *)
Definition rmtree (fs : filesystem) (d : string) : filesystem :=
  set_names fs (filter (fun kv => under d kv.1 = false) (names fs)).

(** [tempfile.mkdtemp]: the first candidate name that is free. *)
Fixpoint mkdtemp (cands : list string) (fs : filesystem)
  : res (string * filesystem) :=
  match cands with
  | [] => Raise FileExistsError
  | c :: cs =>
      match names fs !! c with
      | Some _ => mkdtemp cs fs
      | None =>
          match parent_dev fs c with
          | None => Raise FileNotFoundError
          | Some dev => Ret (c, set_names fs (<[c := Dir dev]> (names fs)))
          end
      end
  end.

End FS.

(** ** The world threaded by the program *)

(** A row of the table [bad_encodings]. *)
Record row :=
  { r_hash : list byte; r_crf : Z; r_preset : string; r_output_bytes : Z }.

(** What the program does to the outside: a subprocess it spawns, an SQL
    statement it executes on the ledger, and the one log line that reports
    a measurement, [Output is {percent}% the original size ({in_size} ->
    {out_size})], with the sizes in bytes (the other lines on stderr are not
    modelled). *)
Inductive event :=
| LogOutput (percent : Float.float) (in_size out_size : Z)
| Spawn (cmd_list : list string)
| SqlCreateTable
| SqlSelect (hash : list byte) (crf : Z) (preset : string)
| SqlInsert (hash : list byte) (crf : Z) (preset : string) (output_bytes : Z).

(** The value of [Probe.probe]: video codec, audio codec, duration (kept
    as the text that ffprobe printed). *)
Definition probe_tuple : Type := string * option string * string.

(** The world: the file system, the ledger table ([None] until the table is
    created), the memo tables of [hash_file] and [Probe.probe], and the
    events so far, the most recent first. *)
Record world :=
  { w_fs : filesystem;
    w_ledger : option (list row);
    w_hashes : gmap string (list byte);
    w_probes : gmap string probe_tuple;
    w_trace : list event }.

(** The parsed JSON that ffprobe prints: the streams as (codec_name,
    codec_type), and the duration when ["format"] and its ["duration"]
    are present. *)
Record probe_data :=
  { pd_streams : list (string * string);
    pd_format : option (option string) }.

(** The collaborators outside the program: the digest function, the two
    external tools as functions of the file system and the command line
    ([None]: non-zero exit), the names [tempfile] would try, and the texts
    for which Python's [float] returns (it raises [ValueError] for the
    others). *)
Record env :=
  { sha1 : list byte -> list byte;
    ext_ffprobe : filesystem -> list string -> option probe_data;
    ext_ffmpeg : filesystem -> list string -> option (string * list byte);
    tmp_candidates : list string;
    float_accepts : string -> bool }.

Definition set_fs (fs : filesystem) (w : world) : world :=
  {| w_fs := fs; w_ledger := w_ledger w; w_hashes := w_hashes w;
     w_probes := w_probes w; w_trace := w_trace w |}.

Definition set_ledger (l : option (list row)) (w : world) : world :=
  {| w_fs := w_fs w; w_ledger := l; w_hashes := w_hashes w;
     w_probes := w_probes w; w_trace := w_trace w |}.

Definition set_hashes (h : gmap string (list byte)) (w : world) : world :=
  {| w_fs := w_fs w; w_ledger := w_ledger w; w_hashes := h;
     w_probes := w_probes w; w_trace := w_trace w |}.

Definition set_probes (p : gmap string probe_tuple) (w : world) : world :=
  {| w_fs := w_fs w; w_ledger := w_ledger w; w_hashes := w_hashes w;
     w_probes := p; w_trace := w_trace w |}.

Definition log_event (e : event) (w : world) : world :=
  {| w_fs := w_fs w; w_ledger := w_ledger w; w_hashes := w_hashes w;
     w_probes := w_probes w; w_trace := e :: w_trace w |}.

(** ** The effect monad: state and exceptions *)

Definition M (A : Type) : Type := world -> res A * world.

Definition ret {A} (a : A) : M A := fun w => (Ret a, w).

Definition raise {A} (e : exn) : M A := fun w => (Raise e, w).

Definition bind {A B} (m : M A) (f : A -> M B) : M B :=
  fun w =>
    match m w with
    | (Ret a, w') => f a w'
    | (Raise e, w') => (Raise e, w')
    end.

(** [try: m finally: h] and the exit of a [with] block. *)
Definition finally {A} (m : M A) (h : world -> world) : M A :=
  fun w => let '(r, w') := m w in (r, h w').

(** [try: m except e: handler] *)
Definition catch {A} (m : M A) (e : exn) (handler : M A) : M A :=
  fun w =>
    match m w with
    | (Raise e', w') => if decide (e' = e) then handler w' else (Raise e', w')
    | rw => rw
    end.

Declare Scope m_scope.
Delimit Scope m_scope with M.
Notation "x <- m ;; k" := (bind m (fun x => k))
  (at level 100, m at next level, right associativity) : m_scope.
Notation "m ;;; k" := (bind m (fun _ => k))
  (at level 100, right associativity) : m_scope.
Open Scope m_scope.

Definition gets {A} (f : world -> A) : M A := fun w => (Ret (f w), w).
Definition modify (f : world -> world) : M unit := fun w => (Ret tt, f w).

(** A file system read or action, lifted to the world. *)
Definition fs_read {A} (f : filesystem -> res A) : M A :=
  fun w => (f (w_fs w), w).

Definition fs_act (f : filesystem -> res filesystem) : M unit :=
  fun w =>
    match f (w_fs w) with
    | Ret fs' => (Ret tt, set_fs fs' w)
    | Raise e => (Raise e, w)
    end.

(** ** The program *)

Section Program.

Context (E : env).

(** *** [class Log]; what it prints on stderr is not modelled *)

Definition Log_error {A} : M A := raise ErrorCalled.

Definition Log_check (cond : bool) : M unit :=
  if cond then ret tt else Log_error.

(** *** [os] and [os.path] on the world *)

Definition path_exists (p : string) : M bool := gets (fun w => FS.exists_ (w_fs w) p).
Definition path_isfile (p : string) : M bool := gets (fun w => FS.isfile (w_fs w) p).
Definition path_islink (p : string) : M bool := gets (fun w => FS.islink (w_fs w) p).
Definition os_stat (p : string) : M stat_result := fs_read (fun fs => FS.stat fs p).

(** *** [run]: spawn a subprocess and return what it printed.  [tool]
    is the behaviour of the program named by the command line. *)

Definition run {A} (tool : filesystem -> list string -> option (A * filesystem))
    (cmd_list : list string) : M A :=
  fun w =>
    let w1 := log_event (Spawn cmd_list) w in
    match tool (w_fs w1) cmd_list with
    | None => (Raise CalledProcessError, w1)
    | Some (out, fs') => (Ret out, set_fs fs' w1)
    end.

(** ffprobe reads only. *)
Definition ffprobe_tool (fs : filesystem) (cmd_list : list string)
  : option (probe_data * filesystem) :=
  match ext_ffprobe E fs cmd_list with
  | Some d => Some (d, fs)
  | None => None
  end.

(** ffmpeg writes its output at the last argument and, run with [-n],
    fails when that file exists. *)
Definition ffmpeg_tool (fs : filesystem) (cmd_list : list string)
  : option (string * filesystem) :=
  match ext_ffmpeg E fs cmd_list with
  | None => None
  | Some (out, data) =>
      let target := List.last cmd_list EmptyString in
      match names fs !! target with
      | Some _ => None
      | None =>
          match FS.create fs target data with
          | Ret fs' => Some (out, fs')
          | Raise _ => None
          end
      end
  end.

(** *** [class Probe] *)

Definition codecs_of (type : string) (streams : list (string * string))
  : list string :=
  map fst (List.filter (fun s => String.eqb (snd s) type) streams).

(** [Probe.probe], under [functools.cache]: a value is stored only when
    the call returns.  [float(data["format"]["duration"])] raises
    [ValueError] for a text that [float] does not accept; the tuple keeps
    the text of an accepted duration, of which the code embedded here reads
    nothing. *)
Definition Probe_probe (file : string) : M probe_tuple :=
  cached <- gets (fun w => w_probes w !! file) ;;
  match cached with
  | Some t => ret t
  | None =>
      data <- run ffprobe_tool
               [ "ffprobe"; "-loglevel"; "error"; "-show_entries";
                 "stream=codec_name,codec_type:format=duration";
                 "-print_format"; "json"; file ] ;;
      let video_codecs := codecs_of "video" (pd_streams data) in
      let audio_codecs := codecs_of "audio" (pd_streams data) in
      Log_check (Nat.eqb (length video_codecs) 1) ;;;
      Log_check (Nat.leb (length audio_codecs) 1) ;;;
      Log_check (bool_decide (is_Some (pd_format data))) ;;;
      Log_check (bool_decide (is_Some (mjoin (pd_format data)))) ;;;
      match video_codecs, mjoin (pd_format data) with
      | video_codec :: _, Some duration =>
          let audio_codec :=
            match audio_codecs with
            | [a] => Some a
            | _ => None
            end in
          if float_accepts E duration then
            let t := (video_codec, audio_codec, duration) in
            modify (fun w => set_probes (<[file := t]> (w_probes w)) w) ;;;
            ret t
          else raise (OtherError "ValueError")
      | _, _ => raise (OtherError "IndexError")
      end
  end.

Definition Probe_codec (file : string) : M string :=
  t <- Probe_probe file ;; ret (fst (fst t)).

Definition Probe_acodec (file : string) : M (option string) :=
  t <- Probe_probe file ;; ret (snd (fst t)).

Definition Probe_isvideo (file : string) : M bool :=
  catch (Probe_probe file ;;; ret true) ErrorCalled (ret false).

(** [ffmpeg] *)
Definition ffmpeg (args : list string) : M string :=
  run ffmpeg_tool ([ "ffmpeg"; "-n"; "-nostdin"; "-hide_banner" ] ++ args)%list.

(** *** Sizes *)

Definition file_size (f : string) : M Z :=
  st <- os_stat f ;; ret (st_size st).

(** [n / d] on ints *)
Definition truediv (n d : Z) : M Float.float :=
  if d =? 0 then raise ZeroDivisionError
  else match Float.round_to_double n d with
       | Some x => ret x
       | None => raise OverflowError
       end.

(** [round(x, 1)] *)
Definition py_round1 (x : Float.float) : M Float.float :=
  match Float.round1 x with
  | Some y => ret y
  | None => raise OverflowError
  end.

Definition file_size_percent (f1 f2 : string) : M Float.float :=
  s1 <- file_size f1 ;;
  s2 <- file_size f2 ;;
  pct <- truediv (100 * s1) s2 ;;
  py_round1 pct.

Definition files_on_same_fs (f1 f2 : string) : M bool :=
  st1 <- os_stat f1 ;;
  st2 <- os_stat f2 ;;
  ret (bool_decide (st_dev st1 = st_dev st2)).

(** *** [copy_file] *)

Definition copy_file (src dst : string) : M unit :=
  ex <- path_exists dst ;;
  (if ex then Log_error else ret tt) ;;;
  fs_act (fun fs => FS.touch fs dst) ;;;
  can_link <- files_on_same_fs src dst ;;
  fs_act (fun fs => FS.unlink fs dst) ;;;
  if can_link then fs_act (fun fs => FS.link fs src dst)
  else fs_act (fun fs => FS.copy2 fs src dst).

(** *** [class BadEncodingDatabase]

    The table holds its rows in insertion order.  sqlite3 binds a Python
    int only when it fits 64 bits.  Every insert is committed at once, so
    the table of the connection and the stored table are one.  The
    database is the file [badencodings.db] beside the script; the world
    keeps its table as [w_ledger] and does not list that file, nor the
    journal that sqlite keeps beside it, among the files of [w_fs]. *)

Definition fits_int64 (z : Z) : bool := (- 2 ^ 63 <=? z) && (z <? 2 ^ 63).

Definition sql_bind_int (z : Z) : M unit :=
  if fits_int64 z then ret tt else raise OverflowError.

(** [hash == ? AND crf == ? AND preset == ?], also the primary key. *)
Definition key_matches (h : list byte) (crf : Z) (preset : string) (r : row)
  : bool :=
  bool_decide (r_hash r = h) && (r_crf r =? crf) && String.eqb (r_preset r) preset.

(** [SELECT output_bytes ... ] and [fetchone()] *)
Definition select_output_bytes (rows : list row) (h : list byte) (crf : Z)
    (preset : string) : option Z :=
  match List.find (key_matches h crf preset) rows with
  | Some r => Some (r_output_bytes r)
  | None => None
  end.

Definition db_table : M (list row) :=
  l <- gets w_ledger ;;
  match l with
  | Some rows => ret rows
  | None => raise OperationalError
  end.

(** [hash_file], under [functools.cache] *)
Definition BadEncodingDatabase_hash_file (p : string) : M (list byte) :=
  cached <- gets (fun w => w_hashes w !! p) ;;
  match cached with
  | Some h => ret h
  | None =>
      data <- fs_read (fun fs => FS.read_file fs p) ;;
      let h := sha1 E data in
      modify (fun w => set_hashes (<[p := h]> (w_hashes w)) w) ;;;
      ret h
  end.

(** [CREATE TABLE IF NOT EXISTS bad_encodings (...)] *)
Definition BadEncodingDatabase_init_db : M unit :=
  modify (fun w =>
    log_event SqlCreateTable (set_ledger (Some (default [] (w_ledger w))) w)).

Definition BadEncodingDatabase_check (f : string) (crf : Z) (preset : string)
  : M (option Z) :=
  h <- BadEncodingDatabase_hash_file f ;;
  sql_bind_int crf ;;;
  modify (log_event (SqlSelect h crf preset)) ;;;
  rows <- db_table ;;
  ret (select_output_bytes rows h crf preset).

Definition BadEncodingDatabase_insert (f : string) (crf : Z) (preset : string)
    (output_bytes : Z) : M unit :=
  h <- BadEncodingDatabase_hash_file f ;;
  sql_bind_int crf ;;;
  sql_bind_int output_bytes ;;;
  modify (log_event (SqlInsert h crf preset output_bytes)) ;;;
  rows <- db_table ;;
  if existsb (key_matches h crf preset) rows then raise IntegrityError
  else
    modify (set_ledger
              (Some (rows ++ [ {| r_hash := h; r_crf := crf; r_preset := preset;
                                  r_output_bytes := output_bytes |} ])%list)).

(** [with BadEncodingDatabase() as db: body]: [__init__] connects and
    runs [init_db]; [__exit__] commits and closes. *)
Definition with_BadEncodingDatabase {A} (body : M A) : M A :=
  BadEncodingDatabase_init_db ;;;
  finally body (fun w => w).

(** [with tempfile.TemporaryDirectory() as tmp_dir: body] *)
Definition mkdtemp : M string :=
  fun w =>
    match FS.mkdtemp (tmp_candidates E) (w_fs w) with
    | Ret (d, fs') => (Ret d, set_fs fs' w)
    | Raise e => (Raise e, w)
    end.

Definition with_TemporaryDirectory {A} (body : string -> M A) : M A :=
  tmp_dir <- mkdtemp ;;
  finally (body tmp_dir) (fun w => set_fs (FS.rmtree (w_fs w) tmp_dir) w).

(** *** [reencode] *)

(** The truth value of [db.check]'s result in an [if]. *)
Definition truthy (prev_result : option Z) : bool :=
  match prev_result with
  | Some n => negb (n =? 0)
  | None => false
  end.

(** [reencode].  [in_size] and [out_size] are the sizes that
    [humansize.humansize_file] reads for the log lines; [hit] is the value
    of [not force and (prev_result := db.check(in_file, crf, preset))],
    which calls [check] only when [force] is unset. *)
Definition reencode (in_file out_file : string) (crf : Z) (preset : string)
    (force : bool) (extra_args : list string) (dont_copy : bool)
  : M (option string) :=
  let out_file :=
    if endswith out_file ".mp4" then out_file else as_mp4 out_file in
  c <- path_isfile in_file ;; Log_check c ;;;
  c <- path_islink in_file ;; Log_check (negb c) ;;;
  c <- path_exists out_file ;; Log_check (negb c) ;;;
  c <- Probe_isvideo in_file ;; Log_check c ;;;
  codec <- Probe_codec in_file ;;
  acodec <- Probe_acodec in_file ;;
  let encoder := if String.eqb codec "hevc" then "copy" else "libx265" in
  let aencoder :=
    match acodec with
    | None => "copy"
    | Some a => if String.eqb a "aac" then "copy" else "aac"
    end in
  if negb force && String.eqb encoder "copy" && String.eqb aencoder "copy" then
    if dont_copy then ret None
    else copy_file in_file out_file ;;; ret (Some out_file)
  else
    in_size <- file_size in_file ;;
    with_BadEncodingDatabase (with_TemporaryDirectory (fun tmp_dir =>
      hit <- (if force then ret false
              else prev_result <- BadEncodingDatabase_check in_file crf preset ;;
                   ret (truthy prev_result)) ;;
      if hit then
        if dont_copy then ret None
        else copy_file in_file out_file ;;; ret (Some out_file)
      else
        let temp_out_file := Path.join tmp_dir (Path.basename out_file) in
        ffmpeg (extra_args ++
                [ "-i"; in_file; "-c:a"; aencoder; "-c:v"; encoder;
                  "-crf"; str crf; "-preset"; preset; temp_out_file ])%list ;;;
        percent <- file_size_percent temp_out_file in_file ;;
        out_size <- file_size temp_out_file ;;
        modify (log_event (LogOutput percent in_size out_size)) ;;;
        (if negb force && Float.ge_int percent 100 then
           out_bytes <- file_size temp_out_file ;;
           BadEncodingDatabase_insert in_file crf preset out_bytes ;;;
           Log_error
         else ret tt) ;;;
        copy_file temp_out_file out_file ;;;
        ret (Some out_file))).

(** *** [backup] *)

Definition backup (f : string) : M unit :=
  fs_act (fun fs => FS.move fs f (backup_target f)).

End Program.

(** ** Concrete worlds, used to run the program *)

Module Examples.

Definition bytes_of (s : string) : list byte := list_byte_of_string s.

(** A directory [videos] and a scratch directory [/tmp] on device 1, the
    working directory on device 1, and four regular files, one empty. *)
Definition fs0 : filesystem :=
  {| names :=
       <["a.mkv" := Reg 0]> (<["videos" := Dir 1]> (<["videos/b.mkv" := Reg 1]>
       (<["/tmp" := Dir 1]> (<["old.mp4" := Reg 2]> (<["empty.mkv" := Reg 3]> ∅)))));
     inodes :=
       [ {| i_dev := 1; i_data := bytes_of "0123456789" |};
         {| i_dev := 1; i_data := bytes_of "abcdefghijklmnopqrst" |};
         {| i_dev := 1; i_data := bytes_of "xyz" |};
         {| i_dev := 1; i_data := [] |} ];
     cwd_dev := 1 |}.

Definition world_of (fs : filesystem) (l : option (list row)) : world :=
  {| w_fs := fs; w_ledger := l; w_hashes := ∅; w_probes := ∅; w_trace := [] |}.

Definition h264_aac : probe_data :=
  {| pd_streams := [("h264", "video"); ("aac", "audio")];
     pd_format := Some (Some "12.5") |}.

Definition hevc_aac : probe_data :=
  {| pd_streams := [("hevc", "video"); ("aac", "audio")];
     pd_format := Some (Some "12.5") |}.

(** The plain decimal texts: digits with at most one point and at least
    one digit.  [float] accepts them; they are the durations of the
    reports used here. *)
Fixpoint count_chars (p : ascii -> bool) (s : string) : nat :=
  match s with
  | EmptyString => 0
  | String c s' => (if p c then 1 else 0) + count_chars p s'
  end.

Definition is_digit (c : ascii) : bool :=
  let n := N_of_ascii c in ((48 <=? n) && (n <=? 57))%N.

Definition decimal_text (s : string) : bool :=
  let digits := count_chars is_digit s in
  let points := count_chars (Ascii.eqb ".") s in
  (Nat.ltb 0 digits && Nat.leb points 1
   && Nat.eqb (digits + points) (String.length s))%nat.

(** An environment whose digest is the content itself, whose ffprobe
    reports [pd] for every file, whose encoder writes [out], and whose
    [float] accepts the plain decimal texts. *)
Definition env_of (pd : probe_data) (out : list byte) : env :=
  {| sha1 := fun data => data;
     ext_ffprobe := fun _ _ => Some pd;
     ext_ffmpeg := fun _ _ => Some (EmptyString, out);
     tmp_candidates := ["/tmp/tmp0"; "/tmp/tmp1"];
     float_accepts := decimal_text |}.

Definition key_a (v : Z) : row :=
  {| r_hash := bytes_of "0123456789"; r_crf := 23; r_preset := "fast";
     r_output_bytes := v |}.

(** A world whose ledger knows that [a.mkv] at crf 23 and preset fast gave
    11 bytes, and one that has no ledger yet. *)
Definition world_hit : world := world_of fs0 (Some [key_a 11]).
Definition world_new : world := world_of fs0 None.

(** An encoder that writes 11 bytes, more than the 10 of [a.mkv], for an
    input that is not in the target format; and one for an input that
    is. *)
Definition env_larger : env := env_of h264_aac (bytes_of "0123456789A").
Definition env_target : env := env_of hevc_aac (bytes_of "0123456789A").

End Examples.

(** ** Observations on runs, used to state the properties *)

(** The rows of the stored ledger; none before the table exists. *)
Definition ledger_rows (w : world) : list row := default [] (w_ledger w).

(** [w'] is [w] after some more events [evs]. *)
Definition events_between (w w' : world) (evs : list event) : Prop :=
  w_trace w' = (evs ++ w_trace w)%list.

(** The event is a run of the external encoder. *)
Definition is_encoder_run (e : event) : Prop :=
  match e with
  | Spawn (prog :: _) => prog = "ffmpeg"
  | _ => False
  end.

(** The event reads or writes the ledger's rows. *)
Definition is_ledger_access (e : event) : Prop :=
  match e with
  | SqlSelect _ _ _ | SqlInsert _ _ _ _ => True
  | _ => False
  end.

(** The output path [reencode] works with. *)
Definition mp4_path (out_file : string) : string :=
  if endswith out_file ".mp4" then out_file else as_mp4 out_file.

(** The digest [hash_file] yields for [p] in [w]: the memoized one, or
    that of the bytes now on disk. *)
Definition hash_of (E : env) (w : world) (p : string) : res (list byte) :=
  match w_hashes w !! p with
  | Some h => Ret h
  | None =>
      match FS.read_file (w_fs w) p with
      | Ret data => Ret (sha1 E data)
      | Raise e => Raise e
      end
  end.

(** The percentage that [file_size_percent] computes from two sizes. *)
Definition percent_of (s1 s2 : Z) : res Float.float :=
  if s2 =? 0 then Raise ZeroDivisionError
  else match Float.round_to_double (100 * s1) s2 with
       | None => Raise OverflowError
       | Some pct =>
           match Float.round1 pct with
           | Some percent => Ret percent
           | None => Raise OverflowError
           end
       end.

(** The primary key of a row. *)
Definition row_key (r : row) : list byte * Z * string :=
  (r_hash r, r_crf r, r_preset r).

(** A ledger as sqlite and [reencode] keep it: the primary key is unique,
    the integers fit 64 bits (both enforced by sqlite), and every recorded
    output size is positive ([reencode] records the size of an output that
    is at least as large as a non-empty input). *)
Definition ledger_valid (w : world) : Prop :=
  NoDup (map row_key (ledger_rows w)) /\
  Forall (fun r => fits_int64 (r_crf r) = true /\
                   fits_int64 (r_output_bytes r) = true /\
                   0 < r_output_bytes r) (ledger_rows w).

(** What a call of [Probe.probe] may change: the memo table, and the
    trace by one run of ffprobe. *)
Definition probe_step (w w' : world) : Prop :=
  w_fs w' = w_fs w /\ w_ledger w' = w_ledger w /\ w_hashes w' = w_hashes w /\
  (w_trace w' = w_trace w \/
   exists cmd, w_trace w' = Spawn ("ffprobe" :: cmd) :: w_trace w).

(** [p] names a regular file (no link) that holds [data]. *)
Definition holds (fs : filesystem) (p : string) (data : list byte) : Prop :=
  exists i ino,
    names fs !! p = Some (Reg i) /\ inodes fs !! i = Some ino /\ i_data ino = data.

(** Only the file system differs between [w] and [w']. *)
Definition same_but_fs (w w' : world) : Prop :=
  w_ledger w' = w_ledger w /\ w_hashes w' = w_hashes w /\
  w_probes w' = w_probes w /\ w_trace w' = w_trace w.

(** The world after [hash_file] has memoized [h] for [p]. *)
Definition with_hash (p : string) (h : list byte) (w : world) : world :=
  set_hashes (<[p := h]> (w_hashes w)) w.

(** [wp m Q w]: running [m] from [w] ends in an outcome and a world
    that satisfy [Q]. *)
Definition wp {A} (m : M A) (Q : res A -> world -> Prop) (w : world) : Prop :=
  Q (m w).1 (m w).2.

(** ** [humansize.py] *)

Module Humansize.

(** The value of [nbytes]: the int that was passed, and a float from the
    first division on. *)
Inductive number :=
| Int (n : Z)
| Flt (x : Float.float).

Definition suffixes : list string := ["B"; "KiB"; "MiB"; "GiB"; "TiB"; "PiB"].

(** [nbytes >= 1024], an exact comparison for both kinds of number. *)
Definition ge_1024 (v : number) : bool :=
  match v with
  | Int n => 1024 <=? n
  | Flt x => Float.ge_int x 1024
  end.

(** [x / 1024.] for a float [x]: exact when the quotient is a normal
    number, and rounded to nearest otherwise. *)
Definition float_div_1024 (x : Float.float) : option Float.float :=
  if (2 ^ 52 <=? Float.f_mant x) && (-1074 <=? Float.f_exp x - 10)
  then Some (Float.mk (Float.f_mant x) (Float.f_exp x - 10))
  else if 0 <=? Float.f_exp x - 10
       then Float.round_to_double (Float.f_mant x * 2 ^ (Float.f_exp x - 10)) 1
       else Float.round_to_double (Float.f_mant x) (2 ^ (10 - Float.f_exp x)).

(** [nbytes /= 1024.]: an int is converted to float first, which fails
    for an int beyond the range of floats.  Only numbers that are at least
    1024 are divided. *)
Definition div_1024 (v : number) : res Float.float :=
  let x := match v with
           | Int n => Float.of_Z n
           | Flt x => Some x
           end in
  match x ≫= float_div_1024 with
  | Some y => Ret y
  | None => Raise OverflowError
  end.

(** The [while] loop.  Each turn increases [i], and the loop stops when
    [i] reaches [len(suffixes) - 1], so it takes at most that many turns:
    [turns] is that bound. *)
Fixpoint loop (turns : nat) (v : number) (i : nat) : res (number * nat) :=
  match turns with
  | O => Ret (v, i)
  | S k =>
      if ge_1024 v && (i <? length suffixes - 1)%nat then
        match div_1024 v with
        | Ret x => loop k (Flt x) (S i)
        | Raise e => Raise e
        end
      else Ret (v, i)
  end.

(** [s.rstrip(c)] for a one-character [c] *)
Fixpoint rstrip_char (c : ascii) (s : string) : string :=
  match s with
  | EmptyString => EmptyString
  | String a s' =>
      let r := rstrip_char c s' in
      if Ascii.eqb a c && String.eqb r EmptyString then EmptyString else String a r
  end.

(** The integer nearest to [100 * x], ties to even. *)
Definition hundredths (x : Float.float) : Z :=
  Float.scaled (100 * Float.f_mant x) 1 (- Float.f_exp x).

(** The digits of [h / 100] with two decimals. *)
Definition two_decimals (h : Z) : string :=
  str (h / 100) +:+ "." +:+
  (if h mod 100 <? 10 then "0" +:+ str (h mod 100) else str (h mod 100)).

(** [f'{nbytes:.2f}']: the decimal with two fractional digits that is
    nearest to the value; an int is converted to float first. *)
Definition format_2f (v : number) : res string :=
  match v with
  | Flt x => Ret (two_decimals (hundredths x))
  | Int n =>
      match Float.of_Z (Z.abs n) with
      | Some x =>
          Ret ((if n <? 0 then "-" else EmptyString) +:+ two_decimals (hundredths x))
      | None => Raise OverflowError
      end
  end.

(** [humansize] *)
Definition humansize (nbytes : Z) : res string :=
  match loop (length suffixes - 1) (Int nbytes) 0 with
  | Raise e => Raise e
  | Ret (v, i) =>
      match format_2f v with
      | Raise e => Raise e
      | Ret f =>
          Ret (rstrip_char "." (rstrip_char "0" f) +:+ nth i suffixes EmptyString)
      end
  end.

End Humansize.

(** [humansize_file] *)
Definition humansize_file (path : string) : M string :=
  st <- os_stat path ;;
  match Humansize.humansize (st_size st) with
  | Ret s => ret s
  | Raise e => raise e
  end.

(** ** The command line of [reencode.py] *)

(** [os.symlink(target, linkpath)] *)
Definition FS_symlink (fs : filesystem) (target linkpath : string)
  : res filesystem :=
  match names fs !! linkpath with
  | Some _ => Raise FileExistsError
  | None =>
      match FS.parent_dev fs linkpath with
      | None => Raise FileNotFoundError
      | Some _ => Ret (FS.set_names fs (<[linkpath := Lnk target]> (names fs)))
      end
  end.

(** [class RunArgs] *)
Module RunArgs.
Record t :=
  { in_file : string;
    crf : Z;
    preset : string;
    force : bool;
    replacelink : bool;
    nobackup : bool;
    probe : bool;
    outdir : string;
    trace : bool;
    replace : bool;
    benchmark : bool }.
End RunArgs.

Section CommandLine.

Context (E : env).

(** [benchmark] is left abstract, and so is [os.path.relpath], which
    depends on the working directory of the process; its first argument
    is what [reencode] has returned, a path or [None]. *)
Context (benchmark : string -> string -> M unit).
Context (os_path_relpath : option string -> string -> res string).

(** [os.remove] *)
Definition os_remove (p : string) : M unit := fs_act (fun fs => FS.unlink fs p).

(** [reencode_replace]; [if out_file := reencode(...)] takes the branch
    for a path that is not the empty text. *)
Definition reencode_replace (ra : RunArgs.t) : M unit :=
  with_TemporaryDirectory E (fun tmp_dir =>
    let out_file := Path.join tmp_dir (Path.basename (RunArgs.in_file ra)) in
    let dest :=
      if endswith (lower (RunArgs.in_file ra)) "mp4" then RunArgs.in_file ra
      else as_mp4 (RunArgs.in_file ra) in
    (if negb (String.eqb dest (RunArgs.in_file ra)) then
       c <- path_exists dest ;; if c then Log_error else ret tt
     else ret tt) ;;;
    out_file <- reencode E (RunArgs.in_file ra) out_file (RunArgs.crf ra)
                  (RunArgs.preset ra) (RunArgs.force ra) [] true ;;
    match out_file with
    | None => ret tt
    | Some p =>
        if String.eqb p EmptyString then ret tt
        else
          (if RunArgs.nobackup ra then os_remove (RunArgs.in_file ra)
           else backup (RunArgs.in_file ra)) ;;;
          copy_file p dest
    end).

(** [print_probe]: its first statement reads the global name [in_file],
    which the module never binds (the parameter is called [f]). *)
Definition print_probe (f : string) : M unit := raise (OtherError "NameError").

(** [main_run]; [Log.tracing] only steers what is printed. *)
Definition main_run (ra : RunArgs.t) : M unit :=
  if skip_file (RunArgs.in_file ra) then Log_error
  else if RunArgs.probe ra then print_probe (RunArgs.in_file ra)
  else if RunArgs.benchmark ra then benchmark (RunArgs.in_file ra) (RunArgs.outdir ra)
  else if RunArgs.replace ra then reencode_replace ra
  else
    let out_file :=
      Path.join (RunArgs.outdir ra) (Path.basename (RunArgs.in_file ra)) in
    out_file <- reencode E (RunArgs.in_file ra) out_file (RunArgs.crf ra)
                  (RunArgs.preset ra) (RunArgs.force ra) [] false ;;
    if RunArgs.replacelink ra then
      (if RunArgs.nobackup ra then os_remove (RunArgs.in_file ra)
       else backup (RunArgs.in_file ra)) ;;;
      match os_path_relpath out_file (Path.dirname (RunArgs.in_file ra)) with
      | Raise e => raise e
      | Ret target => fs_act (fun fs => FS_symlink fs target (RunArgs.in_file ra))
      end
    else ret tt.

End CommandLine.

(** ** More observations on runs *)

(** The command line that [Probe.probe] runs for a file. *)
Definition ffprobe_cmd (file : string) : list string :=
  [ "ffprobe"; "-loglevel"; "error"; "-show_entries";
    "stream=codec_name,codec_type:format=duration";
    "-print_format"; "json"; file ].

(** The number of runs of the program [prog] among the events. *)
Definition spawns_of (prog : string) (evs : list event) : nat :=
  length (List.filter
            (fun e => match e with
                      | Spawn (p :: _) => String.eqb p prog
                      | _ => false
                      end) evs).

(** The encoder has written [data]: among the events is a run of ffmpeg
    that, on the file system [fs] with a scratch directory added, gives
    these bytes. *)
Definition encoder_output (E : env) (fs : filesystem) (evs : list event)
    (data : list byte) : Prop :=
  exists cmd d dev text,
    In (Spawn cmd) evs /\ is_encoder_run (Spawn cmd) /\
    In d (tmp_candidates E) /\
    ext_ffmpeg E (FS.set_names fs (<[d := Dir dev]> (names fs))) cmd
    = Some (text, data).

(** The base name of the ledger's database.  The world keeps the database
    as [w_ledger], apart from the files of [w_fs]; sqlite keeps its journal
    beside the database, under a name that starts with this one. *)
Definition BadEncodingDatabase_db_name : string := "badencodings.db".

(** The path names the ledger's database or what sqlite keeps beside
    it. *)
Definition is_ledger_file (p : string) : bool :=
  String.prefix BadEncodingDatabase_db_name (Path.basename p).

(** The path that [reencode_replace] puts the new encoding at. *)
Definition replace_dest (in_file : string) : string :=
  if endswith (lower in_file) "mp4" then in_file else as_mp4 in_file.

(** The scratch directories are ready: the candidate names are not empty
    and end in no slash, no candidate lies below another, and no name of
    the file system lies below a candidate that does not exist. *)
Definition scratch_ready (cands : list string) (fs : filesystem) : Prop :=
  Forall (fun d => d <> EmptyString /\ endswith d "/" = false) cands /\
  (forall c d, In c cands -> In d cands -> c <> d -> FS.under c d = false) /\
  map_Forall
    (fun q _ => Forall (fun c => names fs !! c = None -> FS.under c q = false) cands)
    (names fs).

(** The index of the unit that [humansize] prints [n] bytes in: that of
    the largest power of 1024 that does not exceed [n], at most the
    fifth. *)
Definition unit_of (n : Z) : nat := Nat.min 5 (Z.to_nat (Z.log2 n / 10)).

(** Two results are the same text. *)
Definition same_text (a b : res string) : bool :=
  match a, b with
  | Ret x, Ret y => String.eqb x y
  | _, _ => false
  end.

(** ** [split.py] *)

Module Split.

(** [s.isascii()]: every character is below 128. *)
Fixpoint isascii (s : string) : bool :=
  match s with
  | EmptyString => true
  | String c s' => (N_of_ascii c <? 128)%N && isascii s'
  end.

(** [c.isspace()] for an ASCII character: the white space that
    [str.strip] removes from ASCII text.  (On other text [str.strip] also
    removes the Unicode white space, which is not embedded here.) *)
Definition is_space (c : ascii) : bool :=
  let n := N_of_ascii c in
  (((9 <=? n) && (n <=? 13)) || ((28 <=? n) && (n <=? 32)))%N.

Fixpoint lstrip (s : string) : string :=
  match s with
  | EmptyString => EmptyString
  | String c s' => if is_space c then lstrip s' else s
  end.

Fixpoint rstrip (s : string) : string :=
  match s with
  | EmptyString => EmptyString
  | String c s' =>
      let r := rstrip s' in
      if is_space c && String.eqb r EmptyString then EmptyString else String c r
  end.

(** [s.strip()], for ASCII text *)
Definition strip (s : string) : string := rstrip (lstrip s).

(** [os.lstat(path)] with [stat.S_ISREG]: the size of a regular file, and
    nothing for a directory or a symbolic link, which is not followed. *)
Definition lstat_reg (fs : filesystem) (path : string) : res (option Z) :=
  match names fs !! path with
  | Some (Reg i) =>
      match inodes fs !! i with
      | Some ino => Ret (Some (Z.of_nat (length (i_data ino))))
      | None => Raise OSError
      end
  | Some _ => Ret None
  | None => Raise FileNotFoundError
  end.

(** The loop over the lines of the standard input: the regular files
    with their sizes and the paths that were skipped, both in the order of
    the input; the loop ends at the first path that [lstat] fails on. *)
Fixpoint scan (fs : filesystem) (lines : list string)
    (files : list (string * Z)) (skipped : list string)
  : res (list (string * Z)) * list string :=
  match lines with
  | [] => (Ret files, skipped)
  | line :: rest =>
      let path := strip line in
      match lstat_reg fs path with
      | Raise e => (Raise e, skipped)
      | Ret (Some size) => scan fs rest (files ++ [(path, size)]) skipped
      | Ret None => scan fs rest files (skipped ++ [path])
      end
  end.

(** What the loop has written to the standard error for the skipped
    paths. *)
Definition skip_message (skipped : list string) : string :=
  match skipped with
  | [] => EmptyString
  | p :: ps =>
      "Skipping non-regular files: " +:+ p +:+
      fold_right (fun q s => ", " +:+ q +:+ s) EmptyString ps
  end.

(** [files.sort(key=lambda p: p[1])]: a stable sort by size. *)
Fixpoint insert_by_size (x : string * Z) (l : list (string * Z))
  : list (string * Z) :=
  match l with
  | [] => [x]
  | y :: l' => if snd x <=? snd y then x :: l else y :: insert_by_size x l'
  end.

Definition sort_by_size (l : list (string * Z)) : list (string * Z) :=
  fold_right insert_by_size [] l.

(** [range(start, stop, step)] for a positive step: the items
    [start + k * step] below [stop]. *)
Definition range (start stop step : nat) : list nat :=
  map (fun k => start + k * step)%nat
      (seq 0 ((stop - start + step - 1) / step)).

(** The last loop: the paths printed and the sum of their sizes. *)
Fixpoint pick (files : list (string * Z)) (idxs : list nat)
  : res (list string * Z) :=
  match idxs with
  | [] => Ret ([], 0)
  | i :: rest =>
      match files !! i with
      | None => Raise (OtherError "IndexError")
      | Some (path, size) =>
          match pick files rest with
          | Raise e => Raise e
          | Ret (paths, total) => Ret (path :: paths, size + total)
          end
      end
  end.

(** The group with a given index: the files by decreasing size, every
    [divisor]-th of them from [index] on. *)
Definition group (files : list (string * Z)) (divisor index : nat)
  : res (list string * Z) :=
  let sorted := rev (sort_by_size files) in
  pick sorted (range index (length sorted) divisor).

Record outcome :=
  { result : res unit; stdout : list string; stderr : string }.

(** The script, for the parsed arguments and the lines of the standard
    input. *)
Definition main (fs : filesystem) (divisor index : Z) (stdin : list string)
  : outcome :=
  if negb (index <? divisor) || negb (0 <=? index) then
    {| result := Raise (OtherError "AssertionError"); stdout := [];
       stderr := EmptyString |}
  else
    match scan fs stdin [] [] with
    | (Raise e, skipped) =>
        {| result := Raise e; stdout := []; stderr := skip_message skipped |}
    | (Ret files, skipped) =>
        let err := match skipped with
                   | [] => EmptyString
                   | _ => skip_message skipped +:+ String "010" EmptyString
                   end in
        match group files (Z.to_nat divisor) (Z.to_nat index) with
        | Raise e => {| result := Raise e; stdout := []; stderr := err |}
        | Ret (paths, total_size) =>
            match Humansize.humansize total_size with
            | Raise e => {| result := Raise e; stdout := paths; stderr := err |}
            | Ret size =>
                {| result := Ret tt; stdout := paths;
                   stderr := err +:+ "Total size: " +:+ size +:+
                             String "010" EmptyString |}
            end
        end
    end.

(** What a group prints, and the sum of its sizes. *)
Definition paths_of (r : res (list string * Z)) : list string :=
  match r with
  | Ret (paths, _) => paths
  | Raise _ => []
  end.

Definition total_of (r : res (list string * Z)) : Z :=
  match r with
  | Ret (_, total) => total
  | Raise _ => 0
  end.

Definition sum_sizes (files : list (string * Z)) : Z :=
  fold_right (fun f s => snd f + s) 0 files.

(** The size of the largest file, 0 when there is none. *)
Definition largest (files : list (string * Z)) : Z :=
  fold_right (fun f m => Z.max (snd f) m) 0 files.

(** The path names a regular file itself (not through a link). *)
Definition is_reg (fs : filesystem) (path : string) : bool :=
  match names fs !! path with
  | Some (Reg _) => true
  | _ => false
  end.

End Split.

(** ** More concrete worlds and arguments *)

Module MoreExamples.
Import Examples.

(** An encoder that writes 3 bytes, fewer than the 10 of [a.mkv]. *)
Definition env_smaller : env := env_of h264_aac (bytes_of "012").

(** A report with the one video stream and the duration that ffprobe
    prints when it knows none, for which [float] raises. *)
Definition env_undated : env :=
  env_of {| pd_streams := [("h264", "video")]; pd_format := Some (Some "N/A") |}
         (bytes_of "012").

(** [fs0] with a second name, [twin.mkv], for the file [a.mkv]. *)
Definition fs_twins : filesystem :=
  {| names := <["twin.mkv" := Reg 0]> (names fs0);
     inodes := inodes fs0;
     cwd_dev := cwd_dev fs0 |}.

Definition run_args (in_file : string) (probe replace : bool) : RunArgs.t :=
  {| RunArgs.in_file := in_file; RunArgs.crf := 23; RunArgs.preset := "fast";
     RunArgs.force := false; RunArgs.replacelink := false;
     RunArgs.nobackup := true; RunArgs.probe := probe;
     RunArgs.outdir := "./"; RunArgs.trace := false;
     RunArgs.replace := replace; RunArgs.benchmark := false |}.

(** The arguments of a plain run that writes into [videos]. *)
Definition plain_args : RunArgs.t :=
  {| RunArgs.in_file := "a.mkv"; RunArgs.crf := 23; RunArgs.preset := "fast";
     RunArgs.force := false; RunArgs.replacelink := false;
     RunArgs.nobackup := false; RunArgs.probe := false;
     RunArgs.outdir := "videos"; RunArgs.trace := false;
     RunArgs.replace := false; RunArgs.benchmark := false |}.

(** A [benchmark] and an [os.path.relpath] to run [main_run] with. *)
Definition no_benchmark (in_file out_dir : string) : M unit := ret tt.
Definition relpath_id (path : option string) (start : string) : res string :=
  match path with
  | Some p => Ret p
  | None => Raise (OtherError "ValueError")
  end.

(** Lines on the standard input of [split.py]. *)
Definition stdin0 : list string :=
  [ "a.mkv" +:+ String "010" EmptyString;
    " videos/b.mkv " +:+ String "010" EmptyString;
    "videos" +:+ String "010" EmptyString;
    "old.mp4" ].

End MoreExamples.

(** ** Strings *)

Section StringFacts.

Lemma prefix_app (p s : string) : String.prefix p (p +:+ s) = true.
Proof.
  induction p as [|a p IH]; simpl.
  - by destruct s.
  - destruct (ascii_dec a a); [exact IH | congruence].
Qed.

Lemma contains_prefix (sub s : string) :
  String.prefix sub s = true -> contains sub s = true.
Proof. intros H. destruct s; cbn [contains]; rewrite H; reflexivity. Qed.

Lemma contains_cons (sub : string) (a : ascii) (s : string) :
  contains sub s = true -> contains sub (String a s) = true.
Proof. intros H. cbn [contains]. rewrite H. apply orb_true_r. Qed.

Lemma contains_app_l (sub pre s : string) :
  contains sub s = true -> contains sub (pre +:+ s) = true.
Proof.
  intros H. induction pre as [|a pre IH].
  - exact H.
  - change (String a pre +:+ s) with (String a (pre +:+ s)).
    apply contains_cons, IH.
Qed.

Lemma endswith_refl (s : string) : endswith s s = true.
Proof. destruct s; cbn [endswith]; rewrite String.eqb_refl; reflexivity. Qed.

Lemma endswith_app (pre suf : string) : endswith (pre +:+ suf) suf = true.
Proof.
  induction pre as [|a pre IH].
  - apply endswith_refl.
  - change (String a pre +:+ suf) with (String a (pre +:+ suf)).
    cbn [endswith]. rewrite IH. apply orb_true_r.
Qed.

Lemma endswith_app_l (pre s suf : string) :
  endswith s suf = true -> endswith (pre +:+ s) suf = true.
Proof.
  intros H. induction pre as [|a pre IH]; [exact H|].
  change (String a pre +:+ s) with (String a (pre +:+ s)).
  cbn [endswith]. rewrite IH. apply orb_true_r.
Qed.

Lemma lower_app (s t : string) : lower (s +:+ t) = lower s +:+ lower t.
Proof.
  induction s as [|a s IH]; [reflexivity|].
  change (String a s +:+ t) with (String a (s +:+ t)).
  cbn [lower]. rewrite IH. reflexivity.
Qed.

Lemma has_char_false_head (p : string) :
  has_char "/" p = false -> Path.head p = EmptyString.
Proof. destruct p as [|c p]; simpl; [reflexivity|]. by intros ->. Qed.

Lemma dirname_no_slash (p : string) :
  has_char "/" p = false -> Path.dirname p = EmptyString.
Proof. intros H. unfold Path.dirname. by rewrite (has_char_false_head _ H). Qed.

End StringFacts.

(** ** The backup marker and the skip policy *)

Section Marker.

(** A backup name carries the marker, and the skip policy rejects it. *)
Lemma is_backup_backup_target (f : string) : is_backup (backup_target f) = true.
Proof.
  unfold is_backup, backup_target.
  change ("REENC_BACKUP-" +:+ f) with (BACKUP_MARKER +:+ ("-" +:+ f)).
  apply contains_prefix, prefix_app.
Qed.

Lemma skip_file_backup_target (f : string) : skip_file (backup_target f) = true.
Proof. unfold skip_file. by rewrite is_backup_backup_target. Qed.

(** Every path that carries the marker anywhere is skipped. *)
Lemma skip_file_marker (f : string) : is_backup f = true -> skip_file f = true.
Proof. unfold skip_file. by intros ->. Qed.

(** Every path that ends in a dot and a listed extension, in any case of
    letters, is skipped. *)
Lemma skip_file_listed_extension (base ext : string) :
  In ext SKIP_EXTS -> skip_file (base +:+ "." +:+ ext) = true.
Proof.
  intros Hin. unfold skip_file, has_skip_ext.
  apply orb_true_iff. right. apply existsb_exists.
  exists ext. split; [exact Hin|].
  rewrite !lower_app.
  assert (Hl : lower ext = ext).
  { simpl in Hin. repeat (destruct Hin as [<-|Hin]; [reflexivity|]). destruct Hin. }
  rewrite Hl. apply endswith_app_l, endswith_app.
Qed.

(** A name without a directory part is backed up in place. *)
Lemma backup_target_same_dir (f : string) :
  has_char "/" f = false ->
  Path.dirname (backup_target f) = Path.dirname f.
Proof.
  intros H. rewrite (dirname_no_slash f H).
  apply dirname_no_slash. unfold backup_target.
  simpl. exact H.
Qed.

End Marker.

(** ** Reasoning about runs *)

Section Wp.

Context {A B : Type}.
Implicit Types (Q : res A -> world -> Prop) (w : world).

Lemma wp_outcome (m : M A) Q w r w' :
  wp m Q w -> m w = (r, w') -> Q r w'.
Proof. unfold wp. intros H Hm. by rewrite Hm in H. Qed.

Lemma wp_any (m : M A) Q w :
  (forall r w', m w = (r, w') -> Q r w') -> wp m Q w.
Proof. intros H. apply H. by destruct (m w). Qed.

Lemma wp_known (m : M A) Q w r w' :
  m w = (r, w') -> Q r w' -> wp m Q w.
Proof. unfold wp. by intros ->. Qed.

Lemma wp_mono (m : M A) Q Q' w :
  wp m Q w -> (forall r w', Q r w' -> Q' r w') -> wp m Q' w.
Proof. unfold wp. auto. Qed.

Lemma wp_ret (a : A) Q w : Q (Ret a) w -> wp (ret a) Q w.
Proof. done. Qed.

Lemma wp_raise (e : exn) Q w : Q (Raise e) w -> wp (raise e) Q w.
Proof. done. Qed.

Lemma wp_gets (g : world -> A) Q w : Q (Ret (g w)) w -> wp (gets g) Q w.
Proof. done. Qed.

Lemma wp_fs_read (g : filesystem -> res A) Q w :
  Q (g (w_fs w)) w -> wp (fs_read g) Q w.
Proof. done. Qed.

Lemma wp_bind (m : M B) (f : B -> M A) Q w :
  wp m (fun r w' =>
          match r with
          | Ret b => wp (f b) Q w'
          | Raise e => Q (Raise e) w'
          end) w ->
  wp (bind m f) Q w.
Proof. unfold wp, bind. by destruct (m w) as [[b|e] w']. Qed.

Lemma wp_finally (m : M A) (h : world -> world) Q w :
  wp m (fun r w' => Q r (h w')) w -> wp (finally m h) Q w.
Proof. unfold wp, finally. by destruct (m w). Qed.

Lemma wp_catch (m handler : M A) (e : exn) Q w :
  wp m (fun r w' =>
          match r with
          | Raise e' => if decide (e' = e) then wp handler Q w' else Q r w'
          | Ret _ => Q r w'
          end) w ->
  wp (catch m e handler) Q w.
Proof.
  unfold wp, catch. destruct (m w) as [[a|e'] w']; [done|].
  simpl. by destruct (decide (e' = e)).
Qed.

End Wp.

Lemma wp_modify (f : world -> world) (Q : res unit -> world -> Prop) w :
  Q (Ret tt) (f w) -> wp (modify f) Q w.
Proof. done. Qed.

Lemma wp_fs_act (g : filesystem -> res filesystem) (Q : res unit -> world -> Prop) w :
  (forall fs', g (w_fs w) = Ret fs' -> Q (Ret tt) (set_fs fs' w)) ->
  (forall e, g (w_fs w) = Raise e -> Q (Raise e) w) ->
  wp (fs_act g) Q w.
Proof. unfold wp, fs_act. intros H1 H2. destruct (g (w_fs w)); simpl; auto. Qed.

Lemma wp_Log_check (c : bool) (Q : res unit -> world -> Prop) w :
  (c = true -> Q (Ret tt) w) -> (c = false -> Q (Raise ErrorCalled) w) ->
  wp (Log_check c) Q w.
Proof. destruct c; unfold wp; simpl; auto. Qed.

Lemma wp_run {A} (tool : filesystem -> list string -> option (A * filesystem))
    (cmd : list string) (Q : res A -> world -> Prop) w :
  (forall out fs', tool (w_fs w) cmd = Some (out, fs') ->
     Q (Ret out) (set_fs fs' (log_event (Spawn cmd) w))) ->
  (tool (w_fs w) cmd = None ->
     Q (Raise CalledProcessError) (log_event (Spawn cmd) w)) ->
  wp (run tool cmd) Q w.
Proof.
  unfold wp, run. simpl. intros H1 H2.
  destruct (tool (w_fs w) cmd) as [[out fs']|]; simpl; auto.
Qed.

(** One step of symbolic execution. *)
Ltac wp_step :=
  lazymatch goal with
  | |- wp (bind _ _) _ _ => apply wp_bind
  | |- wp (ret _) _ _ => apply wp_ret
  | |- wp (raise _) _ _ => apply wp_raise
  | |- wp Log_error _ _ => apply wp_raise
  | |- wp (gets _) _ _ => apply wp_gets
  | |- wp (modify _) _ _ => apply wp_modify
  | |- wp (fs_read _) _ _ => apply wp_fs_read
  | |- wp (finally _ _) _ _ => apply wp_finally
  | |- wp (catch _ _ _) _ _ => apply wp_catch
  | |- wp (Log_check _) _ _ =>
      apply wp_Log_check; let H := fresh "Hc" in intros H; try discriminate H
  | |- wp (fs_act _) _ _ =>
      apply wp_fs_act;
      [ let fs := fresh "fs" in let H := fresh "Hfs" in intros fs H
      | let e := fresh "e" in let H := fresh "Hfs" in intros e H ]
  | |- wp (run _ _) _ _ =>
      apply wp_run;
      [ let o := fresh "out" in let fs := fresh "fs" in let H := fresh "Hrun" in
        intros o fs H
      | let H := fresh "Hrun" in intros H ]
  | |- wp (if ?c then _ else _) _ _ =>
      let H := fresh "Hif" in destruct c eqn:H
  | |- wp (match ?x with _ => _ end) _ _ =>
      let H := fresh "Hm" in destruct x eqn:H
  | |- match ?x with _ => _ end =>
      first [ match goal with H : x = _ |- _ => rewrite H end
            | let H := fresh "Hm" in destruct x eqn:H ]
  end;
  cbn beta iota;
  cbn [w_fs w_ledger w_hashes w_probes w_trace
       set_fs set_ledger set_hashes set_probes log_event] in *.

Ltac wp_steps := repeat wp_step.

(** ** Placement: [copy_file] *)

Section Placement.

(** C5. When something exists at the destination, [copy_file] raises
    the error of [Log.error] and changes nothing: the source, the file
    at the destination and the rest of the world are as before. *)
Theorem copy_file_refuses_existing_destination (w : world) (src dst : string) :
  FS.exists_ (w_fs w) dst = true ->
  copy_file src dst w = (Raise ErrorCalled, w).
Proof.
  intros Hex. unfold copy_file, path_exists, bind, gets.
  rewrite Hex. reflexivity.
Qed.

End Placement.

(** ** The ledger *)

Section Ledger.

Context (E : env).

Lemma set_hashes_same (w : world) : set_hashes (w_hashes w) w = w.
Proof. by destruct w. Qed.

(** [hash_file] returns [hash_of] and memoizes it. *)
Lemma hash_file_run (p : string) (w : world) :
  BadEncodingDatabase_hash_file E p w =
  match hash_of E w p with
  | Ret h => (Ret h, with_hash p h w)
  | Raise e => (Raise e, w)
  end.
Proof.
  unfold BadEncodingDatabase_hash_file, hash_of, with_hash, bind, gets, fs_read,
    modify, ret.
  destruct (w_hashes w !! p) as [h|] eqn:Hc.
  - by rewrite (insert_id _ _ _ Hc), set_hashes_same.
  - by destruct (FS.read_file (w_fs w) p).
Qed.

Lemma hash_of_with_hash (p : string) (h : list byte) (w : world) :
  hash_of E (with_hash p h w) p = Ret h.
Proof. unfold hash_of, with_hash. simpl. by rewrite lookup_insert_eq. Qed.

Lemma find_key_none (rows : list row) h crf preset :
  existsb (key_matches h crf preset) rows = false ->
  List.find (key_matches h crf preset) rows = None.
Proof.
  induction rows as [|r rows IH]; simpl; [done|].
  destruct (key_matches h crf preset r); simpl; [done | exact IH].
Qed.

Lemma key_matches_refl h crf preset v :
  key_matches h crf preset
    {| r_hash := h; r_crf := crf; r_preset := preset; r_output_bytes := v |} = true.
Proof.
  unfold key_matches. simpl.
  rewrite bool_decide_eq_true_2 by done.
  by rewrite Z.eqb_refl, String.eqb_refl.
Qed.

Lemma select_app_new (rows : list row) h crf preset v :
  existsb (key_matches h crf preset) rows = false ->
  select_output_bytes
    (rows ++ [ {| r_hash := h; r_crf := crf; r_preset := preset;
                  r_output_bytes := v |} ]) h crf preset = Some v.
Proof.
  intros Hn. unfold select_output_bytes.
  induction rows as [|r rows IH]; simpl in *.
  - by rewrite key_matches_refl.
  - destruct (key_matches h crf preset r); [done | by apply IH].
Qed.

Lemma select_some_exists (rows : list row) h crf preset v :
  select_output_bytes rows h crf preset = Some v ->
  existsb (key_matches h crf preset) rows = true.
Proof.
  unfold select_output_bytes.
  destruct (existsb (key_matches h crf preset) rows) eqn:Hex; [done|].
  by rewrite (find_key_none _ _ _ _ Hex).
Qed.

(** Rows added behind a row with the key do not change what a lookup of
    the key returns. *)
Lemma select_app_keep (rows more : list row) h crf preset v :
  select_output_bytes rows h crf preset = Some v ->
  select_output_bytes (rows ++ more) h crf preset = Some v.
Proof.
  unfold select_output_bytes.
  induction rows as [|r rows IH]; simpl; [done|].
  destruct (key_matches h crf preset r); [done | exact IH].
Qed.

Lemma key_matches_iff (r : row) h crf preset :
  key_matches h crf preset r = true <-> row_key r = (h, crf, preset).
Proof.
  unfold key_matches, row_key. rewrite !andb_true_iff, bool_decide_eq_true.
  rewrite Z.eqb_eq, String.eqb_eq. split.
  - by intros [[-> ->] ->].
  - by intros [= -> -> ->].
Qed.

Lemma select_none_exists (rows : list row) h crf preset :
  select_output_bytes rows h crf preset = None ->
  existsb (key_matches h crf preset) rows = false.
Proof.
  unfold select_output_bytes. intros H.
  destruct (existsb (key_matches h crf preset) rows) eqn:Hex; [|done].
  apply existsb_exists in Hex as (r & Hin & Hr).
  destruct (List.find (key_matches h crf preset) rows) eqn:Hf; [done|].
  by rewrite (find_none _ _ Hf r Hin) in Hr.
Qed.

Lemma select_some_in (rows : list row) h crf preset v :
  select_output_bytes rows h crf preset = Some v ->
  exists r, In r rows /\ row_key r = (h, crf, preset) /\ r_output_bytes r = v.
Proof.
  unfold select_output_bytes.
  destruct (List.find (key_matches h crf preset) rows) as [r|] eqn:Hf; [|done].
  intros [= <-]. apply find_some in Hf as [Hin Hk].
  exists r. by rewrite <- key_matches_iff.
Qed.

(** Under a unique key, a lookup of the key of a stored row returns that
    row's value. *)
Lemma select_in (rows : list row) (r : row) :
  NoDup (map row_key rows) -> In r rows ->
  select_output_bytes rows (r_hash r) (r_crf r) (r_preset r)
  = Some (r_output_bytes r).
Proof.
  intros Hnd Hin.
  destruct (select_output_bytes rows (r_hash r) (r_crf r) (r_preset r))
    as [v|] eqn:Hsel.
  - apply select_some_in in Hsel as (r' & Hin' & Hk & <-).
    f_equal. f_equal.
    apply NoDup_ListNoDup in Hnd.
    clear -Hnd Hin Hin' Hk.
    induction rows as [|x rows IH]; [done|].
    simpl in *. inversion Hnd as [|? ? Hnot Hnd']; subst.
    destruct Hin as [->|Hin], Hin' as [->|Hin']; try done.
    + exfalso. apply Hnot. apply in_map_iff. exists r'. by rewrite Hk.
    + exfalso. apply Hnot. apply in_map_iff. exists r. by rewrite Hk.
    + by apply IH.
  - apply select_none_exists in Hsel.
    assert (Hex : existsb (key_matches (r_hash r) (r_crf r) (r_preset r)) rows = true).
    { apply existsb_exists. exists r. split; [done|]. by apply key_matches_iff. }
    congruence.
Qed.

(** A valid ledger answers a lookup with a positive size or with nothing,
    so the truth value of the answer tells a hit from a miss. *)
Lemma valid_truthy (rows : list row) h crf preset :
  Forall (fun r => fits_int64 (r_crf r) = true /\
                   fits_int64 (r_output_bytes r) = true /\
                   0 < r_output_bytes r) rows ->
  truthy (select_output_bytes rows h crf preset) = false ->
  existsb (key_matches h crf preset) rows = false.
Proof.
  intros Hv Ht.
  destruct (select_output_bytes rows h crf preset) as [v|] eqn:Hsel.
  - apply select_some_in in Hsel as (r & Hin & _ & <-).
    apply List.Forall_forall with (x := r) in Hv; [|done].
    destruct Hv as (_ & _ & Hpos). simpl in Ht.
    apply negb_false_iff, Z.eqb_eq in Ht. lia.
  - by apply select_none_exists.
Qed.

Lemma valid_app (rows : list row) h crf preset v :
  NoDup (map row_key rows) ->
  existsb (key_matches h crf preset) rows = false ->
  NoDup (map row_key
           (rows ++ [ {| r_hash := h; r_crf := crf; r_preset := preset;
                         r_output_bytes := v |} ])).
Proof.
  intros Hnd Hex. rewrite map_app. simpl.
  apply NoDup_app. split; [done|]. split; [|apply NoDup_singleton].
  intros k Hk Hk'. apply list_elem_of_singleton in Hk'. subst k.
  apply list_elem_of_In, in_map_iff in Hk as (r & Hr & Hin).
  apply key_matches_iff in Hr.
  assert (existsb (key_matches h crf preset) rows = true)
    by (apply existsb_exists; eauto).
  congruence.
Qed.

(** [db.check] as one equation. *)
Lemma check_run (f : string) (crf : Z) (preset : string) (w : world) :
  BadEncodingDatabase_check E f crf preset w =
  match hash_of E w f with
  | Raise e => (Raise e, w)
  | Ret h =>
      if fits_int64 crf then
        match w_ledger w with
        | Some rows =>
            (Ret (select_output_bytes rows h crf preset),
             log_event (SqlSelect h crf preset) (with_hash f h w))
        | None =>
            (Raise OperationalError,
             log_event (SqlSelect h crf preset) (with_hash f h w))
        end
      else (Raise OverflowError, with_hash f h w)
  end.
Proof.
  unfold BadEncodingDatabase_check. unfold bind at 1. rewrite hash_file_run.
  destruct (hash_of E w f) as [h|e]; [|done].
  cbv [bind sql_bind_int db_table gets modify ret raise].
  destruct (fits_int64 crf); [|done]. simpl.
  by destruct (w_ledger w).
Qed.

(** [db.insert] as one equation. *)
Lemma insert_run (f : string) (crf : Z) (preset : string) (v : Z) (w : world) :
  BadEncodingDatabase_insert E f crf preset v w =
  match hash_of E w f with
  | Raise e => (Raise e, w)
  | Ret h =>
      if fits_int64 crf && fits_int64 v then
        let w1 := log_event (SqlInsert h crf preset v) (with_hash f h w) in
        match w_ledger w with
        | Some rows =>
            if existsb (key_matches h crf preset) rows
            then (Raise IntegrityError, w1)
            else (Ret tt,
                  set_ledger
                    (Some (rows ++ [ {| r_hash := h; r_crf := crf;
                                        r_preset := preset;
                                        r_output_bytes := v |} ])) w1)
        | None => (Raise OperationalError, w1)
        end
      else (Raise OverflowError, with_hash f h w)
  end.
Proof.
  unfold BadEncodingDatabase_insert. unfold bind at 1. rewrite hash_file_run.
  destruct (hash_of E w f) as [h|e]; [|done].
  cbv [bind sql_bind_int db_table gets modify ret raise].
  destruct (fits_int64 crf); [|done]. simpl.
  destruct (fits_int64 v); [|done]. simpl.
  destruct (w_ledger w) as [rows|]; [|done]. simpl.
  by destruct (existsb (key_matches h crf preset) rows).
Qed.

(** C4. When [insert] returns, a [check] with the same file, crf and
    preset that follows it returns the output size just recorded. *)
Theorem check_after_insert (w w1 : world) (f : string) (crf : Z)
    (preset : string) (output_bytes : Z) :
  BadEncodingDatabase_insert E f crf preset output_bytes w = (Ret tt, w1) ->
  (BadEncodingDatabase_check E f crf preset w1).1 = Ret (Some output_bytes).
Proof.
  rewrite insert_run, check_run.
  destruct (hash_of E w f) as [h|e] eqn:Hh; [|done].
  destruct (fits_int64 crf) eqn:Hcrf; simpl; [|done].
  destruct (fits_int64 output_bytes); simpl; [|done].
  destruct (w_ledger w) as [rows|]; [|done].
  destruct (existsb (key_matches h crf preset) rows) eqn:Hex; [done|].
  intros [= <-].
  assert (Hh' : hash_of E
            (set_ledger
               (Some (rows ++ [ {| r_hash := h; r_crf := crf; r_preset := preset;
                                   r_output_bytes := output_bytes |} ]))
               (log_event (SqlInsert h crf preset output_bytes) (with_hash f h w)))
            f = Ret h).
  { unfold hash_of. simpl. by rewrite lookup_insert_eq. }
  rewrite Hh'. simpl.
  by rewrite select_app_new.
Qed.

(** An [insert] of a key that [check] did not find returns, when the
    numbers fit sqlite's integers. *)
Lemma insert_after_miss (w w1 : world) (f : string) (crf : Z)
    (preset : string) (v : Z) :
  BadEncodingDatabase_check E f crf preset w = (Ret None, w1) ->
  fits_int64 v = true ->
  exists w2, BadEncodingDatabase_insert E f crf preset v w1 = (Ret tt, w2).
Proof.
  rewrite check_run, insert_run.
  destruct (hash_of E w f) as [h|e] eqn:Hh; [|done].
  destruct (fits_int64 crf) eqn:Hcrf; [|done].
  destruct (w_ledger w) as [rows|] eqn:Hl; [|done].
  intros [= Hsel <-] Hv.
  assert (Hh' : hash_of E (log_event (SqlSelect h crf preset) (with_hash f h w)) f
                = Ret h).
  { unfold hash_of. simpl. by rewrite lookup_insert_eq. }
  rewrite Hh', Hv. simpl. rewrite ?Hl.
  destruct (existsb (key_matches h crf preset) rows) eqn:Hex; [|eauto].
  unfold select_output_bytes in Hsel.
  apply existsb_exists in Hex as (r & Hin & Hr).
  destruct (List.find (key_matches h crf preset) rows) eqn:Hf; [done|].
  by rewrite (find_none _ _ Hf r Hin) in Hr.
Qed.

End Ledger.


(** ** Floats and percentages *)

Section FloatFacts.

(** [rhe n d] is within one half of [n / d]. *)
Lemma rhe_nearest (n d : Z) : 0 < d -> 2 * Z.abs (n - d * Float.rhe n d) <= d.
Proof.
  intros Hd. unfold Float.rhe.
  pose proof (Z.div_mod n d ltac:(lia)) as Hdm.
  pose proof (Z.mod_pos_bound n d Hd) as Hb.
  destruct (Z.compare_spec (2 * (n mod d)) d) as [Heq|Hlt|Hgt];
    [destruct (Z.even (n / d))| |]; lia.
Qed.

Lemma rhe_1 (n : Z) : Float.rhe n 1 = n.
Proof.
  unfold Float.rhe. rewrite Z.div_1_r, Z.mod_1_r. reflexivity.
Qed.

(** [round(x, 1)] is the float nearest to [k / 10], for the integer [k]
    nearest to [10 * x]: [x] rounded to one decimal. *)
Lemma round1_one_decimal (x y : Float.float) :
  Float.round1 x = Some y ->
  exists k,
    Float.round_to_double k 10 = Some y /\
    (0 < Float.f_exp x -> k = 10 * Float.f_mant x * 2 ^ Float.f_exp x) /\
    (Float.f_exp x <= 0 ->
     2 * Z.abs (10 * Float.f_mant x - k * 2 ^ (- Float.f_exp x))
     <= 2 ^ (- Float.f_exp x)).
Proof.
  unfold Float.round1. intros H.
  exists (Float.scaled (10 * Float.f_mant x) 1 (- Float.f_exp x)).
  split; [exact H|]. unfold Float.scaled. split.
  - intros He. destruct (0 <=? - Float.f_exp x) eqn:Hle.
    + apply Z.leb_le in Hle. lia.
    + rewrite rhe_1, Z.opp_involutive. reflexivity.
  - intros He. destruct (0 <=? - Float.f_exp x) eqn:Hle.
    + rewrite Z.mul_1_l.
      pose proof (rhe_nearest (10 * Float.f_mant x) (2 ^ (- Float.f_exp x))
                    ltac:(apply Z.pow_pos_nonneg; lia)).
      lia.
    + apply Z.leb_gt in Hle. lia.
Qed.

(** A percentage of at least 100 comes from a non-empty first file. *)
Lemma percent_ge_positive (s1 s2 : Z) (pct percent : Float.float) :
  0 <= s1 ->
  Float.round_to_double (100 * s1) s2 = Some pct ->
  Float.round1 pct = Some percent ->
  Float.ge_int percent 100 = true ->
  0 < s1.
Proof.
  intros Hs H1 H2 H3.
  destruct (Z.eq_dec s1 0) as [->|]; [|lia].
  unfold Float.round_to_double in H1. simpl in H1. injection H1 as <-.
  vm_compute in H2. injection H2 as <-.
  vm_compute in H3. discriminate H3.
Qed.

End FloatFacts.

(** ** The file system *)

Section FsFacts.

Implicit Types (fs : filesystem) (p q : string).

Lemma follow_cases fuel fs p q :
  FS.follow fuel fs p = Some q ->
  q = p \/ exists t, names fs !! p = Some (Lnk t).
Proof.
  destruct fuel as [|k]; simpl; destruct (names fs !! p) as [[]|]; intros H;
    try (left; congruence); right; eauto.
Qed.

Lemma follow_not_link fuel fs p :
  (forall t, names fs !! p <> Some (Lnk t)) -> FS.follow fuel fs p = Some p.
Proof.
  intros H. destruct fuel; simpl; destruct (names fs !! p) as [[]|] eqn:Hp;
    try reflexivity; by destruct (H target).
Qed.

Lemma resolve_not_link fs p :
  (forall t, names fs !! p <> Some (Lnk t)) -> FS.resolve fs p = names fs !! p.
Proof.
  intros H. unfold FS.resolve, FS.final_path. by rewrite follow_not_link.
Qed.

Lemma resolve_reg fs p i :
  names fs !! p = Some (Reg i) -> FS.resolve fs p = Some (Reg i).
Proof. intros H. rewrite resolve_not_link; [done|]. intros t. by rewrite H. Qed.

Lemma resolve_none fs p : names fs !! p = None -> FS.resolve fs p = None.
Proof. intros H. rewrite resolve_not_link; [done|]. intros t. by rewrite H. Qed.

(** A path that passes [isfile] and is no link names a regular file. *)
Lemma isfile_not_link fs p :
  FS.isfile fs p = true -> FS.islink fs p = false ->
  exists i, names fs !! p = Some (Reg i).
Proof.
  unfold FS.isfile, FS.islink. intros Hf Hl.
  destruct (names fs !! p) as [[dev|i|t]|] eqn:Hp; try done.
  - rewrite resolve_not_link in Hf by (intros t; by rewrite Hp). by rewrite Hp in Hf.
  - eauto.
  - by rewrite (resolve_none _ _ Hp) in Hf.
Qed.

Lemma read_file_reg fs p i :
  names fs !! p = Some (Reg i) ->
  FS.read_file fs p =
  match inodes fs !! i with
  | Some ino => Ret (i_data ino)
  | None => Raise OSError
  end.
Proof. intros H. unfold FS.read_file. by rewrite (resolve_reg _ _ _ H). Qed.

Lemma stat_reg fs p i :
  names fs !! p = Some (Reg i) ->
  FS.stat fs p =
  match inodes fs !! i with
  | Some ino => Ret {| st_size := Z.of_nat (length (i_data ino)); st_dev := i_dev ino |}
  | None => Raise OSError
  end.
Proof. intros H. unfold FS.stat. by rewrite (resolve_reg _ _ _ H). Qed.

Lemma stat_size_nonneg fs p st : FS.stat fs p = Ret st -> 0 <= st_size st.
Proof.
  unfold FS.stat.
  destruct (FS.resolve fs p) as [[dev|i|t]|]; try done.
  - intros [= <-]. simpl. unfold FS.DIR_SIZE. lia.
  - destruct (inodes fs !! i); [|done]. intros [= <-]. simpl. lia.
Qed.

Lemma create_inv fs p data fs' :
  FS.create fs p data = Ret fs' ->
  exists dev,
    fs' = {| names := <[p := Reg (length (inodes fs))]> (names fs);
             inodes := inodes fs ++ [{| i_dev := dev; i_data := data |}];
             cwd_dev := cwd_dev fs |} /\
    Z.of_nat (length data) <= FS.MAX_FILE_SIZE.
Proof.
  unfold FS.create. destruct (FS.parent_dev fs p) as [dev|]; [|done].
  destruct (FS.MAX_FILE_SIZE <? Z.of_nat (length data)) eqn:Hsz; [done|].
  intros [= <-]. exists dev. split; [done|]. by apply Z.ltb_ge.
Qed.

(** [touch] of a path at which nothing exists makes one empty file, at
    the path or where a dangling link at the path points. *)
Lemma touch_inv fs p fs' :
  FS.exists_ fs p = false -> FS.touch fs p = Ret fs' ->
  exists q dev,
    names fs !! q = None /\
    (q = p \/ exists t, names fs !! p = Some (Lnk t)) /\
    fs' = {| names := <[q := Reg (length (inodes fs))]> (names fs);
             inodes := inodes fs ++ [{| i_dev := dev; i_data := [] |}];
             cwd_dev := cwd_dev fs |}.
Proof.
  unfold FS.exists_, FS.resolve, FS.touch, FS.final_path.
  destruct (FS.follow FS.SYMLOOP_MAX fs p) as [q|] eqn:Hq; [|done].
  destruct (names fs !! q) eqn:Hnq; [done|].
  intros _ Hc. apply create_inv in Hc as (dev & -> & _).
  exists q, dev. split; [done|]. split; [|done].
  by apply follow_cases in Hq.
Qed.

Lemma unlink_inv fs p fs' :
  FS.unlink fs p = Ret fs' -> fs' = FS.set_names fs (delete p (names fs)).
Proof.
  unfold FS.unlink. destruct (names fs !! p) as [[]|]; intros H; congruence.
Qed.

Lemma link_inv fs src dst fs' :
  FS.link fs src dst = Ret fs' ->
  exists n, names fs !! src = Some n /\ names fs !! dst = None /\
            fs' = FS.set_names fs (<[dst := n]> (names fs)).
Proof.
  unfold FS.link.
  destruct (names fs !! src) as [n|] eqn:Hs; [|done].
  destruct (names fs !! dst) eqn:Hd; [by destruct n|].
  destruct (FS.parent_dev fs dst); [|by destruct n].
  destruct (decide (FS.node_dev fs src n = Some n0)); [|by destruct n].
  destruct n; [done| |]; intros [= <-]; eauto.
Qed.

(** [copy2] onto a free name makes a new file with the bytes of the
    source. *)
Lemma copy2_free_inv fs src dst fs' i ino :
  names fs !! src = Some (Reg i) -> inodes fs !! i = Some ino ->
  names fs !! dst = None ->
  FS.copy2 fs src dst = Ret fs' ->
  exists dev,
    fs' = {| names := <[dst := Reg (length (inodes fs))]> (names fs);
             inodes := inodes fs ++ [{| i_dev := dev; i_data := i_data ino |}];
             cwd_dev := cwd_dev fs |}.
Proof.
  intros Hs Hi Hd. unfold FS.copy2, FS.isdir.
  rewrite (resolve_none _ _ Hd).
  rewrite (read_file_reg _ _ _ Hs), Hi.
  unfold FS.final_path.
  rewrite follow_not_link by (intros t; by rewrite Hd).
  rewrite Hd. intros Hc. apply create_inv in Hc as (dev & -> & _). eauto.
Qed.

(** [rmtree] keeps every name outside the tree, and every inode. *)
Lemma rmtree_lookup fs d p :
  FS.under d p = false ->
  names (FS.rmtree fs d) !! p = names fs !! p.
Proof.
  intros H. unfold FS.rmtree. simpl.
  destruct (names fs !! p) as [n|] eqn:Hp.
  - by apply map_lookup_filter_Some_2.
  - apply map_lookup_filter_None. by left.
Qed.

Lemma rmtree_inodes fs d : inodes (FS.rmtree fs d) = inodes fs.
Proof. reflexivity. Qed.

Lemma mkdtemp_inv cands fs d fs' :
  FS.mkdtemp cands fs = Ret (d, fs') ->
  exists dev, In d cands /\ names fs !! d = None /\
              fs' = FS.set_names fs (<[d := Dir dev]> (names fs)).
Proof.
  induction cands as [|c cs IH]; simpl; [done|].
  destruct (names fs !! c) eqn:Hc.
  - intros H. destruct (IH H) as (dev & ? & ? & ?). eauto 6.
  - destruct (FS.parent_dev fs c) as [dev|]; [|done].
    intros [= <- <-]. eauto 6.
Qed.

Lemma last_app_nonempty {A} (l1 l2 : list A) (d : A) :
  l2 <> [] -> List.last (l1 ++ l2) d = List.last l2 d.
Proof.
  intros Hne. induction l1 as [|x l1 IH]; [done|].
  simpl. rewrite IH. destruct (l1 ++ l2) eqn:Happ; [|done].
  apply app_eq_nil in Happ as [_ ->]. done.
Qed.

Lemma fits_int64_size (z : Z) :
  0 <= z <= FS.MAX_FILE_SIZE -> fits_int64 z = true.
Proof.
  unfold FS.MAX_FILE_SIZE, fits_int64. intros H.
  apply andb_true_iff. split; [apply Z.leb_le | apply Z.ltb_lt]; lia.
Qed.

End FsFacts.

(** ** What [copy_file] leaves behind *)

Section Places.

Lemma holds_read fs p data : holds fs p data -> FS.read_file fs p = Ret data.
Proof.
  intros (i & ino & Hp & Hi & <-). by rewrite (read_file_reg _ _ _ Hp), Hi.
Qed.

Lemma holds_stat fs p data :
  holds fs p data ->
  exists st, FS.stat fs p = Ret st /\ st_size st = Z.of_nat (length data).
Proof.
  intros (i & ino & Hp & Hi & <-). rewrite (stat_reg _ _ _ Hp), Hi. eauto.
Qed.

Lemma holds_intro fs p data :
  FS.isfile fs p = true -> negb (FS.islink fs p) = true ->
  FS.read_file fs p = Ret data -> holds fs p data.
Proof.
  intros Hf Hl Hr. apply negb_true_iff in Hl.
  destruct (isfile_not_link _ _ Hf Hl) as [i Hi].
  rewrite (read_file_reg _ _ _ Hi) in Hr.
  destruct (inodes fs !! i) as [ino|] eqn:Hino; [|done].
  injection Hr as <-. by exists i, ino.
Qed.

(** When [copy_file] returns, the destination holds the bytes of the
    source, the source is as before, and nothing but the file system has
    changed. *)
Lemma copy_file_places (src dst : string) (w w' : world) (data : list byte) :
  copy_file src dst w = (Ret tt, w') ->
  holds (w_fs w) src data ->
  holds (w_fs w') src data /\ holds (w_fs w') dst data /\ same_but_fs w w'.
Proof.
  intros Hrun (i & ino & Hs & Hi & Hd).
  cut (wp (copy_file src dst)
         (fun r w' => r = Ret tt ->
            holds (w_fs w') src data /\ holds (w_fs w') dst data /\ same_but_fs w w') w).
  { intros Hwp. by apply (wp_outcome _ _ _ _ _ Hwp Hrun). }
  unfold copy_file, path_exists, files_on_same_fs, os_stat.
  wp_steps; try discriminate.
  all: intros _; simpl in *.
  all: destruct (touch_inv _ _ _ Hif Hfs) as (q & dev & Hq & Hcase & ->).
  all: apply unlink_inv in Hfs0 as ->; simpl in *.
  all: assert (Hsq : q <> src) by (intros ->; congruence).
  all: assert (Hsd : dst <> src)
         by (intros ->; unfold FS.exists_ in Hif;
             by rewrite (resolve_reg _ _ _ Hs) in Hif).
  all: assert (Hs0 : delete dst (<[q := Reg (length (inodes (w_fs w)))]> (names (w_fs w)))
                     !! src = Some (Reg i))
         by (by rewrite lookup_delete_ne, lookup_insert_ne).
  all: assert (Hi0 : (inodes (w_fs w) ++ [{| i_dev := dev; i_data := [] |}]) !! i
                     = Some ino)
         by (by apply lookup_app_l_Some).
  - apply link_inv in Hfs1 as (n & Hn & _ & ->). simpl in *.
    rewrite Hs0 in Hn. injection Hn as <-.
    split; [|split].
    + exists i, ino. simpl. by rewrite lookup_insert_ne.
    + exists i, ino. simpl. by rewrite lookup_insert_eq.
    + by unfold same_but_fs.
  - eapply copy2_free_inv in Hfs1 as (dev' & ->);
      [ | exact Hs0 | exact Hi0 | simpl; apply lookup_delete_eq ].
    simpl. split; [|split].
    + exists i, ino. simpl. rewrite lookup_insert_ne by done.
      split; [done|]. split; [by apply lookup_app_l_Some | done].
    + exists (length (inodes (w_fs w) ++ [{| i_dev := dev; i_data := [] |}])),
        {| i_dev := dev'; i_data := i_data ino |}.
      simpl. rewrite lookup_insert_eq. split; [done|].
      split; [|exact Hd].
      rewrite lookup_app_r by done. by rewrite Nat.sub_diag.
    + by unfold same_but_fs.
Qed.

(** A new directory at a free name and the removal of a tree elsewhere
    leave a file as it is. *)
Lemma holds_mkdir fs p data d dev :
  holds fs p data -> names fs !! d = None ->
  holds (FS.set_names fs (<[d := Dir dev]> (names fs))) p data.
Proof.
  intros (i & ino & Hp & Hi & Hd) Hfree. exists i, ino. simpl.
  rewrite lookup_insert_ne by congruence. done.
Qed.

Lemma holds_rmtree fs p data d :
  holds fs p data -> FS.under d p = false -> holds (FS.rmtree fs d) p data.
Proof.
  intros (i & ino & Hp & Hi & Hd) Hu. exists i, ino.
  by rewrite rmtree_lookup.
Qed.

(** Whatever its outcome, [copy_file] changes nothing but the file
    system. *)
Lemma copy_file_frame (src dst : string) (w w' : world) (r : res unit) :
  copy_file src dst w = (r, w') -> same_but_fs w w'.
Proof.
  intros Hrun.
  cut (wp (copy_file src dst) (fun _ w' => same_but_fs w w') w).
  { intros Hwp. exact (wp_outcome _ _ _ _ _ Hwp Hrun). }
  unfold copy_file, path_exists, files_on_same_fs, os_stat.
  wp_steps; by unfold same_but_fs.
Qed.

End Places.

(** ** Probing *)

Section Probing.

Context (E : env).

Lemma probe_cached (f : string) (w : world) (t : probe_tuple) :
  w_probes w !! f = Some t -> Probe_probe E f w = (Ret t, w).
Proof.
  intros H. unfold Probe_probe. unfold bind at 1. unfold gets. cbv beta.
  unfold probe_tuple in *. by rewrite H.
Qed.

Lemma probe_step_refl (w : world) : probe_step w w.
Proof. unfold probe_step. auto. Qed.

Lemma probe_inv (f : string) (w w1 : world) (r : res probe_tuple) :
  Probe_probe E f w = (r, w1) ->
  probe_step w w1 /\ (forall t, r = Ret t -> w_probes w1 !! f = Some t).
Proof.
  intros Hrun.
  cut (wp (Probe_probe E f)
         (fun r w1 => probe_step w w1 /\
                      (forall t, r = Ret t -> w_probes w1 !! f = Some t)) w).
  { intros Hwp. exact (wp_outcome _ _ _ _ _ Hwp Hrun). }
  clear Hrun. unfold Probe_probe.
  wp_steps.
  all: try (split; [apply probe_step_refl | by intros ? [= <-]]).
  all: unfold ffprobe_tool in Hrun;
       destruct (ext_ffprobe E (w_fs w) _) eqn:Hext; simplify_eq.
  all: try (split; [ | (by intros ? [=]) || (intros ? [= <-]; simpl; apply lookup_insert_eq) ]).
  all: unfold probe_step; simpl; eauto 10.
Qed.

(** [Probe.isvideo] as an equation on the run of [Probe.probe]. *)
Lemma isvideo_run (f : string) (w : world) :
  Probe_isvideo E f w =
  match Probe_probe E f w with
  | (Ret _, w1) => (Ret true, w1)
  | (Raise ErrorCalled, w1) => (Ret false, w1)
  | (Raise e, w1) => (Raise e, w1)
  end.
Proof.
  unfold Probe_isvideo, catch, bind, ret.
  destruct (Probe_probe E f w) as [[t|e] w1]; [done|].
  by destruct e.
Qed.

Lemma wp_Probe_isvideo (f : string) (Q : res bool -> world -> Prop) (w : world) :
  (forall t w1, Probe_probe E f w = (Ret t, w1) -> probe_step w w1 ->
                w_probes w1 !! f = Some t -> Q (Ret true) w1) ->
  (forall w1, probe_step w w1 -> Q (Ret false) w1) ->
  (forall e w1, probe_step w w1 -> Q (Raise e) w1) ->
  wp (Probe_isvideo E f) Q w.
Proof.
  intros H1 H2 H3. unfold wp. rewrite isvideo_run.
  destruct (Probe_probe E f w) as [[t|e] w1] eqn:Hp;
    destruct (probe_inv _ _ _ _ Hp) as [Hs Hc].
  - simpl. eauto.
  - destruct e; simpl; eauto.
Qed.

Lemma wp_Probe_codec (f : string) (t : probe_tuple) (Q : res string -> world -> Prop)
    (w : world) :
  w_probes w !! f = Some t -> Q (Ret t.1.1) w -> wp (Probe_codec E f) Q w.
Proof.
  intros Hc HQ. unfold wp, Probe_codec, bind. by rewrite (probe_cached _ _ _ Hc).
Qed.

Lemma wp_Probe_acodec (f : string) (t : probe_tuple)
    (Q : res (option string) -> world -> Prop) (w : world) :
  w_probes w !! f = Some t -> Q (Ret t.1.2) w -> wp (Probe_acodec E f) Q w.
Proof.
  intros Hc HQ. unfold wp, Probe_acodec, bind. by rewrite (probe_cached _ _ _ Hc).
Qed.

End Probing.

(** ** Running [reencode] symbolically *)

Section Exec.

Context (E : env).

(** When ffmpeg returns, its output is a new file at the target, of a
    size that fits, and no other name or inode has changed. *)
Lemma ffmpeg_tool_inv (fs fs2 : filesystem) (cmd : list string) (out : string) :
  ffmpeg_tool E fs cmd = Some (out, fs2) ->
  exists data dev,
    names fs !! List.last cmd EmptyString = None /\
    Z.of_nat (length data) <= FS.MAX_FILE_SIZE /\
    fs2 = {| names := <[List.last cmd EmptyString := Reg (length (inodes fs))]> (names fs);
             inodes := inodes fs ++ [{| i_dev := dev; i_data := data |}];
             cwd_dev := cwd_dev fs |}.
Proof.
  unfold ffmpeg_tool.
  destruct (ext_ffmpeg E fs cmd) as [[o data]|]; [|done].
  destruct (names fs !! List.last cmd EmptyString) eqn:Hfree; [done|].
  destruct (FS.create fs (List.last cmd EmptyString) data) as [fs'|] eqn:Hc; [|done].
  intros [= <- <-]. apply create_inv in Hc as (dev & -> & Hsz). eauto 6.
Qed.

(** The encoding phase: in a scratch directory made at a free name, a
    returning ffmpeg leaves the input as [stat] saw it before, and its
    output can be measured. *)
Lemma encode_phase (fs fs2 : filesystem) (d target in_file out : string) (dev : N)
    (cmd : list string) (a : stat_result) :
  FS.isfile fs in_file = true ->
  negb (FS.islink fs in_file) = true ->
  FS.stat fs in_file = Ret a ->
  names fs !! d = None ->
  List.last cmd EmptyString = target ->
  ffmpeg_tool E (FS.set_names fs (<[d := Dir dev]> (names fs))) cmd = Some (out, fs2) ->
  FS.stat fs2 in_file = Ret a /\
  exists a0, FS.stat fs2 target = Ret a0 /\ 0 <= st_size a0 <= FS.MAX_FILE_SIZE.
Proof.
  intros Hf Hl Hst Hfree Hlast Htool.
  apply negb_true_iff in Hl.
  destruct (isfile_not_link _ _ Hf Hl) as [i Hi].
  apply ffmpeg_tool_inv in Htool as (data & dv & Htfree & Hsz & ->).
  rewrite Hlast in *. simpl in *.
  assert (Hd : d <> in_file) by congruence.
  assert (Ht : target <> in_file).
  { intros ->. rewrite lookup_insert_ne in Htfree by done. congruence. }
  rewrite (stat_reg _ _ _ Hi) in Hst.
  destruct (inodes fs !! i) as [ino|] eqn:Hino; [|done].
  split.
  - rewrite (stat_reg _ _ i).
    + simpl. by rewrite (lookup_app_l_Some _ _ _ _ Hino).
    + simpl. by rewrite !lookup_insert_ne.
  - eexists. rewrite (stat_reg _ _ (length (inodes fs))).
    + simpl. rewrite lookup_app_r by done. rewrite Nat.sub_diag. simpl.
      split; [reflexivity|]. simpl. lia.
    + simpl. by rewrite lookup_insert_eq.
Qed.

(** In the world in which [reencode] consults the ledger, [hash_file]
    yields for the input what it would have yielded at the start. *)
Lemma hash_of_scratch (w w0 : world) (in_file tmp_dir : string) (dev : N) :
  FS.isfile (w_fs w) in_file = true ->
  negb (FS.islink (w_fs w) in_file) = true ->
  w_fs w0 = w_fs w -> w_hashes w0 = w_hashes w ->
  names (w_fs w0) !! tmp_dir = None ->
  hash_of E
    (set_fs (FS.set_names (w_fs w0) (<[tmp_dir := Dir dev]> (names (w_fs w0))))
       (log_event SqlCreateTable (set_ledger (Some (ledger_rows w0)) w0)))
    in_file
  = hash_of E w in_file.
Proof.
  intros Hf Hl Hfs Hhs Hfree.
  unfold hash_of. simpl. rewrite Hhs.
  destruct (w_hashes w !! in_file); [done|].
  apply negb_true_iff in Hl.
  destruct (isfile_not_link _ _ Hf Hl) as [i Hi].
  rewrite (read_file_reg _ _ _ Hi), (read_file_reg _ _ i).
  - simpl. by rewrite Hfs.
  - simpl. rewrite Hfs in *. rewrite lookup_insert_ne by congruence. done.
Qed.

Lemma wp_check (f : string) (crf : Z) (preset : string)
    (Q : res (option Z) -> world -> Prop) (w : world) :
  (forall e, hash_of E w f = Raise e -> Q (Raise e) w) ->
  (forall h, hash_of E w f = Ret h -> fits_int64 crf = false ->
             Q (Raise OverflowError) (with_hash f h w)) ->
  (forall h, hash_of E w f = Ret h -> fits_int64 crf = true ->
             w_ledger w = None ->
             Q (Raise OperationalError)
               (log_event (SqlSelect h crf preset) (with_hash f h w))) ->
  (forall h rows, hash_of E w f = Ret h -> fits_int64 crf = true ->
                  w_ledger w = Some rows ->
                  Q (Ret (select_output_bytes rows h crf preset))
                    (log_event (SqlSelect h crf preset) (with_hash f h w))) ->
  wp (BadEncodingDatabase_check E f crf preset) Q w.
Proof.
  intros H1 H2 H3 H4. unfold wp. rewrite check_run.
  destruct (hash_of E w f) as [h|e]; [|by apply H1].
  destruct (fits_int64 crf) eqn:Hc; [|by apply H2].
  destruct (w_ledger w) as [rows|] eqn:Hl; [by apply H4 | by apply H3].
Qed.

Lemma wp_insert (f : string) (crf : Z) (preset : string) (v : Z)
    (Q : res unit -> world -> Prop) (w : world) :
  (forall e, hash_of E w f = Raise e -> Q (Raise e) w) ->
  (forall h, hash_of E w f = Ret h -> fits_int64 crf && fits_int64 v = false ->
             Q (Raise OverflowError) (with_hash f h w)) ->
  (forall h, hash_of E w f = Ret h -> w_ledger w = None ->
             Q (Raise OperationalError)
               (log_event (SqlInsert h crf preset v) (with_hash f h w))) ->
  (forall h rows, hash_of E w f = Ret h -> w_ledger w = Some rows ->
                  existsb (key_matches h crf preset) rows = true ->
                  Q (Raise IntegrityError)
                    (log_event (SqlInsert h crf preset v) (with_hash f h w))) ->
  (forall h rows, hash_of E w f = Ret h ->
                  fits_int64 crf && fits_int64 v = true ->
                  w_ledger w = Some rows ->
                  existsb (key_matches h crf preset) rows = false ->
                  Q (Ret tt)
                    (set_ledger
                       (Some (rows ++ [ {| r_hash := h; r_crf := crf;
                                           r_preset := preset;
                                           r_output_bytes := v |} ]))
                       (log_event (SqlInsert h crf preset v) (with_hash f h w)))) ->
  wp (BadEncodingDatabase_insert E f crf preset v) Q w.
Proof.
  intros H1 H2 H3 H4 H5. unfold wp. rewrite insert_run.
  destruct (hash_of E w f) as [h|e]; [|by apply H1].
  destruct (fits_int64 crf && fits_int64 v) eqn:Hc; [|by apply H2].
  cbv zeta.
  destruct (w_ledger w) as [rows|] eqn:Hl; [|by apply H3].
  destruct (existsb (key_matches h crf preset) rows) eqn:Hex;
    [by eapply H4 | by apply H5].
Qed.

Lemma wp_mkdtemp (Q : res string -> world -> Prop) (w : world) :
  (forall d dev, In d (tmp_candidates E) -> names (w_fs w) !! d = None ->
     Q (Ret d) (set_fs (FS.set_names (w_fs w) (<[d := Dir dev]> (names (w_fs w)))) w)) ->
  (forall e, Q (Raise e) w) ->
  wp (mkdtemp E) Q w.
Proof.
  intros H1 H2. unfold wp, mkdtemp.
  destruct (FS.mkdtemp (tmp_candidates E) (w_fs w)) as [[d fs']|e] eqn:Hm; [|apply H2].
  apply mkdtemp_inv in Hm as (dev & Hin & Hfree & ->). by apply H1.
Qed.

Lemma wp_init_db (Q : res unit -> world -> Prop) (w : world) :
  Q (Ret tt) (log_event SqlCreateTable (set_ledger (Some (ledger_rows w)) w)) ->
  wp (BadEncodingDatabase_init_db) Q w.
Proof. done. Qed.

End Exec.

(** One step of the symbolic execution of [reencode]. *)
Ltac exec_step :=
  first
    [ wp_step
    | lazymatch goal with
      | |- wp (Probe_isvideo _ _) _ _ =>
          apply wp_Probe_isvideo;
          [ let t := fresh "t" in let w1 := fresh "w" in
            let Hp := fresh "Hprobe" in let Hs := fresh "Hstep" in
            let Hc := fresh "Hcached" in
            intros t w1 Hp Hs Hc
          | let w1 := fresh "w" in let Hs := fresh "Hstep" in intros w1 Hs
          | let e := fresh "e" in let w1 := fresh "w" in
            let Hs := fresh "Hstep" in intros e w1 Hs ]
      | |- wp (Probe_codec _ _) _ _ => eapply wp_Probe_codec; [eassumption|]
      | |- wp (Probe_acodec _ _) _ _ => eapply wp_Probe_acodec; [eassumption|]
      | |- wp BadEncodingDatabase_init_db _ _ => apply wp_init_db
      | |- wp (mkdtemp _) _ _ =>
          apply wp_mkdtemp;
          [ let d := fresh "tmp_dir" in let dev := fresh "dev" in
            let Hin := fresh "Htmp" in let Hfree := fresh "Hfree" in
            intros d dev Hin Hfree
          | let e := fresh "e" in intros e ]
      | |- wp (BadEncodingDatabase_check _ _ _ _) _ _ =>
          apply wp_check;
          [ let e := fresh "e" in let H := fresh "Hhash" in intros e H
          | let h := fresh "h" in let H := fresh "Hhash" in
            let Hf := fresh "Hfits" in intros h H Hf
          | let h := fresh "h" in let H := fresh "Hhash" in
            let Hf := fresh "Hfits" in let Hl := fresh "Hledger" in
            intros h H Hf Hl
          | let h := fresh "h" in let rows := fresh "rows" in
            let H := fresh "Hhash" in let Hf := fresh "Hfits" in
            let Hl := fresh "Hledger" in intros h rows H Hf Hl ]
      | |- wp (BadEncodingDatabase_insert _ _ _ _ _) _ _ =>
          apply wp_insert;
          [ let e := fresh "e" in let H := fresh "Hhash'" in intros e H
          | let h := fresh "h" in let H := fresh "Hhash'" in
            let Hf := fresh "Hfits'" in intros h H Hf
          | let h := fresh "h" in let H := fresh "Hhash'" in
            let Hl := fresh "Hledger'" in intros h H Hl
          | let h := fresh "h" in let rows := fresh "rows" in
            let H := fresh "Hhash'" in let Hl := fresh "Hledger'" in
            let Hx := fresh "Hdup" in intros h rows H Hl Hx
          | let h := fresh "h" in let rows := fresh "rows" in
            let H := fresh "Hhash'" in let Hf := fresh "Hfits'" in
            let Hl := fresh "Hledger'" in let Hx := fresh "Hnew" in
            intros h rows H Hf Hl Hx ]
      | |- wp (copy_file _ _) _ _ =>
          apply wp_any;
          let r := fresh "r" in let w1 := fresh "w" in let H := fresh "Hcopy" in
          let Hl := fresh "Hcl" in let Hh := fresh "Hch" in
          let Hp := fresh "Hcp" in let Ht := fresh "Hct" in
          intros [[]|r] w1 H;
          destruct (copy_file_frame _ _ _ _ _ H) as (Hl & Hh & Hp & Ht)
      end;
      cbn beta iota;
      cbn [w_fs w_ledger w_hashes w_probes w_trace with_hash
           set_fs set_ledger set_hashes set_probes log_event] in * ].

Ltac exec_reencode :=
  unfold reencode, path_isfile, path_islink, path_exists,
    with_BadEncodingDatabase, with_TemporaryDirectory, ffmpeg,
    file_size_percent, file_size, os_stat, truediv, py_round1;
  repeat exec_step.

Lemma events_nil (t : list event) : t = [] ++ t.
Proof. reflexivity. Qed.

Lemma events_cons (x : event) (l evs t : list event) :
  l = evs ++ t -> x :: l = (x :: evs) ++ t.
Proof. by intros ->. Qed.

(** Splits a trace into the new events and the old ones. *)
Ltac split_trace := repeat first [ apply events_nil | apply events_cons ].

Ltac find_encoder_run :=
  first [ apply Exists_cons_hd; reflexivity
        | apply Exists_cons_tl; find_encoder_run ].

(** Brings what is known of the probing into the goal's worlds. *)
Ltac use_probe_step :=
  lazymatch goal with
  | H : probe_step _ _ |- _ =>
      let Hfs := fresh "Hfs" in let Hl := fresh "Hl" in
      let Hh := fresh "Hh" in let Htr := fresh "Htr" in let cmd := fresh "cmd" in
      destruct H as (Hfs & Hl & Hh & [Htr | [cmd Htr]])
  | _ => idtac
  end.

(** Rewrites the fields of the worlds of a leaf to those of the first
    world. *)
Ltac norm_world :=
  repeat (progress
            (unfold ledger_rows; simpl;
             repeat match goal with
                    | H : w_ledger ?x = _ |- context [w_ledger ?x] => rewrite H
                    | H : w_hashes ?x = _ |- context [w_hashes ?x] => rewrite H
                    | H : w_trace ?x = _ |- context [w_trace ?x] => rewrite H
                    end)).

(** The same, in a hypothesis. *)
Ltac norm_in H :=
  unfold ledger_rows in H; simpl in H;
  repeat match goal with
         | E : w_ledger ?x = _ |- _ =>
             lazymatch type of H with
             | context [w_ledger x] => rewrite E in H
             end
         | E : w_hashes ?x = _ |- _ =>
             lazymatch type of H with
             | context [w_hashes x] => rewrite E in H
             end
         | E : w_fs ?x = _ |- _ =>
             lazymatch type of H with
             | context [w_fs x] => rewrite E in H
             end
         end.

Section Orchestrator.

Context (E : env).

(** C7. With [force] set, [reencode] leaves the rows of the ledger and
    the memo table of [hash_file] as they are, executes no SELECT and no
    INSERT, and returns a path only after it has run the encoder: it takes
    neither the already-target-format shortcut nor the ledger shortcut. *)
Theorem reencode_force_bypasses_ledger (w w' : world) (in_file out_file : string)
    (crf : Z) (preset : string) (extra_args : list string) (dont_copy : bool)
    (r : res (option string)) :
  reencode E in_file out_file crf preset true extra_args dont_copy w = (r, w') ->
  ledger_rows w' = ledger_rows w /\
  w_hashes w' = w_hashes w /\
  exists evs,
    events_between w w' evs /\
    Forall (fun e => ~ is_ledger_access e) evs /\
    (forall res, r = Ret res ->
       res = Some (mp4_path out_file) /\ Exists is_encoder_run evs).
Proof.
  intros Hrun.
  cut (wp (reencode E in_file out_file crf preset true extra_args dont_copy)
         (fun r w' =>
            ledger_rows w' = ledger_rows w /\
            w_hashes w' = w_hashes w /\
            exists evs,
              events_between w w' evs /\
              Forall (fun e => ~ is_ledger_access e) evs /\
              (forall res, r = Ret res ->
                 res = Some (mp4_path out_file) /\ Exists is_encoder_run evs)) w).
  { intros Hwp. exact (wp_outcome _ _ _ _ _ Hwp Hrun). }
  clear Hrun r w'.
  exec_reencode.
  all: try match goal with
           | H : context [negb true] |- _ => simpl in H; discriminate H
           end.
  all: use_probe_step.
  all: unfold events_between; norm_world.
  all: split; [by destruct (w_ledger w)|]; split; [reflexivity|].
  all: eexists; split; [split_trace|].
  all: split; [repeat constructor; simpl; tauto|].
  all: intros res Hres; try discriminate Hres.
  all: injection Hres as <-; split; [reflexivity | find_encoder_run].
Qed.

(** C3. When the probe of the input reports the video codec hevc and the
    audio codec aac or no audio, [reencode] without [force] runs no
    encoder; when it returns, it returns no path and leaves the file system
    alone if [dont_copy] is set, and otherwise returns the output path,
    which then holds the bytes of the input, the input being as before. *)
Theorem reencode_target_format_runs_no_encoder (w w' : world)
    (in_file out_file : string) (crf : Z) (preset : string)
    (extra_args : list string) (dont_copy : bool)
    (acodec : option string) (duration : string) (r : res (option string)) :
  (Probe_probe E in_file w).1 = Ret ("hevc", acodec, duration) ->
  acodec = Some "aac" \/ acodec = None ->
  reencode E in_file out_file crf preset false extra_args dont_copy w = (r, w') ->
  (exists evs, events_between w w' evs /\ Forall (fun e => ~ is_encoder_run e) evs) /\
  (forall res, r = Ret res ->
     if dont_copy then res = None /\ w_fs w' = w_fs w
     else res = Some (mp4_path out_file) /\
          forall data, FS.read_file (w_fs w) in_file = Ret data ->
            FS.read_file (w_fs w') in_file = Ret data /\
            FS.read_file (w_fs w') (mp4_path out_file) = Ret data).
Proof.
  intros Hp Ha Hrun.
  cut (wp (reencode E in_file out_file crf preset false extra_args dont_copy)
         (fun r w' =>
            (exists evs, events_between w w' evs /\
                         Forall (fun e => ~ is_encoder_run e) evs) /\
            (forall res, r = Ret res ->
               if dont_copy then res = None /\ w_fs w' = w_fs w
               else res = Some (mp4_path out_file) /\
                    forall data, FS.read_file (w_fs w) in_file = Ret data ->
                      FS.read_file (w_fs w') in_file = Ret data /\
                      FS.read_file (w_fs w') (mp4_path out_file) = Ret data)) w).
  { intros Hwp. exact (wp_outcome _ _ _ _ _ Hwp Hrun). }
  clear Hrun r w'.
  exec_reencode.
  all: try (rewrite Hprobe in Hp; simpl in Hp; injection Hp as ->).
  all: try (exfalso; destruct Ha as [-> | ->]; simpl in Hif; discriminate Hif).
  all: use_probe_step.
  all: (split;
        [ unfold events_between; norm_world; eexists; split; [split_trace|];
          repeat constructor; simpl; try tauto; intros ?; discriminate
        | intros res Hres; try discriminate Hres; injection Hres as <- ]).
  all: cbv iota.
  all: try (split; [reflexivity | assumption]).
  all: split; [reflexivity|]; intros data Hread.
  all: match goal with
       | Hc : copy_file _ _ _ = _ |- _ =>
           apply copy_file_places with (data := data) in Hc as (Hin & Hout & _);
           [ split; by apply holds_read
           | apply holds_intro; by rewrite ?Hfs ]
       end.
Qed.

(** In the world in which [reencode] consults the ledger (the table
    created if need be, the scratch directory made), the lookup for an
    input whose key is stored in a valid ledger is a hit. *)
Lemma ledger_hit_truthy (w w0 : world) (entry : row) (in_file tmp_dir : string)
    (dev : N) (h : list byte) :
  ledger_valid w -> In entry (ledger_rows w) ->
  hash_of E w in_file = Ret (r_hash entry) ->
  FS.isfile (w_fs w) in_file = true ->
  negb (FS.islink (w_fs w) in_file) = true ->
  w_fs w0 = w_fs w -> w_ledger w0 = w_ledger w -> w_hashes w0 = w_hashes w ->
  names (w_fs w0) !! tmp_dir = None ->
  hash_of E
    (set_fs (FS.set_names (w_fs w0) (<[tmp_dir := Dir dev]> (names (w_fs w0))))
       (log_event SqlCreateTable (set_ledger (Some (ledger_rows w0)) w0)))
    in_file = Ret h ->
  truthy (select_output_bytes (ledger_rows w0) h (r_crf entry) (r_preset entry))
  = true.
Proof.
  intros [Hnd Hall] Hin Hh Hf Hl Hfs Hled Hhs Hfree Hh'.
  assert (Heq : h = r_hash entry).
  { unfold hash_of in *. simpl in Hh'. rewrite Hhs in Hh'.
    destruct (w_hashes w !! in_file); [congruence|].
    apply negb_true_iff in Hl.
    destruct (isfile_not_link _ _ Hf Hl) as [i Hi].
    rewrite (read_file_reg _ _ _ Hi) in Hh.
    rewrite (read_file_reg _ _ i) in Hh'.
    - simpl in Hh'. rewrite Hfs in Hh'. congruence.
    - simpl. rewrite Hfs in *. rewrite lookup_insert_ne by congruence. done. }
  subst h. unfold ledger_rows in *. rewrite Hled.
  rewrite (select_in _ _ Hnd Hin). simpl.
  apply List.Forall_forall with (x := entry) in Hall; [|done].
  destruct Hall as (_ & _ & Hpos).
  apply negb_true_iff, Z.eqb_neq. lia.
Qed.


Lemma file_size_percent_run (w : world) (f1 f2 : string) (st1 st2 : stat_result) :
  FS.stat (w_fs w) f1 = Ret st1 -> FS.stat (w_fs w) f2 = Ret st2 ->
  file_size_percent f1 f2 w = (percent_of (st_size st1) (st_size st2), w).
Proof.
  intros H1 H2.
  unfold file_size_percent, file_size, os_stat, truediv, py_round1, percent_of,
    bind, fs_read, ret, raise.
  rewrite H1, H2.
  destruct (st_size st2 =? 0); [done|].
  destruct (Float.round_to_double (100 * st_size st1) (st_size st2)); [|done].
  by destruct (Float.round1 f).
Qed.

(** Names the new events of a leaf: from [l = evs ++ t] with [l] a list
    that ends in [t], [evs] is the front of [l]. *)
Ltac name_events H :=
  lazymatch type of H with
  | ?l = ?evs ++ ?t =>
      let pre := fresh "pre" in
      let Hpre := fresh "Hpre" in
      evar (pre : list event);
      assert (Hpre : l = pre ++ t) by (subst pre; split_trace);
      subst pre;
      rewrite Hpre in H; apply app_inv_tail in H; clear Hpre; subst evs
  end.

(** C2. The percentage is [100 * s1 / s2] on the sizes of the two files,
    rounded to one decimal; for an output of 1,050,000 bytes and an input
    of 1,000,000 bytes it is 105.0, which is at least 100; and whenever a
    run of [reencode] without [force], from a valid ledger, reports a
    percentage of at least 100, it ends in the error of [Log.error], having
    appended to the ledger the row of the input's digest, the crf, the
    preset and the measured output size. *)
Theorem size_regression_is_recorded :
  (forall w f1 f2 st1 st2,
     FS.stat (w_fs w) f1 = Ret st1 -> FS.stat (w_fs w) f2 = Ret st2 ->
     file_size_percent f1 f2 w = (percent_of (st_size st1) (st_size st2), w)) /\
  (forall s1 s2 percent,
     percent_of s1 s2 = Ret percent ->
     exists pct k,
       Float.round_to_double (100 * s1) s2 = Some pct /\
       Float.round_to_double k 10 = Some percent /\
       (0 < Float.f_exp pct -> k = 10 * Float.f_mant pct * 2 ^ Float.f_exp pct) /\
       (Float.f_exp pct <= 0 ->
        2 * Z.abs (10 * Float.f_mant pct - k * 2 ^ (- Float.f_exp pct))
        <= 2 ^ (- Float.f_exp pct))) /\
  (exists x, Float.of_Z 105 = Some x /\
             percent_of 1050000 1000000 = Ret x /\
             Float.ge_int x 100 = true) /\
  (forall w w' in_file out_file crf preset extra_args dont_copy r
          evs percent in_size out_size,
     ledger_valid w ->
     reencode E in_file out_file crf preset false extra_args dont_copy w = (r, w') ->
     events_between w w' evs ->
     In (LogOutput percent in_size out_size) evs ->
     Float.ge_int percent 100 = true ->
     r = Raise ErrorCalled /\
     percent_of out_size in_size = Ret percent /\
     exists h,
       hash_of E w in_file = Ret h /\
       w_ledger w' =
       Some (ledger_rows w ++
             [ {| r_hash := h; r_crf := crf; r_preset := preset;
                  r_output_bytes := out_size |} ])).
Proof.
  split; [exact file_size_percent_run|]. split; [|split].
  - intros s1 s2 percent. unfold percent_of.
    destruct (s2 =? 0); [done|].
    destruct (Float.round_to_double (100 * s1) s2) as [pct|] eqn:Hpct; [|done].
    destruct (Float.round1 pct) as [y|] eqn:Hy; [|done].
    intros [= ->]. destruct (round1_one_decimal _ _ Hy) as (k & Hk & H1 & H2).
    exists pct, k. auto.
  - eexists. repeat split; vm_compute; reflexivity.
  - intros w w' in_file out_file crf preset extra_args dont_copy r
      evs percent in_size out_size Hvalid Hrun.
    cut (wp (reencode E in_file out_file crf preset false extra_args dont_copy)
           (fun r w' =>
              events_between w w' evs ->
              In (LogOutput percent in_size out_size) evs ->
              Float.ge_int percent 100 = true ->
              r = Raise ErrorCalled /\
              percent_of out_size in_size = Ret percent /\
              exists h,
                hash_of E w in_file = Ret h /\
                w_ledger w' =
                Some (ledger_rows w ++
                      [ {| r_hash := h; r_crf := crf; r_preset := preset;
                           r_output_bytes := out_size |} ])) w).
    { intros Hwp. exact (wp_outcome _ _ _ _ _ Hwp Hrun). }
    clear Hrun r w'.
    exec_reencode.
    all: use_probe_step.
    all: unfold events_between; norm_world; intros Hev Hin Hge.
    all: name_events Hev.
    all: simpl in Hin.
    all: repeat (destruct Hin as [Hin|Hin]; [try discriminate Hin|]); try done.
    all: injection Hin as <- <- <-.
    all: try (simpl in Hif2; congruence).
    all: rewrite <- Hfs in Hc, Hc0.
    all: match type of Hrun with
         | ffmpeg_tool _ _ ?cmd = _ =>
             eassert (Hlast : List.last cmd EmptyString = _)
               by (rewrite app_assoc, last_app_nonempty by discriminate;
                   cbn [List.last]; reflexivity)
         end.
    all: destruct (encode_phase _ _ _ _ _ _ _ _ _ _ Hc Hc0 Hm Hfree Hlast Hrun)
           as (Hst_in & a0' & Hst_out & Hbound).
    all: rewrite Hst_in in Hm1; injection Hm1 as <-.
    all: rewrite Hst_out in Hm0; injection Hm0 as ->.
    all: unfold hash_of in Hhash'; simpl in Hhash';
         rewrite lookup_insert_eq in Hhash'; try discriminate Hhash';
         injection Hhash' as <-.
    all: try (rewrite Hfits, (fits_int64_size _ Hbound) in Hfits';
              discriminate Hfits').
    all: repeat match goal with
                | Hr : Some (ledger_rows _) = Some _ |- _ => injection Hr as <-
                end.
    all: destruct Hvalid as [Hnd Hall].
    all: unfold ledger_rows in *; rewrite Hl in *.
    all: try (apply valid_truthy in Hif0; [congruence | exact Hall]).
    all: split; [reflexivity|].
    all: (split;
          [ unfold percent_of; by rewrite Hif1, Hm2, Hm3
          | exists h; split; [|reflexivity] ]).
    all: rewrite <- Hhash; symmetry.
    all: rewrite Hfs in Hc, Hc0.
    all: unfold ledger_rows in *.
    all: erewrite <- (hash_of_scratch E w w0) by eassumption.
    all: unfold ledger_rows; by rewrite Hl.
Qed.

(** C10. [file_size_percent] raises [ZeroDivisionError] when the second
    file is empty, and never when it is not; and a run of [reencode] on an
    empty input that has run the encoder does not return: it ends in the
    failure of the encoder or in that [ZeroDivisionError]. *)
Theorem file_size_percent_divides_by_zero :
  (forall w f1 f2 st1 st2,
     FS.stat (w_fs w) f1 = Ret st1 -> FS.stat (w_fs w) f2 = Ret st2 ->
     st_size st2 = 0 ->
     file_size_percent f1 f2 w = (Raise ZeroDivisionError, w)) /\
  (forall w f1 f2 st1 st2,
     FS.stat (w_fs w) f1 = Ret st1 -> FS.stat (w_fs w) f2 = Ret st2 ->
     st_size st2 <> 0 ->
     (file_size_percent f1 f2 w).1 <> Raise ZeroDivisionError) /\
  (forall w w' in_file out_file crf preset force extra_args dont_copy r evs st,
     FS.stat (w_fs w) in_file = Ret st -> st_size st = 0 ->
     reencode E in_file out_file crf preset force extra_args dont_copy w = (r, w') ->
     events_between w w' evs ->
     Exists is_encoder_run evs ->
     r = Raise CalledProcessError \/ r = Raise ZeroDivisionError).
Proof.
  split; [|split].
  - intros w f1 f2 st1 st2 H1 H2 Hz.
    rewrite (file_size_percent_run _ _ _ _ _ H1 H2).
    unfold percent_of. by rewrite Hz.
  - intros w f1 f2 st1 st2 H1 H2 Hnz.
    rewrite (file_size_percent_run _ _ _ _ _ H1 H2). simpl.
    unfold percent_of. apply Z.eqb_neq in Hnz. rewrite Hnz.
    destruct (Float.round_to_double _ _) as [pct|]; [|done].
    by destruct (Float.round1 pct).
  - intros w w' in_file out_file crf preset force extra_args dont_copy r evs st
      Hst Hzero Hrun.
    cut (wp (reencode E in_file out_file crf preset force extra_args dont_copy)
           (fun r w' =>
              events_between w w' evs ->
              Exists is_encoder_run evs ->
              r = Raise CalledProcessError \/ r = Raise ZeroDivisionError) w).
    { intros Hwp. exact (wp_outcome _ _ _ _ _ Hwp Hrun). }
    clear Hrun r w'.
    exec_reencode.
    all: use_probe_step.
    all: unfold events_between; norm_world; intros Hev Hex.
    all: name_events Hev.
    all: try (left; reflexivity).
    all: try (right; reflexivity).
    all: exfalso.
    all: try solve
           [ repeat (apply Exists_cons in Hex as [Hex|Hex];
                     [simpl in Hex; try discriminate Hex; try contradiction|]);
             by apply Exists_nil in Hex ].
    all: rewrite <- Hfs in Hc, Hc0, Hst.
    all: match goal with
         | Hr : ffmpeg_tool _ _ ?cmd = Some _ |- _ =>
             eassert (Hlast : List.last cmd EmptyString = _)
               by (rewrite app_assoc, last_app_nonempty by discriminate;
                   cbn [List.last]; reflexivity);
             destruct (encode_phase _ _ _ _ _ _ _ _ _ _ Hc Hc0 Hst Hfree Hlast Hr)
               as (Hst_in & a0' & Hst_out & _)
         end.
    all: match goal with
         | H : FS.stat _ _ = Raise _ |- _ =>
             rewrite ?Hst_in, ?Hst_out in H; discriminate H
         | H1 : FS.stat _ _ = Ret ?x, H : (st_size ?x =? 0) = false |- _ =>
             rewrite Hst_in in H1; injection H1 as <-;
             rewrite Hzero in H; discriminate H
         end.
Qed.

(** Whatever its arguments and its outcome, [reencode] only appends to
    the ledger, and keeps it valid. *)
Lemma reencode_ledger (w w' : world) (in_file out_file : string)
    (crf : Z) (preset : string) (force : bool) (extra_args : list string)
    (dont_copy : bool) (r : res (option string)) :
  reencode E in_file out_file crf preset force extra_args dont_copy w = (r, w') ->
  (exists more, ledger_rows w' = ledger_rows w ++ more) /\
  (ledger_valid w -> ledger_valid w').
Proof.
  intros Hrun.
  cut (wp (reencode E in_file out_file crf preset force extra_args dont_copy)
         (fun r w' =>
            (exists more, ledger_rows w' = ledger_rows w ++ more) /\
            (ledger_valid w -> ledger_valid w')) w).
  { intros Hwp. exact (wp_outcome _ _ _ _ _ Hwp Hrun). }
  clear Hrun r w'.
  exec_reencode.
  all: use_probe_step.
  all: try match goal with
           | H : Some (ledger_rows _) = Some _ |- _ => injection H as <-
           end.
  all: unfold ledger_valid; norm_world.
  all: try match goal with
           | H : existsb _ _ = false |- _ => norm_in H
           end.
  all: try (split; [exists []; by rewrite app_nil_r | done]).
  all: split; [by eexists|].
  all: intros [Hnd Hall]; split.
  all: try (apply valid_app; [done|]).
  all: try (apply Forall_app; split; [done|]; apply Forall_singleton; simpl).
  all: try match goal with
           | H : existsb _ _ = false |- existsb _ _ = false => exact H
           end.
  all: match goal with
       | H : fits_int64 _ && fits_int64 _ = true |- _ =>
           apply andb_true_iff in H as [? ?]
       end.
  all: split; [done|]; split; [done|].
  all: match goal with
       | H : _ && Float.ge_int _ 100 = true |- _ =>
           apply andb_true_iff in H as [_ H];
           eapply percent_ge_positive;
             [ eapply stat_size_nonneg; eassumption
             | eassumption | eassumption | exact H ]
       end.
Qed.

(** C6. A row, once recorded, stays: an [insert] under its key raises
    (the primary key violation [IntegrityError] when the integers fit
    sqlite's, [OverflowError] otherwise) and changes no row, and after
    [init_db], [check], [insert] and [reencode] with any arguments a lookup
    of the key still returns the value first recorded. *)
Theorem ledger_rows_are_never_replaced (w : world) (h : list byte) (crf : Z)
    (preset : string) (v : Z) :
  select_output_bytes (ledger_rows w) h crf preset = Some v ->
  (forall f v' r w',
     hash_of E w f = Ret h ->
     BadEncodingDatabase_insert E f crf preset v' w = (r, w') ->
     (r = Raise IntegrityError \/ r = Raise OverflowError) /\
     (fits_int64 crf = true -> fits_int64 v' = true -> r = Raise IntegrityError) /\
     ledger_rows w' = ledger_rows w) /\
  select_output_bytes (ledger_rows (BadEncodingDatabase_init_db w).2) h crf preset
  = Some v /\
  (forall f crf' preset' r w',
     BadEncodingDatabase_check E f crf' preset' w = (r, w') ->
     select_output_bytes (ledger_rows w') h crf preset = Some v) /\
  (forall f crf' preset' v' r w',
     BadEncodingDatabase_insert E f crf' preset' v' w = (r, w') ->
     select_output_bytes (ledger_rows w') h crf preset = Some v) /\
  (forall in_file out_file crf' preset' force extra_args dont_copy r w',
     reencode E in_file out_file crf' preset' force extra_args dont_copy w = (r, w') ->
     select_output_bytes (ledger_rows w') h crf preset = Some v).
Proof.
  intros Hsel. repeat apply conj.
  - intros f v' r w' Hh. rewrite insert_run, Hh.
    pose proof (select_some_exists _ _ _ _ _ Hsel) as Hex.
    unfold ledger_rows in Hex.
    destruct (fits_int64 crf); destruct (fits_int64 v'); simpl;
      destruct (w_ledger w) as [rows|] eqn:Hl; simpl in Hex; try discriminate Hex;
      rewrite ?Hex; intros [= <- <-]; unfold ledger_rows; simpl; rewrite ?Hl;
      (split; [auto | split; [intros; (done || discriminate) | done]]).
  - unfold BadEncodingDatabase_init_db, modify, ledger_rows in *. simpl.
    by destruct (w_ledger w).
  - intros f crf' preset' r w'. rewrite check_run.
    destruct (hash_of E w f); [|by intros [= <- <-]].
    destruct (fits_int64 crf'); [|by intros [= <- <-]].
    destruct (w_ledger w) eqn:Hl; intros [= <- <-]; exact Hsel.
  - intros f crf' preset' v' r w'. rewrite insert_run.
    destruct (hash_of E w f) as [h'|]; [|by intros [= <- <-]].
    destruct (fits_int64 crf' && fits_int64 v'); [|by intros [= <- <-]].
    cbv zeta. unfold ledger_rows in *.
    destruct (w_ledger w) as [rows|] eqn:Hl; [|by intros [= <- <-]].
    destruct (existsb (key_matches h' crf' preset') rows);
      intros [= <- <-]; simpl; rewrite ?Hl; [done|].
    by apply select_app_keep.
  - intros in_file out_file crf' preset' force extra_args dont_copy r w' Hrun.
    destruct (reencode_ledger _ _ _ _ _ _ _ _ _ _ Hrun) as [[more ->] _].
    by apply select_app_keep.
Qed.

End Orchestrator.

(** ** The program run on concrete inputs *)

Import Examples.

(** C8. [backup] prefixes the whole path, not the base name: for
    [videos/b.mkv] the destination handed to [shutil.move] lies in the
    directory [REENC_BACKUP-videos], which is not the directory of the
    original; in a world where only [videos] exists the move raises
    [FileNotFoundError] and renames nothing. *)
Theorem backup_prefixes_the_whole_path :
  backup_target "videos/b.mkv" = "REENC_BACKUP-videos/b.mkv" /\
  Path.dirname (backup_target "videos/b.mkv") = "REENC_BACKUP-videos" /\
  Path.dirname "videos/b.mkv" = "videos" /\
  backup "videos/b.mkv" (world_of fs0 None)
  = (Raise FileNotFoundError, world_of fs0 None).
Proof. repeat split; vm_compute; reflexivity. Qed.

(** C9. [skip_file] tests suffixes of the whole path, not the extension:
    [flash] has no extension and no marker, and is skipped, because it ends
    in [sh]. *)
Theorem skip_file_matches_suffix_not_extension :
  skip_file "flash" = true /\
  is_backup "flash" = false /\
  Path.extension "flash" = EmptyString /\
  ~ In (Path.extension "flash") SKIP_EXTS.
Proof.
  repeat split; try (vm_compute; reflexivity).
  vm_compute. intros H. repeat (destruct H as [H|H]; [discriminate H|]). exact H.
Qed.

Lemma copy_file_refuses_existing_destination_witness :
  FS.exists_ (w_fs (world_of fs0 None)) "old.mp4" = true /\
  copy_file "a.mkv" "old.mp4" (world_of fs0 None)
  = (Raise ErrorCalled, world_of fs0 None).
Proof.
  split; [vm_compute; reflexivity|].
  apply copy_file_refuses_existing_destination. vm_compute. reflexivity.
Defined.

Lemma check_after_insert_witness :
  (BadEncodingDatabase_check (env_of h264_aac []) "a.mkv" 23 "fast"
     (BadEncodingDatabase_insert (env_of h264_aac []) "a.mkv" 23 "fast" 11
        (world_of fs0 (Some []))).2).1
  = Ret (Some 11).
Proof.
  apply (check_after_insert (env_of h264_aac []) (world_of fs0 (Some []))).
  vm_compute. reflexivity.
Defined.

(** A ledger without rows is valid: with [reencode_ledger], every ledger
    that the program has built from nothing is. *)
Lemma empty_ledger_valid (w : world) : ledger_rows w = [] -> ledger_valid w.
Proof.
  intros H. unfold ledger_valid. rewrite H.
  split; [apply NoDup_nil_2 | apply Forall_nil_2].
Qed.

Lemma world_hit_valid : ledger_valid world_hit.
Proof.
  split.
  - apply NoDup_singleton.
  - apply Forall_singleton. vm_compute. repeat split.
Qed.


Lemma size_regression_is_recorded_witness :
  (reencode env_larger "a.mkv" "out.mkv" 23 "fast" false [] false world_new).1
  = Raise ErrorCalled /\
  w_ledger
    (reencode env_larger "a.mkv" "out.mkv" 23 "fast" false [] false world_new).2
  = Some [key_a 11].
Proof.
  destruct (size_regression_is_recorded env_larger) as (_ & _ & _ & H).
  assert (Hv : ledger_valid world_new).
  { split; [apply NoDup_nil_2 | apply Forall_nil_2]. }
  destruct (H world_new _ "a.mkv" "out.mkv" 23 "fast" [] false _
              (w_trace (reencode env_larger "a.mkv" "out.mkv" 23 "fast"
                          false [] false world_new).2)
              {| Float.f_mant := 7740561859543040; Float.f_exp := -46 |} 10 11
              Hv (surjective_pairing _))
    as (Hr & _ & h & Hh & Hl).
  - unfold events_between. simpl. by rewrite app_nil_r.
  - vm_compute. right. left. reflexivity.
  - vm_compute. reflexivity.
  - split; [exact Hr|]. rewrite Hl. vm_compute in Hh. injection Hh as <-.
    reflexivity.
Defined.

Lemma reencode_target_format_runs_no_encoder_witness :
  (Probe_probe env_target "a.mkv" world_new).1 = Ret ("hevc", Some "aac", "12.5") /\
  (reencode env_target "a.mkv" "out.mkv" 23 "fast" false [] false world_new).1
  = Ret (Some "out.mp4") /\
  (exists evs,
     events_between world_new
       (reencode env_target "a.mkv" "out.mkv" 23 "fast" false [] false world_new).2
       evs /\
     Forall (fun e => ~ is_encoder_run e) evs) /\
  FS.read_file
    (w_fs (reencode env_target "a.mkv" "out.mkv" 23 "fast" false [] false
             world_new).2) "out.mp4"
  = Ret (bytes_of "0123456789").
Proof.
  assert (Hp : (Probe_probe env_target "a.mkv" world_new).1
               = Ret ("hevc", Some "aac", "12.5")) by (vm_compute; reflexivity).
  destruct (reencode_target_format_runs_no_encoder env_target world_new _
              "a.mkv" "out.mkv" 23 "fast" [] false (Some "aac") "12.5" _
              Hp (or_introl eq_refl) (surjective_pairing _)) as [Hev Hres].
  assert (Hr : (reencode env_target "a.mkv" "out.mkv" 23 "fast" false [] false
                  world_new).1 = Ret (Some "out.mp4")) by (vm_compute; reflexivity).
  split; [exact Hp|]. split; [exact Hr|]. split; [exact Hev|].
  destruct (Hres _ Hr) as [_ Hdata].
  apply (Hdata (bytes_of "0123456789")). vm_compute. reflexivity.
Defined.

Lemma ledger_rows_are_never_replaced_witness :
  select_output_bytes (ledger_rows world_hit) (bytes_of "0123456789") 23 "fast"
  = Some 11 /\
  (BadEncodingDatabase_insert env_larger "a.mkv" 23 "fast" 99 world_hit).1
  = Raise IntegrityError /\
  select_output_bytes
    (ledger_rows
       (reencode env_larger "videos/b.mkv" "out.mkv" 23 "fast" false [] false
          world_hit).2)
    (bytes_of "0123456789") 23 "fast"
  = Some 11.
Proof.
  assert (Hsel : select_output_bytes (ledger_rows world_hit)
                   (bytes_of "0123456789") 23 "fast" = Some 11)
    by (vm_compute; reflexivity).
  destruct (ledger_rows_are_never_replaced env_larger world_hit _ _ _ _ Hsel)
    as (Hins & _ & _ & _ & Hre).
  split; [exact Hsel|]. split.
  - destruct (Hins "a.mkv" 99 _ _ ltac:(vm_compute; reflexivity)
                (surjective_pairing _)) as (_ & H & _).
    apply H; vm_compute; reflexivity.
  - exact (Hre _ _ _ _ _ _ _ _ _ (surjective_pairing _)).
Defined.

Lemma reencode_force_bypasses_ledger_witness :
  ledger_rows
    (reencode env_larger "a.mkv" "out.mkv" 23 "fast" true [] false world_hit).2
  = ledger_rows world_hit /\
  (reencode env_larger "a.mkv" "out.mkv" 23 "fast" true [] false world_hit).1
  = Ret (Some "out.mp4").
Proof.
  destruct (reencode_force_bypasses_ledger env_larger world_hit _
              "a.mkv" "out.mkv" 23 "fast" [] false _ (surjective_pairing _))
    as (Hrows & _ & _).
  split; [exact Hrows|]. vm_compute. reflexivity.
Defined.

Lemma file_size_percent_divides_by_zero_witness :
  file_size_percent "a.mkv" "empty.mkv" world_new = (Raise ZeroDivisionError, world_new) /\
  (reencode env_larger "empty.mkv" "out.mkv" 23 "fast" false [] false world_new).1
  = Raise ZeroDivisionError.
Proof.
  destruct (file_size_percent_divides_by_zero env_larger) as (Hz & _ & Hre).
  split.
  - eapply Hz; vm_compute; reflexivity.
  - destruct (Hre world_new _ "empty.mkv" "out.mkv" 23 "fast" false [] false _
                (w_trace (reencode env_larger "empty.mkv" "out.mkv" 23 "fast"
                            false [] false world_new).2)
                {| st_size := 0; st_dev := 1%N |}
                ltac:(vm_compute; reflexivity) eq_refl (surjective_pairing _))
      as [H|H].
    + unfold events_between. simpl. by rewrite app_nil_r.
    + vm_compute. apply Exists_cons_hd. reflexivity.
    + vm_compute in H. discriminate H.
    + exact H.
Defined.

(** ** More on paths: [as_mp4] *)

Section PathFacts.

Lemma app_cons (a : ascii) (s t : string) : String a s +:+ t = String a (s +:+ t).
Proof. reflexivity. Qed.

Lemma has_char_app (c : ascii) (s t : string) :
  has_char c (s +:+ t) = has_char c s || has_char c t.
Proof.
  induction s as [|a s IH]; [reflexivity|].
  rewrite app_cons. cbn [has_char]. rewrite IH. apply orb_assoc.
Qed.

Lemma endswith_has_char (c : ascii) (s : string) :
  endswith s (String c EmptyString) = true -> has_char c s = true.
Proof.
  induction s as [|a s IH]; cbn [endswith has_char]; [done|].
  intros H. apply orb_true_iff in H as [H|H].
  - apply String.eqb_eq in H. injection H as -> ->.
    unfold is_char. by rewrite Ascii.eqb_refl.
  - rewrite (IH H). apply orb_true_r.
Qed.

Lemma basename_no_slash_id (b : string) :
  has_char "/" b = false -> Path.basename b = b.
Proof. destruct b as [|c b]; [done|]. cbn [Path.basename]. by intros ->. Qed.

(** A text that is empty or ends in a slash, followed by a text without
    slash, splits into these two. *)
Lemma split_at_last_slash (x b : string) :
  x = EmptyString \/ endswith x "/" = true ->
  has_char "/" b = false ->
  Path.head (x +:+ b) = x /\ Path.basename (x +:+ b) = b.
Proof.
  intros Hx Hb. induction x as [|a x IH].
  - split; [by apply has_char_false_head | by apply basename_no_slash_id].
  - destruct Hx as [Hx|Hx]; [done|].
    assert (Hs : has_char "/" (String a x +:+ b) = true).
    { rewrite has_char_app, (endswith_has_char _ _ Hx). reflexivity. }
    rewrite app_cons in *. cbn [Path.head Path.basename]. rewrite Hs.
    cbn [endswith] in Hx. apply orb_true_iff in Hx as [Hx|Hx].
    + apply String.eqb_eq in Hx. injection Hx as -> ->.
      destruct (IH (or_introl eq_refl)) as [-> ->]. done.
    + destruct (IH (or_intror Hx)) as [-> ->]. done.
Qed.

Lemma basename_no_slash (p : string) : has_char "/" (Path.basename p) = false.
Proof.
  induction p as [|c p IH]; [reflexivity|].
  cbn [Path.basename]. destruct (has_char "/" (String c p)) eqn:H; [exact IH | exact H].
Qed.

Lemma rsplit1_dot_head_no_slash (s : string) :
  has_char "/" s = false -> has_char "/" (rsplit1_dot_head s) = false.
Proof.
  induction s as [|c s IH]; [done|].
  cbn [rsplit1_dot_head has_char]. intros H.
  apply orb_false_iff in H as [Hc Hs].
  destruct (has_char "." s).
  - cbn [has_char]. by rewrite Hc, IH.
  - destruct (is_char "." c); [done|]. cbn [has_char]. by rewrite Hc, Hs.
Qed.

Lemma no_slash_not_absolute (m : string) :
  has_char "/" m = false -> startswith m "/" = false.
Proof.
  destruct m as [|c m]; [done|]. cbn [has_char]. intros H.
  apply orb_false_iff in H as [Hc _]. unfold startswith, is_char in *.
  cbn [String.prefix].
  destruct (ascii_dec "/" c) as [<-|]; [by rewrite Ascii.eqb_refl in Hc | done].
Qed.

Lemma rstrip_slash_app_slash (s : string) :
  rstrip_slash (s +:+ "/") = rstrip_slash s.
Proof.
  induction s as [|a s IH]; [reflexivity|].
  rewrite app_cons. cbn [rstrip_slash]. by rewrite IH.
Qed.

Lemma rstrip_slash_idem (s : string) :
  rstrip_slash (rstrip_slash s) = rstrip_slash s.
Proof.
  induction s as [|a s IH]; [reflexivity|].
  cbn [rstrip_slash].
  destruct (is_char "/" a && String.eqb (rstrip_slash s) EmptyString) eqn:H; [done|].
  cbn [rstrip_slash]. rewrite IH, H. done.
Qed.

Lemma rstrip_slash_no_trailing (s : string) :
  endswith (rstrip_slash s) "/" = false.
Proof.
  induction s as [|a s IH]; [reflexivity|].
  cbn [rstrip_slash].
  destruct (is_char "/" a && String.eqb (rstrip_slash s) EmptyString) eqn:H; [done|].
  cbn [endswith]. rewrite IH, orb_false_r.
  apply andb_false_iff in H as [H|H].
  - apply String.eqb_neq. intros Heq. injection Heq as Ha Hr. subst a. done.
  - apply String.eqb_neq. intros Heq. injection Heq as Ha Hr. rewrite Hr in H. done.
Qed.

Lemma rstrip_slash_empty_endswith (h : string) :
  rstrip_slash h = EmptyString -> h = EmptyString \/ endswith h "/" = true.
Proof.
  induction h as [|a h IH]; [by left|]. intros H. right.
  cbn [rstrip_slash] in H.
  destruct (is_char "/" a && String.eqb (rstrip_slash h) EmptyString) eqn:Hc; [|done].
  apply andb_true_iff in Hc as [Ha Hh]. apply String.eqb_eq in Hh.
  unfold is_char in Ha. apply Ascii.eqb_eq in Ha. subst a.
  cbn [endswith]. destruct (IH Hh) as [-> | ->]; [done|]. apply orb_true_r.
Qed.

(** The forms a directory part takes: empty, slashes only, or a text
    without a trailing slash. *)
Lemma dirname_shape (f : string) :
  Path.dirname f = EmptyString \/
  (endswith (Path.dirname f) "/" = true /\
   rstrip_slash (Path.dirname f) = EmptyString) \/
  (Path.dirname f <> EmptyString /\ endswith (Path.dirname f) "/" = false /\
   rstrip_slash (Path.dirname f) = Path.dirname f).
Proof.
  unfold Path.dirname.
  destruct (String.eqb (rstrip_slash (Path.head f)) EmptyString) eqn:Hr.
  - apply String.eqb_eq in Hr.
    destruct (rstrip_slash_empty_endswith _ Hr) as [He|He]; [by left|].
    right. left. done.
  - right. right. apply String.eqb_neq in Hr.
    split; [done|]. split; [apply rstrip_slash_no_trailing | apply rstrip_slash_idem].
Qed.

Lemma app_assoc3 (d s m : string) : d +:+ s +:+ m = (d +:+ s) +:+ m.
Proof. induction d as [|a d IH]; [done|]. rewrite !app_cons. by rewrite IH. Qed.

(** The directory part and the base name of [join (dirname f) m], for a
    name [m] without slash. *)
Lemma dirname_join_dirname (f m : string) :
  has_char "/" m = false ->
  Path.dirname (Path.join (Path.dirname f) m) = Path.dirname f /\
  Path.basename (Path.join (Path.dirname f) m) = m.
Proof.
  intros Hm. unfold Path.join. rewrite (no_slash_not_absolute _ Hm).
  destruct (dirname_shape f) as [Hd | [[He Hr] | (Hne & He & Hr)]];
    first [revert Hne He Hr | revert He Hr | revert Hd];
    generalize (Path.dirname f) as d; intros d.
  - intros ->. simpl.
    split; [by apply dirname_no_slash | by apply basename_no_slash_id].
  - intros He Hr. rewrite He, orb_true_r.
    destruct (split_at_last_slash d m (or_intror He) Hm) as [Hh Hb].
    split; [|exact Hb]. unfold Path.dirname. rewrite Hh, Hr. done.
  - intros Hne He Hr. rewrite He, orb_false_r.
    apply String.eqb_neq in Hne. rewrite Hne.
    rewrite app_assoc3.
    assert (Hs : endswith (d +:+ "/") "/" = true) by apply endswith_app.
    destruct (split_at_last_slash (d +:+ "/") m (or_intror Hs) Hm) as [Hh Hb].
    split; [|exact Hb]. unfold Path.dirname. rewrite Hh, rstrip_slash_app_slash.
    rewrite Hr, Hne. done.
Qed.

Lemma rsplit1_dot_head_app_ext (h e : string) :
  has_char "." e = false ->
  rsplit1_dot_head (h +:+ String "." e) = h.
Proof.
  intros He. induction h as [|a h IH].
  - change (rsplit1_dot_head (String "." e) = EmptyString).
    cbn [rsplit1_dot_head]. rewrite He. reflexivity.
  - rewrite app_cons. cbn [rsplit1_dot_head].
    rewrite has_char_app. cbn [has_char]. unfold is_char at 2.
    rewrite Ascii.eqb_refl, orb_true_r. simpl. by rewrite IH.
Qed.

End PathFacts.

Lemma as_mp4_endswith (f : string) : endswith (as_mp4 f) ".mp4" = true.
Proof.
  unfold as_mp4, Path.join.
  set (m := rsplit1_dot_head (Path.basename f) +:+ ".mp4").
  assert (Hm : endswith m ".mp4" = true) by apply endswith_app.
  destruct (startswith m "/"); [exact Hm|].
  destruct (_ || _); [| apply endswith_app_l]; apply endswith_app_l; exact Hm.
Qed.

Lemma mp4_name_no_slash (f : string) :
  has_char "/" (rsplit1_dot_head (Path.basename f) +:+ ".mp4") = false.
Proof.
  rewrite has_char_app, rsplit1_dot_head_no_slash by apply basename_no_slash.
  reflexivity.
Qed.

Lemma mp4_path_endswith (out_file : string) :
  endswith (mp4_path out_file) ".mp4" = true.
Proof.
  unfold mp4_path. destruct (endswith out_file ".mp4") eqn:H; [exact H|].
  apply as_mp4_endswith.
Qed.

Lemma rsplit1_dot_head_no_dot (s : string) :
  has_char "." s = false -> rsplit1_dot_head s = s.
Proof.
  destruct s as [|c s]; [done|]. cbn [has_char rsplit1_dot_head].
  intros H. apply orb_false_iff in H as [Hc Hs]. by rewrite Hs, Hc.
Qed.

(** X1. [as_mp4] changes the extension only: the result lies in the
    directory of the argument and ends in [.mp4]; its base name is that of
    the argument with the text after the last dot replaced by [mp4], or
    with [.mp4] appended when the base name has no dot. *)
Theorem as_mp4_changes_only_the_extension (f : string) :
  Path.dirname (as_mp4 f) = Path.dirname f /\
  endswith (as_mp4 f) ".mp4" = true /\
  (forall stem ext,
     Path.basename f = stem +:+ "." +:+ ext -> has_char "." ext = false ->
     Path.basename (as_mp4 f) = stem +:+ ".mp4") /\
  (has_char "." (Path.basename f) = false ->
   Path.basename (as_mp4 f) = Path.basename f +:+ ".mp4").
Proof.
  pose proof (dirname_join_dirname f _ (mp4_name_no_slash f)) as [Hd Hb].
  split; [exact Hd|]. split; [apply as_mp4_endswith|].
  unfold as_mp4. rewrite Hb. split.
  - intros stem ext Hf He. rewrite Hf.
    change ("." +:+ ext) with (String "." ext).
    by rewrite (rsplit1_dot_head_app_ext stem ext He).
  - intros H. by rewrite (rsplit1_dot_head_no_dot _ H).
Qed.

(** X2. [as_mp4] is idempotent: the mp4 name of an mp4 name is that
    name. *)
Theorem as_mp4_idempotent (f : string) : as_mp4 (as_mp4 f) = as_mp4 f.
Proof.
  unfold as_mp4 at 1.
  destruct (dirname_join_dirname f _ (mp4_name_no_slash f)) as [Hd Hb].
  fold (as_mp4 f) in Hd, Hb. rewrite Hd, Hb.
  change ".mp4" with (String "." "mp4").
  rewrite rsplit1_dot_head_app_ext by reflexivity. reflexivity.
Qed.

(** X3. The skip policy rejects every path that carries the backup
    marker, and every path that ends in the letters of a listed extension,
    in any case of letters and with or without a dot before them. *)
Theorem skip_file_rejects_marked_and_listed (f : string) :
  is_backup f = true \/
  (exists base ext, f = base +:+ ext /\ In (lower ext) SKIP_EXTS) ->
  skip_file f = true.
Proof.
  intros [H | (base & ext & -> & Hin)]; [by apply skip_file_marker|].
  unfold skip_file, has_skip_ext.
  apply orb_true_iff. right. apply existsb_exists.
  exists (lower ext). split; [exact Hin|].
  rewrite lower_app. apply endswith_app_l, endswith_refl.
Qed.

(** ** More on [copy_file] *)

Section CopyFacts.

Implicit Types (fs : filesystem) (p q : string).

Lemma follow_ext fuel fs fs' p :
  names fs' = names fs -> FS.follow fuel fs' p = FS.follow fuel fs p.
Proof.
  intros H. revert p. induction fuel as [|k IH]; intros p; simpl; rewrite H; [done|].
  destruct (names fs !! p) as [[]|]; auto.
Qed.

Lemma resolve_ext fs fs' p :
  names fs' = names fs -> FS.resolve fs' p = FS.resolve fs p.
Proof.
  intros H. unfold FS.resolve, FS.final_path. rewrite (follow_ext _ _ _ _ H).
  by rewrite H.
Qed.

Lemma parent_dev_ext fs fs' p :
  names fs' = names fs -> cwd_dev fs' = cwd_dev fs ->
  FS.parent_dev fs' p = FS.parent_dev fs p.
Proof.
  intros H Hc. unfold FS.parent_dev. by rewrite (resolve_ext _ _ _ H), Hc.
Qed.

End CopyFacts.

(** Runs the program one step further with a known result. *)
Ltac run_with H :=
  cbv beta iota zeta; cbn [w_fs set_fs];
  rewrite H; cbv beta iota zeta; cbn [w_fs set_fs].

(** [copy_file] onto a free name in an existing directory. *)
Lemma copy_file_onto_free (w : world) (src dst : string) (i : nat)
    (ino : inode) (dev : N) :
  names (w_fs w) !! src = Some (Reg i) ->
  inodes (w_fs w) !! i = Some ino ->
  Z.of_nat (length (i_data ino)) <= FS.MAX_FILE_SIZE ->
  names (w_fs w) !! dst = None ->
  FS.parent_dev (w_fs w) dst = Some dev ->
  exists w',
    copy_file src dst w = (Ret tt, w') /\
    same_but_fs w w' /\
    holds (w_fs w') src (i_data ino) /\
    holds (w_fs w') dst (i_data ino) /\
    (names (w_fs w') !! dst = Some (Reg i) <-> i_dev ino = dev) /\
    (forall p, p <> dst -> names (w_fs w') !! p = names (w_fs w) !! p).
Proof.
  destruct w as [fs ledger hashes probes trace]. cbn [w_fs].
  intros Hs Hi Hsz Hd Hpd.
  set (n := length (inodes fs)).
  set (fs1 := {| names := <[dst := Reg n]> (names fs);
                 inodes := inodes fs ++ [{| i_dev := dev; i_data := [] |}];
                 cwd_dev := cwd_dev fs |}).
  set (fs2 := FS.set_names fs1 (delete dst (names fs1))).
  assert (Hsd : dst <> src) by congruence.
  assert (Hex : FS.exists_ fs dst = false).
  { unfold FS.exists_. by rewrite (resolve_none _ _ Hd). }
  assert (Htouch : FS.touch fs dst = Ret fs1).
  { unfold FS.touch, FS.final_path.
    rewrite follow_not_link by (intros t; by rewrite Hd).
    rewrite Hd. unfold FS.create. rewrite Hpd. simpl. done. }
  assert (Hi1 : inodes fs1 !! i = Some ino) by (by apply lookup_app_l_Some).
  assert (Hs1 : names fs1 !! src = Some (Reg i))
    by (simpl; by rewrite lookup_insert_ne).
  assert (Hst1 : FS.stat fs1 src =
                 Ret {| st_size := Z.of_nat (length (i_data ino));
                        st_dev := i_dev ino |}).
  { by rewrite (stat_reg _ _ _ Hs1), Hi1. }
  assert (Hst2 : FS.stat fs1 dst = Ret {| st_size := 0; st_dev := dev |}).
  { rewrite (stat_reg _ _ n) by (simpl; apply lookup_insert_eq).
    simpl. rewrite lookup_app_r by done. subst n. by rewrite Nat.sub_diag. }
  assert (Hunl : FS.unlink fs1 dst = Ret fs2).
  { unfold FS.unlink. simpl. by rewrite lookup_insert_eq. }
  assert (Hn2 : names fs2 = names fs).
  { simpl. by apply delete_insert_id. }
  assert (Hpd2 : FS.parent_dev fs2 dst = Some dev).
  { by rewrite (parent_dev_ext fs fs2). }
  assert (Hs2 : names fs2 !! src = Some (Reg i)) by (by rewrite Hn2).
  assert (Hd2 : names fs2 !! dst = None) by (by rewrite Hn2).
  unfold copy_file, path_exists, files_on_same_fs, os_stat, Log_error.
  cbv [bind gets fs_act fs_read ret raise]. cbn [w_fs].
  run_with Hex. run_with Htouch. run_with Hst1. run_with Hst2. run_with Hunl.
  cbn [st_dev].
  destruct (decide (i_dev ino = dev)) as [Hdev|Hdev].
  - rewrite bool_decide_eq_true_2 by done.
    assert (Hlink : FS.link fs2 src dst
                    = Ret (FS.set_names fs2 (<[dst := Reg i]> (names fs2)))).
    { unfold FS.link. rewrite Hs2, Hd2, Hpd2.
      unfold FS.node_dev. change (inodes fs2) with (inodes fs1). rewrite Hi1.
      simpl. rewrite Hdev. by rewrite decide_True. }
    run_with Hlink. eexists. split; [reflexivity|].
    cbn [w_fs set_fs]. rewrite Hn2.
    split; [by unfold same_but_fs|].
    split; [exists i, ino; simpl; by rewrite lookup_insert_ne|].
    split; [exists i, ino; simpl; by rewrite lookup_insert_eq|].
    split; [simpl; by rewrite lookup_insert_eq|].
    intros p Hp. simpl. by rewrite lookup_insert_ne.
  - rewrite bool_decide_eq_false_2 by done.
    assert (Hcopy : FS.copy2 fs2 src dst
                    = Ret {| names := <[dst := Reg (length (inodes fs2))]> (names fs2);
                             inodes := inodes fs2 ++ [{| i_dev := dev; i_data := i_data ino |}];
                             cwd_dev := cwd_dev fs2 |}).
    { unfold FS.copy2, FS.isdir. rewrite (resolve_none _ _ Hd2).
      rewrite (read_file_reg _ _ _ Hs2).
      change (inodes fs2) with (inodes fs1). rewrite Hi1.
      unfold FS.final_path. rewrite follow_not_link by (intros t; by rewrite Hd2).
      rewrite Hd2. unfold FS.create. rewrite Hpd2.
      apply Z.ltb_ge in Hsz. by rewrite Hsz. }
    run_with Hcopy. eexists. split; [reflexivity|].
    cbn [w_fs set_fs names inodes]. rewrite Hn2.
    split; [by unfold same_but_fs|].
    split.
    { exists i, ino. simpl. rewrite lookup_insert_ne by done.
      split; [done|]. split; [|done]. by apply lookup_app_l_Some. }
    split.
    { exists (length (inodes fs1)), {| i_dev := dev; i_data := i_data ino |}.
      simpl. rewrite lookup_insert_eq. split; [reflexivity|].
      split; [|reflexivity].
      rewrite lookup_app_r by done. by rewrite Nat.sub_diag. }
    split.
    { simpl. rewrite lookup_insert_eq. split; [|done].
      intros [= Hl]. apply lookup_lt_Some in Hi. rewrite length_app in Hl.
      simpl in Hl. lia. }
    intros p Hp. simpl. by rewrite lookup_insert_ne.
Qed.

(** X4. [copy_file] onto a free name in an existing directory succeeds for
    every regular file: the destination then holds the bytes of the
    source, as a hard link to it exactly when the source lies on the
    device of the destination's directory, and no other name changes. *)
Theorem copy_file_onto_free_name (w : world) (src dst : string) (i : nat)
    (ino : inode) (dev : N) :
  names (w_fs w) !! src = Some (Reg i) ->
  inodes (w_fs w) !! i = Some ino ->
  Z.of_nat (length (i_data ino)) <= FS.MAX_FILE_SIZE ->
  names (w_fs w) !! dst = None ->
  FS.parent_dev (w_fs w) dst = Some dev ->
  exists w',
    copy_file src dst w = (Ret tt, w') /\
    same_but_fs w w' /\
    holds (w_fs w') src (i_data ino) /\
    holds (w_fs w') dst (i_data ino) /\
    (names (w_fs w') !! dst = Some (Reg i) <-> i_dev ino = dev) /\
    (forall p, p <> dst -> names (w_fs w') !! p = names (w_fs w) !! p).
Proof.
  intros Hsrc Hino Hsize Hdst Hdev.
  destruct (copy_file_onto_free w src dst i ino dev Hsrc Hino Hsize Hdst Hdev)
    as (w' & Hrun & Hsame & Hs & Hd & Hlink & Hother).
  exists w'. repeat (split; [assumption|]). exact Hother.
Qed.

(** X5. When the source is missing, [copy_file] fails after it has made its
    test file: the error is [FileNotFoundError] and an empty file stays
    at the destination. *)
Theorem copy_file_missing_source_leaves_test_file (w : world) (src dst : string)
    (dev : N) :
  names (w_fs w) !! src = None ->
  src <> dst ->
  names (w_fs w) !! dst = None ->
  FS.parent_dev (w_fs w) dst = Some dev ->
  exists w',
    copy_file src dst w = (Raise FileNotFoundError, w') /\
    same_but_fs w w' /\
    holds (w_fs w') dst [] /\
    FS.exists_ (w_fs w') dst = true.
Proof.
  destruct w as [fs ledger hashes probes trace]. cbn [w_fs].
  intros Hs Hne Hd Hpd.
  set (fs1 := {| names := <[dst := Reg (length (inodes fs))]> (names fs);
                 inodes := inodes fs ++ [{| i_dev := dev; i_data := [] |}];
                 cwd_dev := cwd_dev fs |}).
  assert (Hex : FS.exists_ fs dst = false).
  { unfold FS.exists_. by rewrite (resolve_none _ _ Hd). }
  assert (Htouch : FS.touch fs dst = Ret fs1).
  { unfold FS.touch, FS.final_path.
    rewrite follow_not_link by (intros t; by rewrite Hd).
    rewrite Hd. unfold FS.create. rewrite Hpd. simpl. done. }
  assert (Hst1 : FS.stat fs1 src = Raise FileNotFoundError).
  { unfold FS.stat. rewrite resolve_none; [done|].
    simpl. by rewrite lookup_insert_ne. }
  unfold copy_file, path_exists, files_on_same_fs, os_stat, Log_error.
  cbv [bind gets fs_act fs_read ret raise]. cbn [w_fs].
  run_with Hex. run_with Htouch. run_with Hst1. eexists. split; [reflexivity|].
  cbn [w_fs set_fs].
  assert (Hh : holds fs1 dst []).
  { exists (length (inodes fs)), {| i_dev := dev; i_data := [] |}.
    simpl. rewrite lookup_insert_eq. split; [reflexivity|].
    split; [|reflexivity]. rewrite lookup_app_r by done. by rewrite Nat.sub_diag. }
  split; [by unfold same_but_fs|]. split; [exact Hh|].
  destruct Hh as (i & ino & Hn & _ & _).
  unfold FS.exists_. by rewrite (resolve_reg _ _ _ Hn).
Qed.

(** ** What the steps of [reencode] do to the files *)

Section FsEffects.

Implicit Types (fs : filesystem) (p q : string).

Lemma holds_not_free fs p data : holds fs p data -> names fs !! p <> None.
Proof. intros (i & ino & Hp & _). by rewrite Hp. Qed.

(** A file added at a free name, with its inode appended, disturbs no
    other file. *)
Lemma holds_add fs p data q n x :
  holds fs p data -> names fs !! q = None ->
  holds {| names := <[q := n]> (names fs); inodes := inodes fs ++ [x];
           cwd_dev := cwd_dev fs |} p data.
Proof.
  intros (i & ino & Hp & Hi & Hd) Hq. exists i, ino. simpl.
  rewrite lookup_insert_ne by congruence.
  split; [done|]. split; [by apply lookup_app_l_Some | done].
Qed.

Lemma holds_exists fs p data : holds fs p data -> FS.exists_ fs p = true.
Proof.
  intros (i & ino & Hp & _). unfold FS.exists_. by rewrite (resolve_reg _ _ _ Hp).
Qed.

(** [copy2] onto a free name makes one new file. *)
Lemma copy2_onto_free fs src dst fs' :
  names fs !! dst = None -> FS.copy2 fs src dst = Ret fs' ->
  exists x,
    fs' = {| names := <[dst := Reg (length (inodes fs))]> (names fs);
             inodes := inodes fs ++ [x]; cwd_dev := cwd_dev fs |} /\
    FS.read_file fs src = Ret (i_data x).
Proof.
  intros Hd. unfold FS.copy2, FS.isdir. rewrite (resolve_none _ _ Hd).
  destruct (FS.read_file fs src) as [data|]; [|done].
  unfold FS.final_path. rewrite follow_not_link by (intros t; by rewrite Hd).
  rewrite Hd. intros Hc. apply create_inv in Hc as (dev & -> & _). eauto.
Qed.

(** Whatever its outcome, [copy_file] leaves every regular file with the
    bytes it had. *)
Lemma copy_file_keeps (src dst : string) (w w' : world) (r : res unit) p data :
  copy_file src dst w = (r, w') ->
  holds (w_fs w) p data -> holds (w_fs w') p data.
Proof.
  intros Hrun Hh.
  cut (wp (copy_file src dst) (fun _ w' => holds (w_fs w') p data) w).
  { intros Hwp. exact (wp_outcome _ _ _ _ _ Hwp Hrun). }
  clear Hrun. unfold copy_file, path_exists, files_on_same_fs, os_stat.
  wp_steps; try exact Hh.
  all: destruct (touch_inv _ _ _ Hif Hfs) as (q & dev & Hq & Hcase & ->).
  all: pose proof (holds_add _ _ _ q (Reg (length (inodes (w_fs w))))
                     {| i_dev := dev; i_data := [] |} Hh Hq) as Hh1.
  all: try exact Hh1.
  all: assert (Hpd : p <> dst)
         by (intros ->; apply holds_exists in Hh; congruence).
  all: apply unlink_inv in Hfs0 as ->.
  all: assert (Hh2 : holds
                       (FS.set_names
                          {| names := <[q := Reg (length (inodes (w_fs w)))]> (names (w_fs w));
                             inodes := inodes (w_fs w) ++ [{| i_dev := dev; i_data := [] |}];
                             cwd_dev := cwd_dev (w_fs w) |}
                          (delete dst (<[q := Reg (length (inodes (w_fs w)))]> (names (w_fs w)))))
                       p data)
         by (destruct Hh1 as (i & ino & H1 & H2 & H3); exists i, ino; simpl in *;
             by rewrite lookup_delete_ne).
  all: try exact Hh2.
  - apply link_inv in Hfs1 as (n & _ & _ & ->).
    destruct Hh2 as (i & ino & H1 & H2 & H3). exists i, ino. simpl in *.
    by rewrite lookup_insert_ne.
  - apply copy2_onto_free in Hfs1 as (x & -> & _);
      [| simpl; apply lookup_delete_eq].
    apply (holds_add _ _ _ dst _ x Hh2). simpl. apply lookup_delete_eq.
Qed.

(** On a destination whose name is free, [copy_file] changes no other
    name, whatever its outcome. *)
Lemma copy_file_names (src dst : string) (w w' : world) (r : res unit) p :
  copy_file src dst w = (r, w') ->
  names (w_fs w) !! dst = None -> p <> dst ->
  names (w_fs w') !! p = names (w_fs w) !! p.
Proof.
  intros Hrun Hd Hp.
  cut (wp (copy_file src dst)
         (fun _ w' => names (w_fs w') !! p = names (w_fs w) !! p) w).
  { intros Hwp. exact (wp_outcome _ _ _ _ _ Hwp Hrun). }
  clear Hrun. unfold copy_file, path_exists, files_on_same_fs, os_stat.
  wp_steps; try reflexivity.
  all: destruct (touch_inv _ _ _ Hif Hfs) as (q & dev & Hq & [-> | [t Ht]] & ->);
       [| congruence].
  all: try (simpl; by rewrite lookup_insert_ne).
  all: apply unlink_inv in Hfs0 as ->.
  all: try (simpl; by rewrite lookup_delete_ne, lookup_insert_ne).
  - apply link_inv in Hfs1 as (n & _ & _ & ->). simpl.
    by rewrite lookup_insert_ne, lookup_delete_ne, lookup_insert_ne.
  - apply copy2_onto_free in Hfs1 as (x & -> & _);
      [| simpl; apply lookup_delete_eq].
    simpl. by rewrite lookup_insert_ne, lookup_delete_ne, lookup_insert_ne.
Qed.

(** When [copy_file] returns for a source that is a regular file, the
    destination is a regular file. *)
Lemma copy_file_makes_file (src dst : string) (w w' : world) (i : nat) :
  copy_file src dst w = (Ret tt, w') ->
  names (w_fs w) !! src = Some (Reg i) ->
  exists data, holds (w_fs w') dst data.
Proof.
  intros Hrun Hs.
  cut (wp (copy_file src dst)
         (fun r w' => r = Ret tt -> exists data, holds (w_fs w') dst data) w).
  { intros Hwp. by apply (wp_outcome _ _ _ _ _ Hwp Hrun). }
  clear Hrun. unfold copy_file, path_exists, files_on_same_fs, os_stat.
  wp_steps; try discriminate.
  all: intros _.
  all: destruct (touch_inv _ _ _ Hif Hfs) as (q & dev & Hq & Hcase & ->).
  all: assert (Hsq : q <> src) by (intros ->; congruence).
  all: assert (Hsd : dst <> src)
         by (intros ->; unfold FS.exists_ in Hif;
             by rewrite (resolve_reg _ _ _ Hs) in Hif).
  all: rewrite (stat_reg _ _ i) in Hm by (simpl; by rewrite lookup_insert_ne).
  all: simpl in Hm.
  all: destruct ((inodes (w_fs w) ++ [{| i_dev := dev; i_data := [] |}]) !! i)
         as [ino|] eqn:Hino; [|done].
  all: apply unlink_inv in Hfs0 as ->.
  - apply link_inv in Hfs1 as (n & Hn & _ & ->). simpl in *.
    rewrite lookup_delete_ne, lookup_insert_ne in Hn by done.
    rewrite Hs in Hn. injection Hn as <-.
    exists (i_data ino), i, ino. simpl. by rewrite lookup_insert_eq.
  - apply copy2_onto_free in Hfs1 as (x & -> & _);
      [| simpl; apply lookup_delete_eq].
    exists (i_data x), (length (inodes (w_fs w) ++ [{| i_dev := dev; i_data := [] |}])), x.
    simpl. rewrite lookup_insert_eq. split; [done|]. split; [|done].
    rewrite lookup_app_r by done. by rewrite Nat.sub_diag.
Qed.

Lemma rmtree_under fs d p :
  FS.under d p = true -> names (FS.rmtree fs d) !! p = None.
Proof.
  intros H. unfold FS.rmtree. simpl. apply map_lookup_filter_None.
  right. intros x _. simpl. congruence.
Qed.

Lemma rmtree_none fs d p :
  names fs !! p = None -> names (FS.rmtree fs d) !! p = None.
Proof.
  intros H. unfold FS.rmtree. simpl. apply map_lookup_filter_None. by left.
Qed.

Lemma under_refl (d : string) : FS.under d d = true.
Proof. unfold FS.under. by rewrite String.eqb_refl. Qed.

(** A name joined to a scratch directory lies in it. *)
Lemma join_under (d x : string) :
  d <> EmptyString -> endswith d "/" = false ->
  FS.under d (Path.join d (Path.basename x)) = true.
Proof.
  intros Hne Hs. unfold Path.join.
  rewrite (no_slash_not_absolute _ (basename_no_slash x)).
  apply String.eqb_neq in Hne. rewrite Hne, Hs. simpl.
  unfold FS.under. rewrite app_assoc3, prefix_app. apply orb_true_r.
Qed.

End FsEffects.

Section ToolEffects.

Context (E : env).

Lemma ffmpeg_tool_keeps (fs fs2 : filesystem) (cmd : list string) (out : string) p data :
  ffmpeg_tool E fs cmd = Some (out, fs2) -> holds fs p data -> holds fs2 p data.
Proof.
  intros Ht Hh. apply ffmpeg_tool_inv in Ht as (d & dev & Hfree & _ & ->).
  by apply holds_add.
Qed.

Lemma ffmpeg_tool_names (fs fs2 : filesystem) (cmd : list string) (out : string) p :
  ffmpeg_tool E fs cmd = Some (out, fs2) -> p <> List.last cmd EmptyString ->
  names fs2 !! p = names fs !! p.
Proof.
  intros Ht Hp. apply ffmpeg_tool_inv in Ht as (d & dev & Hfree & _ & ->).
  simpl. by rewrite lookup_insert_ne.
Qed.

Lemma ffmpeg_tool_target (fs fs2 : filesystem) (cmd : list string) (out : string) :
  ffmpeg_tool E fs cmd = Some (out, fs2) ->
  exists i, names fs2 !! List.last cmd EmptyString = Some (Reg i).
Proof.
  intros Ht. apply ffmpeg_tool_inv in Ht as (d & dev & Hfree & _ & ->).
  simpl. rewrite lookup_insert_eq. eauto.
Qed.

End ToolEffects.

(** ** More on the ledger, the probe and the checks of [reencode] *)

Section LedgerMore.

Context (E : env).

(** X6. The ledger is keyed by content: a failure recorded for one file is
    found for every other file that holds the same bytes. *)
Theorem ledger_is_keyed_by_content (w w1 : world) (f1 f2 : string)
    (data : list byte) (crf : Z) (preset : string) (v : Z) :
  w_hashes w !! f1 = None -> w_hashes w !! f2 = None ->
  FS.read_file (w_fs w) f1 = Ret data ->
  FS.read_file (w_fs w) f2 = Ret data ->
  BadEncodingDatabase_insert E f1 crf preset v w = (Ret tt, w1) ->
  (BadEncodingDatabase_check E f2 crf preset w1).1 = Ret (Some v).
Proof.
  intros Hm1 Hm2 Hr1 Hr2. rewrite insert_run, check_run.
  unfold hash_of at 1. rewrite Hm1, Hr1.
  destruct (fits_int64 crf) eqn:Hcrf; [|done].
  destruct (fits_int64 v); [|done]. simpl.
  destruct (w_ledger w) as [rows|]; [|done].
  destruct (existsb (key_matches (sha1 E data) crf preset) rows) eqn:Hex; [done|].
  intros [= <-].
  assert (Hh : hash_of E
            (set_ledger
               (Some (rows ++ [ {| r_hash := sha1 E data; r_crf := crf;
                                   r_preset := preset; r_output_bytes := v |} ]))
               (log_event (SqlInsert (sha1 E data) crf preset v)
                  (with_hash f1 (sha1 E data) w)))
            f2 = Ret (sha1 E data)).
  { unfold hash_of. simpl.
    destruct (decide (f1 = f2)) as [->|Hne].
    - by rewrite lookup_insert_eq.
    - rewrite lookup_insert_ne by done. by rewrite Hm2, Hr2. }
  rewrite Hh. simpl. by rewrite select_app_new.
Qed.

(** X7. [hash_file] reads a path once: after a call has returned, every later
    call for the path returns the same digest and touches nothing,
    whatever has become of the file. *)
Theorem hash_file_is_memoized (w w1 w2 : world) (p : string) (h : list byte) :
  BadEncodingDatabase_hash_file E p w = (Ret h, w1) ->
  w_hashes w2 = w_hashes w1 ->
  BadEncodingDatabase_hash_file E p w2 = (Ret h, w2).
Proof.
  rewrite !hash_file_run. intros H1 H2.
  assert (Hm : w_hashes w1 !! p = Some h).
  { destruct (hash_of E w p) as [h'|]; [|done]. injection H1 as -> <-.
    unfold with_hash. simpl. apply lookup_insert_eq. }
  unfold hash_of. rewrite H2, Hm. unfold with_hash.
  rewrite H2, (insert_id _ _ _ Hm), <- H2. by rewrite set_hashes_same.
Qed.

(** X8. The outcomes of [Probe.isvideo].  It returns [True] with the
    probe memoized; it returns [False] when ffprobe ran and its report
    does not have exactly one video stream, at most one audio stream and
    a duration; two failures are not caught: that of ffprobe itself, raised
    as [CalledProcessError], and that of [float] on the duration of a
    report that passed the checks, raised as [ValueError].  Nothing is
    memoized unless it returns [True]. *)
Theorem isvideo_outcomes (w w' : world) (f : string) (r : res bool) :
  Probe_isvideo E f w = (r, w') ->
  match r with
  | Ret true => is_Some (w_probes w' !! f)
  | Ret false =>
      w_probes w' = w_probes w /\
      exists data,
        ext_ffprobe E (w_fs w) (ffprobe_cmd f) = Some data /\
        (length (codecs_of "video" (pd_streams data)) <> 1%nat \/
         (1 < length (codecs_of "audio" (pd_streams data)))%nat \/
         mjoin (pd_format data) = None)
  | Raise e =>
      w_probes w' = w_probes w /\
      (e = CalledProcessError /\
       ext_ffprobe E (w_fs w) (ffprobe_cmd f) = None
       \/
       e = OtherError "ValueError" /\
       exists data duration,
         ext_ffprobe E (w_fs w) (ffprobe_cmd f) = Some data /\
         length (codecs_of "video" (pd_streams data)) = 1%nat /\
         (length (codecs_of "audio" (pd_streams data)) <= 1)%nat /\
         mjoin (pd_format data) = Some duration /\
         float_accepts E duration = false)
  end.
Proof.
  intros Hrun.
  cut (wp (Probe_isvideo E f)
         (fun r w' =>
            match r with
            | Ret true => is_Some (w_probes w' !! f)
            | Ret false =>
                w_probes w' = w_probes w /\
                exists data,
                  ext_ffprobe E (w_fs w) (ffprobe_cmd f) = Some data /\
                  (length (codecs_of "video" (pd_streams data)) <> 1%nat \/
                   (1 < length (codecs_of "audio" (pd_streams data)))%nat \/
                   mjoin (pd_format data) = None)
            | Raise e =>
                w_probes w' = w_probes w /\
                (e = CalledProcessError /\
                 ext_ffprobe E (w_fs w) (ffprobe_cmd f) = None
                 \/
                 e = OtherError "ValueError" /\
                 exists data duration,
                   ext_ffprobe E (w_fs w) (ffprobe_cmd f) = Some data /\
                   length (codecs_of "video" (pd_streams data)) = 1%nat /\
                   (length (codecs_of "audio" (pd_streams data)) <= 1)%nat /\
                   mjoin (pd_format data) = Some duration /\
                   float_accepts E duration = false)
            end) w).
  { intros Hwp. exact (wp_outcome _ _ _ _ _ Hwp Hrun). }
  clear Hrun. unfold Probe_isvideo, Probe_probe.
  fold (ffprobe_cmd f).
  wp_steps.
  all: try (rewrite decide_True by done).
  all: try (rewrite decide_False by done).
  all: repeat wp_step.
  all: unfold ffprobe_tool in *.
  all: try (destruct (ext_ffprobe E (w_fs w) (ffprobe_cmd f)) as [d|] eqn:Hext;
            simplify_eq).
  all: try done.
  all: try (simpl; by rewrite lookup_insert_eq).
  all: try (split; [reflexivity|]; eexists; split; [reflexivity|]).
  all: try (apply Nat.eqb_neq in Hc; by left).
  all: try (apply Nat.leb_gt in Hc0; right; by left).
  all: try (right; right;
            destruct (pd_format out) as [[?|]|]; simpl in *; done).
  - split; [reflexivity|]. right. split; [reflexivity|].
    exists out, s0. rewrite Hm0.
    apply Nat.eqb_eq in Hc. apply Nat.leb_le in Hc0. auto.
  - split; [reflexivity|]. left. auto.
Qed.

(** X9. A path that is no regular file, a symbolic link, or an output path at
    which something exists makes [reencode] raise the error of
    [Log.error] before it probes, encodes or touches anything. *)
Theorem reencode_rejects_unusable_paths (w : world) (in_file out_file : string)
    (crf : Z) (preset : string) (force : bool) (extra_args : list string)
    (dont_copy : bool) :
  FS.isfile (w_fs w) in_file = false \/
  FS.islink (w_fs w) in_file = true \/
  FS.exists_ (w_fs w) (mp4_path out_file) = true ->
  reencode E in_file out_file crf preset force extra_args dont_copy w
  = (Raise ErrorCalled, w).
Proof.
  intros H.
  cut (wp (reencode E in_file out_file crf preset force extra_args dont_copy)
         (fun r w' => (r, w') = (Raise ErrorCalled, w)) w).
  { unfold wp. by destruct (reencode _ _ _ _ _ _ _ _ _). }
  unfold reencode, path_isfile, path_islink, path_exists.
  fold (mp4_path out_file).
  do 4 wp_step; [|reflexivity].
  do 4 wp_step; [|reflexivity].
  do 4 wp_step; [|reflexivity].
  exfalso. apply negb_true_iff in Hc0, Hc1.
  destruct H as [H|[H|H]]; congruence.
Qed.

End LedgerMore.

(** ** The files before and after a run of [reencode] *)

(** Puts the worlds of a leaf in normal form. *)
Ltac norm_fs :=
  cbn [w_fs w_ledger w_hashes w_probes w_trace with_hash
       set_fs set_ledger set_hashes set_probes log_event] in *.

(** Names the target of the encoder run of a leaf. *)
Ltac name_target :=
  try match goal with
      | Hr : ffmpeg_tool _ _ ?cmd = Some _ |- _ =>
          let Hlast := fresh "Hlast" in
          eassert (Hlast : List.last cmd EmptyString = _)
            by (rewrite app_assoc, last_app_nonempty by discriminate;
                cbn [List.last]; reflexivity)
      end.

Section ReencodeFiles.

Context (E : env).

Lemma ffmpeg_tool_inv' (fs fs2 : filesystem) (cmd : list string) (out target : string) :
  ffmpeg_tool E fs cmd = Some (out, fs2) ->
  List.last cmd EmptyString = target ->
  names fs !! target = None /\
  (forall p data, holds fs p data -> holds fs2 p data) /\
  (forall p, p <> target -> names fs2 !! p = names fs !! p) /\
  exists i, names fs2 !! target = Some (Reg i).
Proof.
  intros Ht <-. split; [|split; [|split]].
  - by apply ffmpeg_tool_inv in Ht as (d & dev & Hfree & _ & ->).
  - intros p data. by apply (ffmpeg_tool_keeps E _ _ _ _ _ _ Ht).
  - intros p. by apply (ffmpeg_tool_names E _ _ _ _ _ Ht).
  - by apply (ffmpeg_tool_target E _ _ _ _ Ht).
Qed.

Lemma ffmpeg_tool_writes (fs fs2 : filesystem) (cmd : list string) (out target : string) :
  ffmpeg_tool E fs cmd = Some (out, fs2) ->
  List.last cmd EmptyString = target ->
  exists data, ext_ffmpeg E fs cmd = Some (out, data) /\ holds fs2 target data.
Proof.
  intros Ht <-. unfold ffmpeg_tool in Ht.
  destruct (ext_ffmpeg E fs cmd) as [[o data]|]; [|done].
  destruct (names fs !! List.last cmd EmptyString) eqn:Hfree; [done|].
  destruct (FS.create fs (List.last cmd EmptyString) data) as [fs'|] eqn:Hc; [|done].
  injection Ht as <- <-. apply create_inv in Hc as (dev & -> & Hsz).
  exists data. split; [done|].
  exists (length (inodes fs)), {| i_dev := dev; i_data := data |}.
  simpl. rewrite lookup_insert_eq. split; [done|]. split; [|done].
  rewrite lookup_app_r by done. by rewrite Nat.sub_diag.
Qed.

Lemma ffmpeg_tool_output (fs fs2 : filesystem) (cmd : list string) (out target : string) :
  ffmpeg_tool E fs cmd = Some (out, fs2) ->
  List.last cmd EmptyString = target ->
  exists data, holds fs2 target data.
Proof.
  intros Ht <-. apply ffmpeg_tool_inv in Ht as (data & dev & Hfree & _ & ->).
  exists data, (length (inodes fs)), {| i_dev := dev; i_data := data |}.
  simpl. rewrite lookup_insert_eq. split; [done|]. split; [|done].
  rewrite lookup_app_r by done. by rewrite Nat.sub_diag.
Qed.

(** Proves that a name is free in the file system of a leaf, from the
    steps that led to it. *)
Ltac chase_names :=
  repeat first
    [ assumption
    | progress cbn [w_fs w_ledger w_hashes w_probes w_trace with_hash
                    set_fs set_ledger set_hashes set_probes log_event
                    names FS.set_names]
    | rewrite lookup_insert_ne by congruence
    | match goal with
      | Hr : ffmpeg_tool _ ?fs ?cmd = Some (_, ?fs2),
        Hl : List.last ?cmd EmptyString = _ |- names ?fs2 !! _ = None =>
          rewrite (proj1 (proj2 (proj2 (ffmpeg_tool_inv' _ _ _ _ _ Hr Hl))))
            by congruence
      | Hc : copy_file _ ?dst ?w1 = (_, ?w2) |- names (w_fs ?w2) !! _ = None =>
          rewrite (copy_file_names _ _ _ _ _ _ Hc); [ | chase_names | congruence ]
      | H : w_fs _ = w_fs _ |- _ => rewrite H
      end ].

(** Every regular file outside the scratch directories keeps its bytes. *)
Lemma reencode_keeps_wp w in_file out_file crf preset force extra_args dont_copy :
  wp (reencode E in_file out_file crf preset force extra_args dont_copy)
     (fun r w' =>
        forall p data, holds (w_fs w) p data ->
          Forall (fun d => FS.under d p = false) (tmp_candidates E) ->
          holds (w_fs w') p data) w.
Proof.
  exec_reencode.
  all: use_probe_step.
  all: norm_fs.
  all: intros p data Hheld Hout.
  all: repeat match goal with
              | Hin : In ?d (tmp_candidates E) |- _ =>
                  apply List.Forall_forall with (x := d) in Hout; [|exact Hin]
              end.
  all: repeat first
         [ assumption
         | apply holds_rmtree; [|assumption]
         | eapply copy_file_keeps; [eassumption|]
         | eapply ffmpeg_tool_keeps; [eassumption|]
         | apply holds_mkdir; [|assumption]
         | match goal with H : w_fs _ = w_fs _ |- _ => rewrite H end ].
Qed.

(** No name but the output path is taken after the run that was free
    before it.  The output path is taken to lie outside the scratch
    directory that the run makes, which is one that is free. *)
Lemma reencode_names_wp w in_file out_file crf preset force extra_args dont_copy :
  Forall (fun d => d <> EmptyString /\ endswith d "/" = false) (tmp_candidates E) ->
  Forall (fun d => names (w_fs w) !! d = None ->
                   FS.under d (mp4_path out_file) = false) (tmp_candidates E) ->
  names (w_fs w) !! mp4_path out_file = None ->
  wp (reencode E in_file out_file crf preset force extra_args dont_copy)
     (fun r w' =>
        forall p, p <> mp4_path out_file -> names (w_fs w) !! p = None ->
                  names (w_fs w') !! p = None) w.
Proof.
  intros Hshape Hout Hfree_out. unfold mp4_path in *.
  exec_reencode.
  all: use_probe_step.
  all: norm_fs.
  all: intros p Hp Hnone.
  all: try match goal with
           | Hin : In ?d (tmp_candidates E), Hf : names (w_fs _) !! ?d = None |- _ =>
               apply List.Forall_forall with (x := d) in Hout; [|exact Hin];
               apply List.Forall_forall with (x := d) in Hshape; [|exact Hin];
               destruct Hshape as [Hne Hslash];
               pose proof Hf as Hf'; rewrite Hfs in Hf'; specialize (Hout Hf');
               pose proof (under_refl d) as Hself;
               pose proof (join_under d
                             (if endswith out_file ".mp4" then out_file
                              else as_mp4 out_file) Hne Hslash) as Hjoin
           end.
  all: try match goal with
           | |- names (FS.rmtree _ ?d) !! ?q = None =>
               destruct (FS.under d q) eqn:Hu;
               [ by apply rmtree_under | rewrite rmtree_lookup by exact Hu ]
           end.
  all: name_target.
  all: chase_names.
Qed.

(** A returned path is the mp4 path of the output, at which nothing
    existed, and names a regular file afterwards. *)
Lemma reencode_returns_wp w in_file out_file crf preset force extra_args dont_copy :
  wp (reencode E in_file out_file crf preset force extra_args dont_copy)
     (fun r w' =>
        forall p, r = Ret (Some p) ->
          p = mp4_path out_file /\
          endswith p ".mp4" = true /\
          FS.exists_ (w_fs w) p = false /\
          (Forall (fun d => names (w_fs w) !! d = None -> FS.under d p = false)
             (tmp_candidates E) ->
           exists data, holds (w_fs w') p data)) w.
Proof.
  pose proof (mp4_path_endswith out_file) as Hends.
  unfold mp4_path in *.
  exec_reencode.
  all: intros p Hres; try discriminate Hres; injection Hres as <-.
  all: use_probe_step.
  all: norm_fs.
  all: split; [reflexivity|]; split; [exact Hends|];
       split; [by apply negb_true_iff|]; intros Hout.
  all: try match goal with
           | Hin : In ?d (tmp_candidates E), Hf : names (w_fs _) !! ?d = None |- _ =>
               apply List.Forall_forall with (x := d) in Hout; [|exact Hin];
               pose proof Hf as Hf'; rewrite Hfs in Hf'; specialize (Hout Hf')
           end.
  all: name_target.
  all: apply negb_true_iff in Hc0.
  all: destruct (isfile_not_link _ _ Hc Hc0) as [i Hi].
  all: rewrite ?Hfs in *.
  all: match goal with
       | Hcopy : copy_file ?src _ ?wpre = (Ret tt, _) |- _ =>
           let Hsrc := fresh "Hsrc" in
           first
             [ assert (Hsrc : exists j, names (w_fs wpre) !! src = Some (Reg j))
                 by (exists i; norm_fs; cbn [names FS.set_names]; rewrite ?Hfs;
                     rewrite ?lookup_insert_ne by congruence; exact Hi)
             | assert (Hsrc : exists j, names (w_fs wpre) !! src = Some (Reg j))
                 by (norm_fs;
                     match goal with
                     | Hr : ffmpeg_tool _ _ _ = Some _, Hl : List.last _ _ = _ |- _ =>
                         exact (proj2 (proj2 (proj2 (ffmpeg_tool_inv' _ _ _ _ _ Hr Hl))))
                     end) ];
           destruct Hsrc as [j Hj];
           destruct (copy_file_makes_file _ _ _ _ j Hcopy Hj) as [data Hd]
       end.
  all: exists data; first [ exact Hd | apply holds_rmtree; [exact Hd | exact Hout] ].
Qed.

(** X10. Whatever its arguments and its outcome, [reencode] leaves every
    regular file that is not the ledger's database and lies outside the
    scratch directories with the bytes it had: it never changes or removes
    the input or any other such file.  (The database is [w_ledger] in the
    world, apart from the files of [w_fs].) *)
Theorem reencode_keeps_files (w w' : world) (in_file out_file : string)
    (crf : Z) (preset : string) (force : bool) (extra_args : list string)
    (dont_copy : bool) (r : res (option string)) (p : string) (data : list byte) :
  reencode E in_file out_file crf preset force extra_args dont_copy w = (r, w') ->
  is_ledger_file p = false ->
  holds (w_fs w) p data ->
  Forall (fun d => FS.under d p = false) (tmp_candidates E) ->
  holds (w_fs w') p data.
Proof.
  intros Hrun _.
  exact (wp_outcome _ _ _ _ _ (reencode_keeps_wp w _ _ _ _ _ _ _) Hrun p data).
Qed.


(** X12. A path that [reencode] returns is the output path with the
    extension [.mp4]; nothing existed there before the run, and after it
    the path names a regular file (when it lies outside the scratch
    directories). *)
Theorem reencode_returns_a_new_mp4 (w w' : world) (in_file out_file : string)
    (crf : Z) (preset : string) (force : bool) (extra_args : list string)
    (dont_copy : bool) (p : string) :
  reencode E in_file out_file crf preset force extra_args dont_copy w
  = (Ret (Some p), w') ->
  p = mp4_path out_file /\
  endswith p ".mp4" = true /\
  FS.exists_ (w_fs w) p = false /\
  (Forall (fun d => FS.under d p = false) (tmp_candidates E) ->
   exists data, holds (w_fs w') p data).
Proof.
  intros Hrun.
  destruct (wp_outcome _ _ _ _ _ (reencode_returns_wp w _ _ _ _ _ _ _) Hrun p eq_refl)
    as (H1 & H2 & H3 & H4).
  split; [exact H1|]. split; [exact H2|]. split; [exact H3|].
  intros Hout. apply H4. eapply List.Forall_impl; [|exact Hout]. auto.
Qed.

End ReencodeFiles.

(** From [l = evs ++ t] with [l] a list that ends in [t], [evs] is the
    front of [l]. *)
Ltac front_events H :=
  lazymatch type of H with
  | ?l = ?evs ++ ?t =>
      let pre := fresh "pre" in
      let Hpre := fresh "Hpre" in
      evar (pre : list event);
      assert (Hpre : l = pre ++ t) by (subst pre; split_trace);
      subst pre;
      rewrite Hpre in H; apply app_inv_tail in H; clear Hpre; subst evs
  end.

(** ** The runs of the tools *)

Section Runs.

Context (E : env).

(** X14. A run of [reencode] spawns ffprobe at most once and ffmpeg at
    most once, whatever its arguments and its outcome. *)
Theorem reencode_spawns_each_tool_once (w w' : world) (in_file out_file : string)
    (crf : Z) (preset : string) (force : bool) (extra_args : list string)
    (dont_copy : bool) (r : res (option string)) (evs : list event) :
  reencode E in_file out_file crf preset force extra_args dont_copy w = (r, w') ->
  events_between w w' evs ->
  (spawns_of "ffprobe" evs <= 1)%nat /\ (spawns_of "ffmpeg" evs <= 1)%nat.
Proof.
  intros Hrun.
  cut (wp (reencode E in_file out_file crf preset force extra_args dont_copy)
         (fun r w' =>
            events_between w w' evs ->
            (spawns_of "ffprobe" evs <= 1)%nat /\ (spawns_of "ffmpeg" evs <= 1)%nat) w).
  { intros Hwp. exact (wp_outcome _ _ _ _ _ Hwp Hrun). }
  clear Hrun r w'.
  exec_reencode.
  all: use_probe_step.
  all: unfold events_between; norm_world; intros Hev.
  all: front_events Hev.
  all: unfold spawns_of; simpl; lia.
Qed.

(** X15. Without [force], [reencode] returns without a run of the encoder
    only for one of two causes: the probe of the input says hevc with aac
    or no audio, or the ledger holds a non-zero size for the input's
    digest, the crf and the preset. *)
Theorem reencode_skips_encoder_only_for_cause (w w' : world)
    (in_file out_file : string) (crf : Z) (preset : string)
    (extra_args : list string) (dont_copy : bool) (res : option string)
    (evs : list event) :
  reencode E in_file out_file crf preset false extra_args dont_copy w = (Ret res, w') ->
  events_between w w' evs ->
  Forall (fun e => ~ is_encoder_run e) evs ->
  (exists t, w_probes w' !! in_file = Some t /\ t.1.1 = "hevc" /\
             (t.1.2 = Some "aac" \/ t.1.2 = None)) \/
  (exists h v, hash_of E w in_file = Ret h /\
               select_output_bytes (ledger_rows w) h crf preset = Some v /\
               v <> 0).
Proof.
  intros Hrun.
  cut (wp (reencode E in_file out_file crf preset false extra_args dont_copy)
         (fun r w' =>
            forall res, r = Ret res ->
            events_between w w' evs ->
            Forall (fun e => ~ is_encoder_run e) evs ->
            (exists t, w_probes w' !! in_file = Some t /\ t.1.1 = "hevc" /\
                       (t.1.2 = Some "aac" \/ t.1.2 = None)) \/
            (exists h v, hash_of E w in_file = Ret h /\
                         select_output_bytes (ledger_rows w) h crf preset = Some v /\
                         v <> 0)) w).
  { intros Hwp. exact (wp_outcome _ _ _ _ _ Hwp Hrun _ eq_refl). }
  clear Hrun res w'.
  exec_reencode.
  all: intros res Hres; try discriminate Hres; clear Hres.
  all: use_probe_step.
  all: unfold events_between; norm_world; intros Hev Hno.
  all: front_events Hev.
  all: try solve
         [ exfalso;
           repeat match goal with
                  | H : Forall _ (_ :: _) |- _ =>
                      let Hx := fresh "Hx" in
                      apply Forall_cons in H as [Hx H];
                      try (apply Hx; reflexivity)
                  end ].
  all: try solve
         [ left; exists t; rewrite ?Hcp; split; [exact Hcached|];
           destruct (String.eqb t.1.1 "hevc") eqn:H1;
             [|simpl in Hif; discriminate Hif];
           apply String.eqb_eq in H1; split; [exact H1|];
           destruct t.1.2 as [a1|]; [|by right];
           destruct (String.eqb a1 "aac") eqn:H2;
             [|simpl in Hif; discriminate Hif];
           apply String.eqb_eq in H2; subst a1; by left ].
  all: right.
  all: repeat match goal with
              | Hr : Some (ledger_rows _) = Some _ |- _ => injection Hr as <-
              end.
  all: match goal with
       | Ht : truthy (select_output_bytes ?rows ?h _ _) = true |- _ =>
           destruct (select_output_bytes rows h crf preset) eqn:Hsel;
           [|simpl in Ht; discriminate Ht];
           exists h
       end.
  all: eexists.
  all: (split; [|split]).
  all: try (erewrite <- (hash_of_scratch E w w0) by eassumption; exact Hhash).
  all: try (unfold ledger_rows in *; rewrite <- Hl; exact Hsel).
  all: simpl in *; intros ->; discriminate.
Qed.

(** A path returned after a run of the encoder: the ledger is as
    before, the percentage is logged, and the path holds the encoder's
    output. *)
Lemma reencode_encoded_wp w in_file out_file crf preset force extra_args dont_copy
    (evs : list event) :
  wp (reencode E in_file out_file crf preset force extra_args dont_copy)
     (fun r w' =>
        forall p, r = Ret (Some p) ->
        events_between w w' evs ->
        Exists is_encoder_run evs ->
        ledger_rows w' = ledger_rows w /\
        exists percent st out_size,
          In (LogOutput percent (st_size st) out_size) evs /\
          FS.stat (w_fs w) in_file = Ret st /\
          percent_of out_size (st_size st) = Ret percent /\
          (force = false -> Float.ge_int percent 100 = false) /\
          (Forall (fun d => names (w_fs w) !! d = None -> FS.under d p = false)
             (tmp_candidates E) ->
           exists data, holds (w_fs w') p data /\
                        Z.of_nat (length data) = out_size /\
                        encoder_output E (w_fs w) evs data)) w.
Proof.
  exec_reencode.
  all: intros p Hres; try discriminate Hres; injection Hres as <-.
  all: use_probe_step.
  all: unfold events_between; norm_world; intros Hev Hex.
  all: front_events Hev.
  all: try solve
         [ exfalso;
           repeat (apply Exists_cons in Hex as [Hex|Hex];
                   [simpl in Hex; try discriminate Hex; try contradiction|]);
           by apply Exists_nil in Hex ].
  all: clear Hex.
  all: name_target.
  all: rewrite <- Hfs in Hc, Hc0.
  all: match goal with
       | Hr : ffmpeg_tool _ _ _ = Some _ |- _ =>
           destruct (encode_phase _ _ _ _ _ _ _ _ _ _ Hc Hc0 Hm Hfree Hlast Hr)
             as (Hst_in & a0' & Hst_out & _);
           destruct (ffmpeg_tool_writes _ _ _ _ _ _ Hr Hlast)
             as (data & Hext & Hdata)
       end.
  all: rewrite Hst_in in Hm1; injection Hm1 as <-.
  all: rewrite Hst_out in Hm0; injection Hm0 as ->.
  all: (split; [by destruct (w_ledger w) |]).
  all: eexists _, a, _.
  all: (split; [left; reflexivity|]).
  all: (split; [by rewrite <- Hfs|]).
  all: (split;
        [ match goal with
          | Hz : (st_size _ =? 0) = false,
            Hr : Float.round_to_double _ _ = Some ?f,
            Hr1 : Float.round1 ?f = Some _ |- _ =>
              unfold percent_of; by rewrite Hz, Hr, Hr1
          end |]).
  all: (split; [intros Hforce; try discriminate Hforce; simpl in *; assumption|]).
  all: intros Hout.
  all: apply List.Forall_forall with (x := tmp_dir) in Hout; [|exact Htmp].
  all: match goal with
       | Hin : In ?d (tmp_candidates E), Hf : names (w_fs _) !! ?d = None |- _ =>
           pose proof Hf as Hf'; rewrite Hfs in Hf'; specialize (Hout Hf')
       end.
  all: exists data.
  all: destruct (holds_stat _ _ _ Hdata) as (st' & Hst' & Hsize).
  all: rewrite Hst_out in Hst'; injection Hst' as <-.
  all: (split; [|split; [by symmetry|]]).
  all: try match goal with
           | |- encoder_output _ _ _ _ =>
               unfold encoder_output; rewrite Hfs in Hext;
               eexists _, _, _, _;
               (split; [right; left; reflexivity|]);
               (split; [reflexivity|]);
               (split; [exact Htmp|]); exact Hext
           end.
  all: apply holds_rmtree; [|exact Hout].
  all: match goal with
       | Hcopy : copy_file _ _ _ = (Ret tt, _) |- _ =>
           apply (copy_file_places _ _ _ _ data) in Hcopy as (_ & Hdst & _);
           [exact Hdst | norm_fs; exact Hdata]
       end.
Qed.

(** X13. When [reencode] returns a path after a run of the encoder, the
    rows of the ledger are as before, the run has logged the percentage of
    the output size in the input size, which is below 100 unless [force] is
    set, and the returned path holds a file of the logged output size. *)
Theorem reencode_success_after_encoding (w w' : world) (in_file out_file : string)
    (crf : Z) (preset : string) (force : bool) (extra_args : list string)
    (dont_copy : bool) (p : string) (evs : list event) :
  reencode E in_file out_file crf preset force extra_args dont_copy w
  = (Ret (Some p), w') ->
  events_between w w' evs ->
  Exists is_encoder_run evs ->
  ledger_rows w' = ledger_rows w /\
  exists percent st out_size,
    In (LogOutput percent (st_size st) out_size) evs /\
    FS.stat (w_fs w) in_file = Ret st /\
    percent_of out_size (st_size st) = Ret percent /\
    (force = false -> Float.ge_int percent 100 = false) /\
    (Forall (fun d => FS.under d p = false) (tmp_candidates E) ->
     exists data, holds (w_fs w') p data /\ Z.of_nat (length data) = out_size).
Proof.
  intros Hrun Hev Hex.
  destruct (wp_outcome _ _ _ _ _
              (reencode_encoded_wp w _ _ _ _ _ _ _ evs) Hrun p eq_refl Hev Hex)
    as (Hrows & percent & st & out_size & H1 & H2 & H3 & H4 & H5).
  split; [exact Hrows|]. exists percent, st, out_size.
  repeat (split; [assumption|]).
  intros Hout.
  destruct H5 as (data & Hd & Hlen & _);
    [eapply List.Forall_impl; [|exact Hout]; auto|].
  by exists data.
Qed.


End Runs.

(** ** [humansize] *)

Lemma same_text_eq (a : res string) (y : string) :
  same_text a (Ret y) = true -> a = Ret y.
Proof. destruct a as [x|]; simpl; [|done]. by intros ->%String.eqb_eq. Qed.

Lemma humansize_multiples_checked :
  forallb (fun q =>
    forallb (fun i =>
      same_text (Humansize.humansize (Z.of_nat q * 1024 ^ Z.of_nat i))
                (Ret (str (Z.of_nat q) +:+ nth i Humansize.suffixes EmptyString)))
      (seq 0 6))
    (seq 1 1023) = true.
Proof. vm_compute. reflexivity. Qed.

(** X16. A whole number of units below 1024 is printed as that number,
    without decimals, followed by the unit: [q * 1024^i] bytes give the
    digits of [q] and the [i]-th suffix. *)
Theorem humansize_exact_multiples (q : Z) (i : nat) :
  1 <= q < 1024 -> (i <= 5)%nat ->
  Humansize.humansize (q * 1024 ^ Z.of_nat i)
  = Ret (str q +:+ nth i Humansize.suffixes EmptyString).
Proof.
  intros Hq Hi. pose proof humansize_multiples_checked as H.
  rewrite forallb_forall in H.
  specialize (H (Z.to_nat q)). rewrite Z2Nat.id in H by lia.
  assert (Hin : In (Z.to_nat q) (seq 1 1023)) by (apply in_seq; lia).
  specialize (H Hin). rewrite forallb_forall in H.
  apply same_text_eq, H, in_seq. lia.
Qed.

Section HumansizeFacts.

Import Humansize.

Lemma rhe_scale (a b c : Z) : 0 < b -> 0 < c -> Float.rhe (a * c) (b * c) = Float.rhe a b.
Proof.
  intros Hb Hc. unfold Float.rhe.
  rewrite Z.div_mul_cancel_r by lia.
  rewrite Z.mul_mod_distr_r by lia.
  replace (2 * (a mod b * c) ?= b * c) with (2 * (a mod b) ?= b); [done|].
  destruct (Z.compare_spec (2 * (a mod b)) b);
    destruct (Z.compare_spec (2 * (a mod b * c)) (b * c)); try reflexivity; nia.
Qed.

Lemma normal_mantissa (n : Z) :
  0 < n < 2 ^ 53 ->
  0 <= Z.log2 n <= 52 /\
  2 ^ 52 <= n * 2 ^ (52 - Z.log2 n) < 2 ^ 53.
Proof.
  intros Hn. pose proof (Z.log2_spec n ltac:(lia)) as [Hlo Hhi].
  pose proof (Z.log2_nonneg n) as Hl0.
  assert (Hl : Z.log2 n <= 52).
  { assert (Z.log2 n < 53); [|lia]. apply Z.log2_lt_pow2; lia. }
  split; [lia|].
  replace (2 ^ 52) with (2 ^ Z.log2 n * 2 ^ (52 - Z.log2 n))
    by (rewrite <- Z.pow_add_r by lia; f_equal; lia).
  replace (2 ^ 53) with (2 ^ Z.succ (Z.log2 n) * 2 ^ (52 - Z.log2 n))
    by (rewrite <- Z.pow_add_r by lia; f_equal; lia).
  assert (0 < 2 ^ (52 - Z.log2 n)) by (apply Z.pow_pos_nonneg; lia).
  nia.
Qed.

(** An int below [2^53] is converted to float exactly. *)
Lemma of_Z_exact (n : Z) :
  0 < n < 2 ^ 53 ->
  Float.of_Z n = Some (Float.mk (n * 2 ^ (52 - Z.log2 n)) (Z.log2 n - 52)).
Proof.
  intros Hn. destruct (normal_mantissa n Hn) as [Hl Hm].
  pose proof (Z.log2_spec n ltac:(lia)) as [Hlo Hhi].
  unfold Float.of_Z, Float.round_to_double.
  replace (n =? 0) with false by (symmetry; apply Z.eqb_neq; lia).
  change (Z.log2 1) with 0. rewrite Z.sub_0_r.
  replace (0 <=? Z.log2 n) with true by (symmetry; apply Z.leb_le; lia).
  replace (n <? 1 * 2 ^ Z.log2 n) with false by (symmetry; apply Z.ltb_ge; lia).
  rewrite Z.sub_0_r, Z.max_l by lia.
  assert (Hs : Float.scaled n 1 (Z.log2 n - 52) = n * 2 ^ (52 - Z.log2 n)).
  { unfold Float.scaled. destruct (0 <=? Z.log2 n - 52) eqn:He.
    - apply Z.leb_le in He.
      replace (Z.log2 n - 52) with 0 by lia.
      replace (52 - Z.log2 n) with 0 by lia.
      rewrite Z.pow_0_r, !Z.mul_1_r. apply rhe_1.
    - rewrite rhe_1. f_equal. f_equal. lia. }
  rewrite Hs.
  replace (n * 2 ^ (52 - Z.log2 n) =? 2 ^ 53) with false
    by (symmetry; apply Z.eqb_neq; lia).
  replace (1024 <=? Z.log2 n - 52 + 52) with false
    by (symmetry; apply Z.leb_gt; lia).
  reflexivity.
Qed.

(** A normal float is at least 1024 exactly when its exponent says so. *)
Lemma ge_1024_normal (m e : Z) :
  2 ^ 52 <= m < 2 ^ 53 ->
  Float.ge_int (Float.mk m e) 1024 = (10 <=? e + 52).
Proof.
  intros Hm. unfold Float.ge_int. simpl.
  destruct (0 <=? e) eqn:He.
  - apply Z.leb_le in He.
    assert (0 < 2 ^ e) by (apply Z.pow_pos_nonneg; lia).
    replace (10 <=? e + 52) with true by (symmetry; apply Z.leb_le; lia).
    apply Z.leb_le. change 1024 with (1024 * 1). nia.
  - apply Z.leb_gt in He.
    change 1024 with (2 ^ 10). rewrite <- Z.pow_add_r by lia.
    destruct (10 <=? e + 52) eqn:Hc.
    + apply Z.leb_le in Hc. apply Z.leb_le.
      assert (2 ^ (10 + - e) <= 2 ^ 52) by (apply Z.pow_le_mono_r; lia). lia.
    + apply Z.leb_gt in Hc. apply Z.leb_gt.
      assert (2 ^ 53 <= 2 ^ (10 + - e)) by (apply Z.pow_le_mono_r; lia). lia.
Qed.

(** The loop on a normal float divides as often as the exponent allows,
    and at most until the last unit. *)
Lemma loop_normal (t : nat) (m e : Z) (i : nat) :
  2 ^ 52 <= m < 2 ^ 53 -> (i + t = 5)%nat ->
  loop t (Flt (Float.mk m e)) i
  = Ret (Flt (Float.mk m (e - 10 * Z.of_nat (Nat.min t (Z.to_nat ((e + 52) / 10))))),
         (i + Nat.min t (Z.to_nat ((e + 52) / 10)))%nat).
Proof.
  intros Hm. revert e i. induction t as [|k IH]; intros e i Hi.
  - simpl. rewrite Z.mul_0_r, Z.sub_0_r, Nat.add_0_r. reflexivity.
  - cbn [loop ge_1024]. rewrite (ge_1024_normal _ _ Hm).
    replace (i <? length suffixes - 1)%nat with true
      by (symmetry; apply Nat.ltb_lt; simpl; lia).
    destruct (10 <=? e + 52) eqn:Hc; cbn [andb].
    + apply Z.leb_le in Hc.
      unfold div_1024. cbn [mbind option_bind]. unfold float_div_1024. simpl.
      replace (2 ^ 52 <=? m) with true by (symmetry; apply Z.leb_le; lia).
      replace (-1074 <=? e - 10) with true by (symmetry; apply Z.leb_le; lia).
      cbn [andb]. rewrite IH by lia.
      assert (Hq : (e + 52) / 10 = (e - 10 + 52) / 10 + 1).
      { replace (e + 52) with (e - 10 + 52 + 1 * 10) by lia.
        apply Z.div_add. lia. }
      assert (0 <= (e - 10 + 52) / 10) by (apply Z.div_pos; lia).
      rewrite Hq, Z2Nat.inj_add by lia. change (Z.to_nat 1) with 1%nat.
      rewrite Nat.add_1_r. cbn [Nat.min].
      f_equal. f_equal; [|lia]. f_equal. f_equal. lia.
    + apply Z.leb_gt in Hc.
      assert (Hq : (e + 52) / 10 <= 0).
      { assert ((e + 52) / 10 < 1); [|lia]. apply Z.div_lt_upper_bound; lia. }
      replace (Z.to_nat ((e + 52) / 10)) with 0%nat by lia.
      rewrite Nat.min_0_r, Z.mul_0_r, Z.sub_0_r, Nat.add_0_r. reflexivity.
Qed.

Lemma loop_S (k : nat) (v : number) (i : nat) :
  loop (S k) v i
  = if ge_1024 v && (i <? 5)%nat then
      match div_1024 v with
      | Ret x => loop k (Flt x) (S i)
      | Raise e => Raise e
      end
    else Ret (v, i).
Proof. reflexivity. Qed.

Lemma unit_small (n : Z) : 0 <= n < 1024 -> unit_of n = 0%nat.
Proof.
  intros Hn. unfold unit_of.
  assert (Z.log2 n / 10 <= 0); [|lia].
  pose proof (Z.log2_nonneg n).
  assert (Z.log2 n < 10).
  { destruct (Z.eq_dec n 0) as [->|]; [done|]. apply Z.log2_lt_pow2; lia. }
  assert (Z.log2 n / 10 < 1); [|lia]. apply Z.div_lt_upper_bound; lia.
Qed.

(** What the loop leaves for an int below [2^53]: the exact quotient by
    the unit, whose hundredths are those of [n / 1024^unit]. *)
Lemma loop_exact (n : Z) :
  0 <= n < 2 ^ 53 ->
  exists v,
    loop (length suffixes - 1) (Int n) 0 = Ret (v, unit_of n) /\
    format_2f v
    = Ret (two_decimals (Float.rhe (100 * n) (1024 ^ Z.of_nat (unit_of n)))).
Proof.
  intros Hn. destruct (Z.ltb_spec n 1024) as [Hlt|Hge].
  - exists (Int n). rewrite (unit_small n) by lia. split.
    + change (length suffixes - 1)%nat with 5%nat. rewrite loop_S.
      cbn [ge_1024].
      replace (1024 <=? n) with false by (symmetry; apply Z.leb_gt; lia). done.
    + unfold format_2f. rewrite Z.abs_eq by lia.
      replace (n <? 0) with false by (symmetry; apply Z.ltb_ge; lia).
      change (1024 ^ Z.of_nat 0) with 1. rewrite rhe_1.
      destruct (Z.eq_dec n 0) as [->|Hn0]; [reflexivity|].
      rewrite of_Z_exact by lia.
      destruct (normal_mantissa n ltac:(lia)) as [Hl Hm].
      unfold hundredths, Float.scaled. simpl.
      replace (0 <=? - (Z.log2 n - 52)) with true by (symmetry; apply Z.leb_le; lia).
      replace (- (Z.log2 n - 52)) with (52 - Z.log2 n) by lia.
      rewrite Z.mul_assoc, rhe_scale, rhe_1; [done | lia |].
      apply Z.pow_pos_nonneg; lia.
  - destruct (normal_mantissa n ltac:(lia)) as [Hl Hm].
    assert (Hl10 : 10 <= Z.log2 n) by (apply Z.log2_le_pow2; lia).
    set (m := n * 2 ^ (52 - Z.log2 n)) in *.
    set (j := Nat.min 4 (Z.to_nat ((Z.log2 n - 52 - 10 + 52) / 10))).
    assert (Hq : Z.log2 n / 10 = (Z.log2 n - 52 - 10 + 52) / 10 + 1).
    { replace (Z.log2 n) with (Z.log2 n - 52 - 10 + 52 + 1 * 10) at 1 by lia.
      apply Z.div_add. lia. }
    assert (Hq0 : 0 <= (Z.log2 n - 52 - 10 + 52) / 10) by (apply Z.div_pos; lia).
    assert (Hu : unit_of n = S j).
    { unfold unit_of, j. rewrite Hq, Z2Nat.inj_add by lia.
      change (Z.to_nat 1) with 1%nat. rewrite Nat.add_1_r. reflexivity. }
    exists (Flt (Float.mk m (Z.log2 n - 52 - 10 - 10 * Z.of_nat j))).
    split.
    + change (length suffixes - 1)%nat with 5%nat. rewrite loop_S.
      cbn [ge_1024].
      replace (1024 <=? n) with true by (symmetry; apply Z.leb_le; lia).
      cbn [andb Nat.ltb Nat.leb].
      unfold div_1024. rewrite of_Z_exact by lia.
      cbn [mbind option_bind]. unfold float_div_1024.
      cbn [Float.f_mant Float.f_exp]. fold m.
      replace (2 ^ 52 <=? m) with true by (symmetry; apply Z.leb_le; lia).
      replace (-1074 <=? Z.log2 n - 52 - 10) with true
        by (symmetry; apply Z.leb_le; lia).
      cbn [andb]. rewrite (loop_normal 4 m _ 1 Hm eq_refl). fold j.
      by rewrite Hu.
    + unfold format_2f, hundredths, Float.scaled. simpl.
      assert (Hj : (j <= 4)%nat) by (unfold j; lia).
      replace (0 <=? - (Z.log2 n - 52 - 10 - 10 * Z.of_nat j)) with true
        by (symmetry; apply Z.leb_le; lia).
      rewrite Hu. f_equal. f_equal.
      replace (- (Z.log2 n - 52 - 10 - 10 * Z.of_nat j))
        with (10 * Z.of_nat (S j) + (52 - Z.log2 n)) by lia.
      rewrite Z.pow_add_r by lia.
      replace (2 ^ (10 * Z.of_nat (S j))) with (1024 ^ Z.of_nat (S j))
        by (rewrite Z.pow_mul_r by lia; reflexivity).
      unfold m. rewrite Z.mul_1_l, Z.mul_assoc.
      apply rhe_scale; apply Z.pow_pos_nonneg; lia.
Qed.

End HumansizeFacts.

(** X17. For every size below [2^53], [humansize] prints the size divided by
    the largest power of 1024 that does not exceed it (at most the fifth),
    rounded to the nearest hundredth with ties to even, without trailing
    zeros, followed by the name of that unit. *)
Theorem humansize_closed_form (n : Z) :
  0 <= n < 2 ^ 53 ->
  Humansize.humansize n
  = Ret (Humansize.rstrip_char "."
           (Humansize.rstrip_char "0"
              (Humansize.two_decimals
                 (Float.rhe (100 * n) (1024 ^ Z.of_nat (unit_of n)))))
         +:+ nth (unit_of n) Humansize.suffixes EmptyString).
Proof.
  intros Hn. destruct (loop_exact n Hn) as (v & Hloop & Hfmt).
  unfold Humansize.humansize. by rewrite Hloop, Hfmt.
Qed.

(** ** The command line *)

Section ReencodeSpecs.

Context (E : env).

(** The events of a run of [reencode]: with [dont_copy] set, a path is
    returned only after a run of the encoder. *)
Lemma reencode_trace_wp w in_file out_file crf preset force extra_args dont_copy :
  wp (reencode E in_file out_file crf preset force extra_args dont_copy)
     (fun r w' =>
        exists evs, events_between w w' evs /\
          (dont_copy = true -> forall p, r = Ret (Some p) ->
             Exists is_encoder_run evs)) w.
Proof.
  exec_reencode.
  all: use_probe_step.
  all: unfold events_between; norm_world.
  all: eexists; split; [split_trace|].
  all: intros Hdc p Hres; try discriminate Hres; try discriminate Hdc.
  all: find_encoder_run.
Qed.

(** Without [dont_copy], [reencode] returns a path whenever it
    returns. *)
Lemma reencode_copy_returns_wp w in_file out_file crf preset force extra_args :
  wp (reencode E in_file out_file crf preset force extra_args false)
     (fun r w' => r <> Ret None) w.
Proof. exec_reencode. all: discriminate. Qed.

End ReencodeSpecs.

Section Cli.

Context (E : env).
Context (benchmark : string -> string -> M unit).
Context (os_path_relpath : option string -> string -> res string).

(** X18. In the plain mode (no probe, benchmark, replace or replacelink),
    [main_run] leaves every file that is not the ledger's database and lies
    outside the scratch directories with its bytes, whatever the outcome;
    when it returns, the file was not skipped and the new file is in
    [outdir], under the name of the input with the extension [.mp4], where
    nothing existed before. *)
Theorem main_run_plain_mode (ra : RunArgs.t) (w w' : world) (r : res unit) :
  RunArgs.probe ra = false -> RunArgs.benchmark ra = false ->
  RunArgs.replace ra = false -> RunArgs.replacelink ra = false ->
  main_run E benchmark os_path_relpath ra w = (r, w') ->
  (forall p data, is_ledger_file p = false -> holds (w_fs w) p data ->
     Forall (fun d => FS.under d p = false) (tmp_candidates E) ->
     holds (w_fs w') p data) /\
  (r = Ret tt ->
   skip_file (RunArgs.in_file ra) = false /\
   FS.exists_ (w_fs w)
     (mp4_path (Path.join (RunArgs.outdir ra) (Path.basename (RunArgs.in_file ra))))
   = false /\
   (Forall (fun d =>
              FS.under d (mp4_path (Path.join (RunArgs.outdir ra)
                                      (Path.basename (RunArgs.in_file ra))))
              = false) (tmp_candidates E) ->
    exists data,
      holds (w_fs w')
        (mp4_path (Path.join (RunArgs.outdir ra) (Path.basename (RunArgs.in_file ra))))
        data)).
Proof.
  intros Hp Hb Hr Hl. unfold main_run. rewrite Hp, Hb, Hr, Hl.
  destruct (skip_file (RunArgs.in_file ra)).
  { intros [= <- <-]. split; [auto|]. intros H; discriminate H. }
  intros Hrun.
  cut (wp (out_file <- reencode E (RunArgs.in_file ra)
                         (Path.join (RunArgs.outdir ra)
                            (Path.basename (RunArgs.in_file ra)))
                         (RunArgs.crf ra) (RunArgs.preset ra) (RunArgs.force ra)
                         [] false ;; ret tt)
         (fun r w' =>
            (forall p data, holds (w_fs w) p data ->
               Forall (fun d => FS.under d p = false) (tmp_candidates E) ->
               holds (w_fs w') p data) /\
            (r = Ret tt ->
             false = false /\
             FS.exists_ (w_fs w)
               (mp4_path (Path.join (RunArgs.outdir ra)
                            (Path.basename (RunArgs.in_file ra)))) = false /\
             (Forall (fun d =>
                        FS.under d (mp4_path (Path.join (RunArgs.outdir ra)
                                                (Path.basename (RunArgs.in_file ra))))
                        = false) (tmp_candidates E) ->
              exists data,
                holds (w_fs w')
                  (mp4_path (Path.join (RunArgs.outdir ra)
                               (Path.basename (RunArgs.in_file ra)))) data))) w).
  { intros Hwp. destruct (wp_outcome _ _ _ _ _ Hwp Hrun) as [Hk Hret].
    split; [intros p data _; apply Hk | exact Hret]. }
  clear Hrun. apply wp_bind, wp_any. intros r1 w1 Hre.
  pose proof (wp_outcome _ _ _ _ _ (reencode_keeps_wp E w _ _ _ _ _ _ _) Hre) as Hk.
  pose proof (wp_outcome _ _ _ _ _ (reencode_returns_wp E w _ _ _ _ _ _ _) Hre) as Hret.
  pose proof (wp_outcome _ _ _ _ _ (reencode_copy_returns_wp E w _ _ _ _ _ _) Hre)
    as Hsome.
  destruct r1 as [[p1|]|e1].
  - wp_step. split; [exact Hk|]. intros _. split; [done|].
    destruct (Hret p1 eq_refl) as (-> & _ & Hex & Hdata).
    split; [exact Hex|]. intros Hout. apply Hdata.
    eapply List.Forall_impl; [|exact Hout]. auto.
  - by destruct Hsome.
  - split; [exact Hk|]. intros H; discriminate H.
Qed.

Lemma follow_insert_free fuel fs d n p q x :
  names fs !! d = None ->
  FS.follow fuel fs p = Some q -> names fs !! q = Some x ->
  FS.follow fuel (FS.set_names fs (<[d := n]> (names fs))) p = Some q.
Proof.
  intros Hd. revert p. induction fuel as [|k IH]; intros p; simpl.
  - destruct (names fs !! p) as [[]|] eqn:Hp; try done;
      intros [= <-] Hq;
      (destruct (decide (d = p)) as [->|Hne]; [congruence|]);
      rewrite lookup_insert_ne by done; by rewrite Hp.
  - destruct (names fs !! p) as [[]|] eqn:Hp;
      intros Hf Hq;
      (destruct (decide (d = p)) as [->|Hne]; [congruence|]);
      rewrite lookup_insert_ne by done; rewrite Hp; try done.
    by apply IH.
Qed.

Lemma exists_insert_free fs d n p :
  names fs !! d = None -> FS.exists_ fs p = true ->
  FS.exists_ (FS.set_names fs (<[d := n]> (names fs))) p = true.
Proof.
  intros Hd. unfold FS.exists_, FS.resolve, FS.final_path.
  destruct (FS.follow FS.SYMLOOP_MAX fs p) as [q|] eqn:Hf; [|done].
  destruct (names fs !! q) as [x|] eqn:Hq; [|done]. intros _.
  rewrite (follow_insert_free _ _ _ _ _ _ _ Hd Hf Hq). simpl.
  destruct (decide (d = q)) as [->|Hne]; [congruence|].
  rewrite lookup_insert_ne by done. by rewrite Hq.
Qed.

(** X20. Replacing a file whose new name belongs to another file is refused
    before anything is probed or encoded: the call raises, and only the
    scratch directory has come and gone. *)
Theorem reencode_replace_refuses_to_overwrite (ra : RunArgs.t) (w w' : world)
    (r : res unit) :
  replace_dest (RunArgs.in_file ra) <> RunArgs.in_file ra ->
  FS.exists_ (w_fs w) (replace_dest (RunArgs.in_file ra)) = true ->
  reencode_replace E ra w = (r, w') ->
  (exists e, r = Raise e) /\
  same_but_fs w w' /\
  forall p data, holds (w_fs w) p data ->
    Forall (fun d => FS.under d p = false) (tmp_candidates E) ->
    holds (w_fs w') p data.
Proof.
  intros Hne Hex Hrun.
  cut (wp (reencode_replace E ra)
         (fun r w' =>
            (exists e, r = Raise e) /\
            same_but_fs w w' /\
            forall p data, holds (w_fs w) p data ->
              Forall (fun d => FS.under d p = false) (tmp_candidates E) ->
              holds (w_fs w') p data) w).
  { intros Hwp. exact (wp_outcome _ _ _ _ _ Hwp Hrun). }
  clear Hrun. unfold reencode_replace, with_TemporaryDirectory, path_exists.
  fold (replace_dest (RunArgs.in_file ra)).
  apply String.eqb_neq in Hne. rewrite Hne. cbn [negb].
  apply wp_bind, wp_mkdtemp.
  - intros d dev Hin Hfree. apply wp_finally. do 3 wp_step.
    rewrite (exists_insert_free _ _ _ _ Hfree Hex). wp_step.
    split; [eauto|]. split; [by unfold same_but_fs|].
    intros p data Hh Hout. simpl.
    apply holds_rmtree; [by apply holds_mkdir|].
    by apply List.Forall_forall with (x := d) in Hout.
  - intros e. split; [eauto|]. split; [by unfold same_but_fs|]. auto.
Qed.

(** X21. Unless the encoder has run, [reencode_replace] leaves every file
    outside the scratch directories as it is: an input that is already in
    the target format, or known to the ledger, is neither removed nor
    backed up nor replaced. *)
Theorem reencode_replace_needs_the_encoder (ra : RunArgs.t) (w w' : world)
    (r : res unit) (evs : list event) :
  reencode_replace E ra w = (r, w') ->
  events_between w w' evs ->
  Forall (fun e => ~ is_encoder_run e) evs ->
  forall p data, holds (w_fs w) p data ->
    Forall (fun d => FS.under d p = false) (tmp_candidates E) ->
    holds (w_fs w') p data.
Proof.
  intros Hrun.
  cut (wp (reencode_replace E ra)
         (fun r w' =>
            events_between w w' evs ->
            Forall (fun e => ~ is_encoder_run e) evs ->
            forall p data, holds (w_fs w) p data ->
              Forall (fun d => FS.under d p = false) (tmp_candidates E) ->
              holds (w_fs w') p data) w).
  { intros Hwp. exact (wp_outcome _ _ _ _ _ Hwp Hrun). }
  clear Hrun. unfold reencode_replace, with_TemporaryDirectory, path_exists.
  apply wp_bind, wp_mkdtemp; [|intros e; by auto].
  intros d dev Hin Hfree. apply wp_finally.
  set (w1 := set_fs (FS.set_names (w_fs w) (<[d := Dir dev]> (names (w_fs w)))) w).
  assert (Hkeep1 : forall p data, holds (w_fs w) p data -> holds (w_fs w1) p data).
  { intros p data Hh. by apply holds_mkdir. }
  assert (Hfinal : forall w2 : world,
             (forall p data, holds (w_fs w) p data ->
                Forall (fun d => FS.under d p = false) (tmp_candidates E) ->
                holds (w_fs w2) p data) ->
             forall p data, holds (w_fs w) p data ->
               Forall (fun d => FS.under d p = false) (tmp_candidates E) ->
               holds (w_fs (set_fs (FS.rmtree (w_fs w2) d) w2)) p data).
  { intros w2 H2 p data Hh Hout. simpl. apply holds_rmtree; [by apply H2|].
    by apply List.Forall_forall with (x := d) in Hout. }
  apply wp_bind.
  apply (wp_mono _ (fun r w2 => w2 = w1 /\ (r = Ret tt \/ r = Raise ErrorCalled))).
  { destruct (negb _); wp_steps; auto. }
  intros r0 w2 [-> [-> | ->]]; [|intros _ _; apply Hfinal; auto].
  apply wp_bind, wp_any. intros r1 w2 Hre.
  pose proof (wp_outcome _ _ _ _ _ (reencode_keeps_wp E w1 _ _ _ _ _ _ _) Hre) as Hk.
  destruct (wp_outcome _ _ _ _ _ (reencode_trace_wp E w1 _ _ _ _ _ _ _) Hre)
    as (evs1 & Hev1 & Henc).
  assert (Hkeep2 : forall p data, holds (w_fs w) p data ->
            Forall (fun d => FS.under d p = false) (tmp_candidates E) ->
            holds (w_fs w2) p data) by (intros; apply Hk; auto).
  destruct r1 as [[p1|]|e1]; try (intros _ _; by apply Hfinal).
  destruct (String.eqb p1 EmptyString); [wp_step; intros _ _; by apply Hfinal|].
  unfold os_remove, backup.
  destruct (RunArgs.nobackup ra); wp_step; wp_step.
  all: try (apply wp_any; intros r3 w3 Hcopy).
  all: intros Hev Hno; exfalso.
  all: specialize (Henc eq_refl p1 eq_refl).
  all: assert (evs = evs1);
       [| subst evs1; apply Exists_exists in Henc as (x & Hx1 & Hx2);
          rewrite Forall_forall in Hno; exact (Hno x Hx1 Hx2) ].
  all: repeat match goal with
              | H : copy_file _ _ _ = _ |- _ =>
                  apply copy_file_frame in H as (_ & _ & _ & H)
              end.
  all: unfold events_between in *; simpl in *.
  all: apply (app_inv_tail (w_trace w)); congruence.
Qed.

End Cli.

(** ** Replacing the input *)

Section ScratchPaths.

Lemma prefix_app_cases (a b t : string) :
  String.prefix a (b +:+ t) = true ->
  String.prefix a b = true \/
  exists a', a = b +:+ a' /\ String.prefix a' t = true.
Proof.
  revert a. induction b as [|x b IH]; intros a H.
  - right. by exists a.
  - destruct a as [|y a]; [by left|].
    rewrite app_cons in H. cbn [String.prefix] in *.
    destruct (ascii_dec y x) as [->|]; [|discriminate].
    destruct (IH a H) as [Hp | (a' & -> & Hp)]; [by left|].
    right. exists a'. by rewrite app_cons.
Qed.

Lemma prefix_has_char (c : ascii) (a m : string) :
  String.prefix a m = true -> has_char c m = false -> has_char c a = false.
Proof.
  revert m. induction a as [|y a IH]; intros m H Hm; [done|].
  destruct m as [|x m]; [discriminate|]. cbn [String.prefix] in H.
  destruct (ascii_dec y x) as [->|]; [|discriminate].
  cbn [has_char] in *. apply orb_false_iff in Hm as [-> Hm]. simpl. eauto.
Qed.

Lemma string_app_nil_r (s : string) : s +:+ EmptyString = s.
Proof. induction s as [|a s IH]; [done|]. by rewrite app_cons, IH. Qed.

Lemma string_app_nil_l (s : string) : EmptyString +:+ s = s.
Proof. reflexivity. Qed.

Lemma app_slash_tail (s y z : string) :
  s +:+ "/" = y +:+ "/" +:+ z -> has_char "/" z = false ->
  z = EmptyString /\ s = y.
Proof.
  revert y. induction s as [|g s IH]; intros y H Hz.
  - rewrite string_app_nil_l in H. destruct y as [|h y].
    + rewrite string_app_nil_l, app_cons, string_app_nil_l in H.
      injection H as H. by subst z.
    + rewrite app_cons in H. injection H as _ H.
      destruct y; [rewrite string_app_nil_l, app_cons in H|rewrite app_cons in H];
        discriminate H.
  - rewrite app_cons in H. destruct y as [|h y].
    + rewrite string_app_nil_l, app_cons, string_app_nil_l in H.
      injection H as _ H. subst z.
      rewrite has_char_app in Hz. simpl in Hz.
      by rewrite orb_true_r in Hz.
    + rewrite app_cons in H. injection H as -> H.
      destruct (IH y H Hz) as [-> ->]. done.
Qed.

(** A name right below [d] lies below [c] only when [c] is [d], or one of
    the two lies below the other. *)
Lemma under_join_cases (c d m : string) :
  has_char "/" m = false ->
  FS.under c (d +:+ "/" +:+ m) = true ->
  c = d \/ FS.under c d = true \/ FS.under d c = true.
Proof.
  unfold FS.under. intros Hm H. apply orb_true_iff in H as [H|H].
  - apply String.eqb_eq in H. right. right. rewrite <- H.
    by rewrite app_assoc3, prefix_app, orb_true_r.
  - apply prefix_app_cases in H as [H | (a' & Ha & Hp)].
    + right. left. by rewrite H, orb_true_r.
    + destruct a' as [|y a'].
      * right. left. rewrite string_app_nil_r in Ha. rewrite Ha.
        pose proof (prefix_app d EmptyString) as Hpp.
        rewrite string_app_nil_r in Hpp. by rewrite Hpp, orb_true_r.
      * rewrite app_cons in Hp. cbn [String.prefix] in Hp.
        destruct (ascii_dec y "/") as [->|]; [|discriminate].
        pose proof (prefix_has_char _ _ _ Hp Hm) as Ha'.
        left. by destruct (app_slash_tail _ _ _ Ha Ha').
Qed.

Lemma rstrip_slash_id (s : string) :
  endswith s "/" = false -> rstrip_slash s = s.
Proof.
  induction s as [|c s IH]; [done|].
  cbn [endswith rstrip_slash]. intros H.
  apply orb_false_iff in H as [H1 H2]. rewrite (IH H2).
  destruct (is_char "/" c && String.eqb s EmptyString) eqn:Hc; [|done].
  apply andb_true_iff in Hc as [Hc Hs].
  apply Ascii.eqb_eq in Hc. apply String.eqb_eq in Hs. subst.
  discriminate H1.
Qed.

(** The path that [reencode] returns for an output in the scratch
    directory [d] is a name right below [d]. *)
Lemma scratch_output_shape (d x : string) :
  d <> EmptyString -> endswith d "/" = false ->
  exists m, has_char "/" m = false /\
            mp4_path (Path.join d (Path.basename x)) = d +:+ "/" +:+ m.
Proof.
  intros Hne Hs.
  assert (Hjoin : forall m, has_char "/" m = false ->
                            Path.join d m = d +:+ "/" +:+ m).
  { intros m Hm. unfold Path.join.
    rewrite (no_slash_not_absolute _ Hm).
    apply String.eqb_neq in Hne. by rewrite Hne, Hs. }
  pose proof (basename_no_slash x) as Hb.
  rewrite (Hjoin _ Hb). unfold mp4_path.
  destruct (endswith _ ".mp4"); [eauto|].
  unfold as_mp4. rewrite app_assoc3.
  destruct (split_at_last_slash (d +:+ "/") (Path.basename x)) as [Hh Hbn];
    [right; apply endswith_app | exact Hb |].
  unfold Path.dirname. rewrite Hh, Hbn, rstrip_slash_app_slash, (rstrip_slash_id _ Hs).
  apply String.eqb_neq in Hne. rewrite Hne.
  eexists. split; [|apply Hjoin]; apply (mp4_name_no_slash (Path.basename x))
    || apply mp4_name_no_slash.
Qed.

End ScratchPaths.
Section Replace.

Context (E : env).

(** Without a path to return, [reencode] has not run the encoder. *)
Lemma reencode_none_wp w in_file out_file crf preset force extra_args dont_copy :
  wp (reencode E in_file out_file crf preset force extra_args dont_copy)
     (fun r w' =>
        r = Ret None -> forall evs, events_between w w' evs ->
        Forall (fun e => ~ is_encoder_run e) evs) w.
Proof.
  exec_reencode.
  all: intros Hres; try discriminate Hres.
  all: use_probe_step.
  all: unfold events_between; norm_world; intros evs Hev.
  all: front_events Hev.
  all: repeat constructor; simpl; try tauto; intros H; discriminate H.
Qed.

Lemma holds_unlink fs p q data :
  holds fs p data -> p <> q ->
  holds (FS.set_names fs (delete q (names fs))) p data.
Proof.
  intros (i & ino & H1 & H2 & H3) Hne. exists i, ino. simpl.
  by rewrite lookup_delete_ne.
Qed.

Lemma app_cons_neq (s t : string) (c : ascii) : s +:+ String c t <> s.
Proof.
  induction s as [|a s IH]; [discriminate|].
  rewrite app_cons. intros H. injection H as H. by apply IH.
Qed.

(** X25. With [nobackup], a call of [reencode_replace] that returns after
    a run of the encoder has put the bytes that this run of ffmpeg gave, of
    the logged size, at the destination, and removed the input where that
    is another name; every other file outside the scratch directories
    keeps its bytes. *)
Theorem reencode_replace_installs_the_encoding (ra : RunArgs.t) (w w' : world)
    (evs : list event) :
  RunArgs.nobackup ra = true ->
  scratch_ready (tmp_candidates E) (w_fs w) ->
  Forall (fun c => FS.under c (RunArgs.in_file ra) = false /\
                   FS.under c (replace_dest (RunArgs.in_file ra)) = false)
         (tmp_candidates E) ->
  (replace_dest (RunArgs.in_file ra) <> RunArgs.in_file ra ->
   names (w_fs w) !! replace_dest (RunArgs.in_file ra) = None) ->
  reencode_replace E ra w = (Ret tt, w') ->
  events_between w w' evs ->
  Exists is_encoder_run evs ->
  (exists data percent in_size d dev,
     holds (w_fs w') (replace_dest (RunArgs.in_file ra)) data /\
     In (LogOutput percent in_size (Z.of_nat (length data))) evs /\
     In d (tmp_candidates E) /\
     encoder_output E
       (FS.set_names (w_fs w) (<[d := Dir dev]> (names (w_fs w)))) evs data) /\
  (replace_dest (RunArgs.in_file ra) <> RunArgs.in_file ra ->
   names (w_fs w') !! RunArgs.in_file ra = None) /\
  (forall p data, p <> RunArgs.in_file ra -> holds (w_fs w) p data ->
     Forall (fun c => FS.under c p = false) (tmp_candidates E) ->
     holds (w_fs w') p data).
Proof.
  intros Hnb (Hshape & Hnest & Hbelow) Hout Hdest Hrun.
  cut (wp (reencode_replace E ra)
         (fun r w' =>
            r = Ret tt -> events_between w w' evs -> Exists is_encoder_run evs ->
            (exists data percent in_size d dev,
               holds (w_fs w') (replace_dest (RunArgs.in_file ra)) data /\
               In (LogOutput percent in_size (Z.of_nat (length data))) evs /\
               In d (tmp_candidates E) /\
               encoder_output E
                 (FS.set_names (w_fs w) (<[d := Dir dev]> (names (w_fs w))))
                 evs data) /\
            (replace_dest (RunArgs.in_file ra) <> RunArgs.in_file ra ->
             names (w_fs w') !! RunArgs.in_file ra = None) /\
            (forall p data, p <> RunArgs.in_file ra -> holds (w_fs w) p data ->
               Forall (fun c => FS.under c p = false) (tmp_candidates E) ->
               holds (w_fs w') p data)) w).
  { intros Hwp. exact (wp_outcome _ _ _ _ _ Hwp Hrun eq_refl). }
  clear Hrun w'. unfold reencode_replace, with_TemporaryDirectory, path_exists.
  fold (replace_dest (RunArgs.in_file ra)).
  set (src := RunArgs.in_file ra) in *. set (dest := replace_dest src) in *.
  apply wp_bind, wp_mkdtemp; [|intros e He; discriminate He].
  intros d dev Hin Hfree. apply wp_finally.
  set (w1 := set_fs (FS.set_names (w_fs w) (<[d := Dir dev]> (names (w_fs w)))) w).
  apply wp_bind.
  apply (wp_mono _ (fun r w2 => w2 = w1 /\ (r = Ret tt \/ r = Raise ErrorCalled))).
  { destruct (negb _); wp_steps; auto. }
  intros r0 w2 [-> [-> | ->]]; [|intros H; discriminate H].
  apply wp_bind, wp_any. intros r1 w2 Hre.
  destruct r1 as [[p1|]|e1]; [| |intros H; discriminate H].
  2: { wp_step. intros _ Hev Hex. exfalso.
       pose proof (wp_outcome _ _ _ _ _ (reencode_none_wp w1 _ _ _ _ _ _ _) Hre
                     eq_refl evs Hev) as Hno.
       apply Exists_exists in Hex as (x & Hx1 & Hx2).
       rewrite Forall_forall in Hno. exact (Hno x Hx1 Hx2). }
  (* the scratch directory and the returned path *)
  pose proof Hshape as Hd.
  apply List.Forall_forall with (x := d) in Hd; [|exact Hin].
  destruct Hd as [Hdne Hds].
  pose proof Hout as Hd.
  apply List.Forall_forall with (x := d) in Hd; [|exact Hin].
  destruct Hd as [Hdsrc Hddest].
  destruct (scratch_output_shape d src Hdne Hds) as (m & Hm & Hshape1).
  destruct (wp_outcome _ _ _ _ _ (reencode_returns_wp E w1 _ _ _ _ _ _ _) Hre
              p1 eq_refl) as (Hp1 & Hends & _ & _).
  rewrite Hshape1 in Hp1.
  assert (Hup1 : FS.under d p1 = true).
  { subst p1. unfold FS.under. by rewrite app_assoc3, prefix_app, orb_true_r. }
  assert (Hp1d : p1 <> d).
  { subst p1. apply app_cons_neq. }
  assert (Hp1src : p1 <> src) by (intros ->; congruence).
  assert (Hp1dest : p1 <> dest) by (intros ->; congruence).
  assert (Hdsrc' : d <> src).
  { intros ->. by rewrite under_refl in Hdsrc. }
  assert (Hddest' : d <> dest).
  { intros ->. by rewrite under_refl in Hddest. }
  assert (Hcond : Forall (fun c => names (w_fs w1) !! c = None ->
                                   FS.under c p1 = false) (tmp_candidates E)).
  { apply List.Forall_forall. intros c Hc Hcfree.
    destruct (FS.under c p1) eqn:Hu; [|done]. exfalso.
    assert (Hcd : c <> d).
    { intros ->. simpl in Hcfree. by rewrite lookup_insert_eq in Hcfree. }
    rewrite Hp1 in Hu.
    apply (under_join_cases _ _ _ Hm) in Hu as [-> | [Hu | Hu]]; [done| |].
    - by rewrite (Hnest c d Hc Hin Hcd) in Hu.
    - rewrite (Hnest d c Hin Hc) in Hu; [done|]. by intros ->. }
  assert (Hp1free : names (w_fs w1) !! p1 = None).
  { simpl. rewrite lookup_insert_ne by done.
    destruct (names (w_fs w) !! p1) as [n|] eqn:Hn; [|done]. exfalso.
    apply Hbelow in Hn. apply List.Forall_forall with (x := d) in Hn; [|exact Hin].
    rewrite (Hn Hfree) in Hup1. discriminate Hup1. }
  pose proof (wp_outcome _ _ _ _ _ (reencode_keeps_wp E w1 _ _ _ _ _ _ _) Hre)
    as Hkeep.
  pose proof (wp_outcome _ _ _ _ _
                (reencode_names_wp E w1 _ _ _ _ _ _ _ Hshape
                   ltac:(by rewrite Hshape1, <- Hp1)
                   ltac:(by rewrite Hshape1, <- Hp1)) Hre) as Hnames.
  cbv beta in Hnames. rewrite Hshape1, <- Hp1 in Hnames.
  pose proof (wp_outcome _ _ _ _ _
                (reencode_encoded_wp E w1 _ _ _ _ _ _ _ evs) Hre p1 eq_refl)
    as Henc.
  destruct (String.eqb p1 EmptyString) eqn:He.
  { apply String.eqb_eq in He. rewrite He in Hends. discriminate Hends. }
  rewrite Hnb. unfold os_remove.
  wp_step. wp_step; [|intros H; discriminate H].
  apply unlink_inv in Hfs. subst fs.
  apply wp_any. intros r3 w4 Hcopy -> Hev Hex.
  pose proof (copy_file_frame _ _ _ _ _ Hcopy) as (_ & _ & _ & Htr).
  simpl in Htr.
  assert (Hev1 : events_between w1 w2 evs).
  { unfold events_between in *. simpl in *. congruence. }
  destruct (Henc Hev1 Hex)
    as (_ & percent & st & out_size & HIn & _ & _ & _ & Hdata).
  destruct (Hdata Hcond) as (data & Hholds & Hlen & Hwrote).
  split; [|split].
  - exists data, percent, (st_size st), d, dev. subst out_size.
    split; [|split; [exact HIn|split; [exact Hin|exact Hwrote]]].
    simpl. apply holds_rmtree; [|exact Hddest].
    apply (copy_file_places _ _ _ _ data) in Hcopy as (_ & Hdst & _);
      [exact Hdst|].
    simpl. by apply holds_unlink.
  - intros Hne. simpl. apply rmtree_none.
    rewrite (copy_file_names _ _ _ _ _ _ Hcopy).
    + simpl. apply lookup_delete_eq.
    + simpl. rewrite lookup_delete_ne by done.
      apply Hnames; [done|]. simpl. rewrite lookup_insert_ne by done. auto.
    + done.
  - intros p pdata Hp Hh Hpout. simpl.
    apply holds_rmtree;
      [|by apply List.Forall_forall with (x := d) in Hpout].
    apply (copy_file_keeps _ _ _ _ _ _ _ Hcopy). simpl.
    apply holds_unlink; [|exact Hp].
    apply Hkeep; [|exact Hpout]. by apply holds_mkdir.
Qed.

End Replace.

(** ** The ledger hit *)

Section LedgerHit.

Context (E : env).

Lemma parent_dev_insert_free fs d n p dev :
  names fs !! d = None -> FS.parent_dev fs p = Some dev ->
  FS.parent_dev (FS.set_names fs (<[d := n]> (names fs))) p = Some dev.
Proof.
  intros Hd. unfold FS.parent_dev.
  destruct (String.eqb (Path.dirname p) EmptyString); [done|].
  unfold FS.resolve, FS.final_path.
  destruct (FS.follow FS.SYMLOOP_MAX fs (Path.dirname p)) as [q|] eqn:Hf; [|done].
  destruct (names fs !! q) as [x|] eqn:Hq; [|done]. intros Hx.
  rewrite (follow_insert_free _ _ _ _ _ _ _ Hd Hf Hq). simpl.
  destruct (decide (d = q)) as [->|Hne]; [congruence|].
  rewrite lookup_insert_ne by done. by rewrite Hq.
Qed.

Lemma holds_isfile fs p data :
  holds fs p data -> FS.isfile fs p = true /\ FS.islink fs p = false.
Proof.
  intros (i & ino & Hp & _). unfold FS.isfile, FS.islink.
  by rewrite (resolve_reg _ _ _ Hp), Hp.
Qed.

Lemma mkdtemp_run (w0 : world) (d : string) (fs' : filesystem) :
  FS.mkdtemp (tmp_candidates E) (w_fs w0) = Ret (d, fs') ->
  mkdtemp E w0 = (Ret d, set_fs fs' w0).
Proof. intros H. unfold mkdtemp. by rewrite H. Qed.

(** A ledger hit returns: the input is a regular file that the probe
    accepts, a scratch directory can be made, nothing exists at the output
    path and, for the copy, the output path is a free name in an existing
    directory outside the scratch directories. *)
Lemma reencode_ledger_hit_returns (w : world) (in_file : string) (entry : row)
    (out_file : string) (extra_args : list string) (dont_copy : bool)
    (data : list byte) (dev : N) (t : probe_tuple) (d : string)
    (fs' : filesystem) :
  ledger_valid w ->
  In entry (ledger_rows w) ->
  hash_of E w in_file = Ret (r_hash entry) ->
  holds (w_fs w) in_file data ->
  (Probe_probe E in_file w).1 = Ret t ->
  FS.mkdtemp (tmp_candidates E) (w_fs w) = Ret (d, fs') ->
  FS.exists_ (w_fs w) (mp4_path out_file) = false ->
  (dont_copy = false ->
   names (w_fs w) !! mp4_path out_file = None /\
   FS.parent_dev (w_fs w) (mp4_path out_file) = Some dev /\
   Z.of_nat (length data) <= FS.MAX_FILE_SIZE /\
   Forall (fun c => FS.under c (mp4_path out_file) = false) (tmp_candidates E)) ->
  exists w',
    reencode E in_file out_file (r_crf entry) (r_preset entry) false
      extra_args dont_copy w
    = (Ret (if dont_copy then None else Some (mp4_path out_file)), w') /\
    (dont_copy = false -> holds (w_fs w') (mp4_path out_file) data).
Proof.
  intros Hvalid Hin Hh Hholds Hp Hmk Hex Hcopy.
  destruct (Probe_probe E in_file w) as [rp w1] eqn:Hprobe.
  simpl in Hp. subst rp.
  destruct (probe_inv _ _ _ _ _ Hprobe) as [(Hfs & Hl & Hhs & Htr) Hcached].
  specialize (Hcached t eq_refl).
  destruct (holds_isfile _ _ _ Hholds) as [Hisfile Hislink].
  destruct (holds_stat _ _ _ Hholds) as (st & Hst & Hsize).
  destruct (mkdtemp_inv _ _ _ _ Hmk) as (dev' & Hdin & Hdfree & ->).
  cut (wp (reencode E in_file out_file (r_crf entry) (r_preset entry) false
             extra_args dont_copy)
         (fun r w' =>
            r = Ret (if dont_copy then None else Some (mp4_path out_file)) /\
            (dont_copy = false -> holds (w_fs w') (mp4_path out_file) data)) w).
  { intros Hwp. unfold wp in Hwp.
    destruct (reencode E in_file out_file (r_crf entry) (r_preset entry) false
                extra_args dont_copy w) as [r w'].
    simpl in Hwp. destruct Hwp as [-> Hd]. by exists w'. }
  unfold reencode, path_isfile, path_islink, path_exists,
    with_BadEncodingDatabase, with_TemporaryDirectory, file_size, os_stat.
  fold (mp4_path out_file).
  do 4 wp_step; [|congruence].
  do 4 wp_step; [|rewrite Hislink in *; discriminate].
  do 4 wp_step; [|rewrite Hex in *; discriminate].
  wp_step. eapply wp_known; [rewrite isvideo_run, Hprobe; reflexivity|].
  cbv beta iota. do 2 wp_step. wp_step.
  eapply wp_Probe_codec; [exact Hcached|]. wp_step.
  eapply wp_Probe_acodec; [exact Hcached|].
  assert (Hdsrc : d <> in_file).
  { intros ->. destruct Hholds as (i & ino & Hn & _). congruence. }
  assert (Hcp : dont_copy = false ->
            forall wx,
              w_fs wx = w_fs w \/
              w_fs wx = FS.set_names (w_fs w) (<[d := Dir dev']> (names (w_fs w))) ->
              exists wy,
                copy_file in_file (mp4_path out_file) wx = (Ret tt, wy) /\
                holds (w_fs wy) (mp4_path out_file) data).
  { intros Hdc wx Hwx.
    destruct (Hcopy Hdc) as (Hnone & Hpd & Hmax & Hout).
    destruct Hholds as (i & ino & Hn & Hi & Hd).
    assert (Hdout : d <> mp4_path out_file).
    { intros Heq. apply List.Forall_forall with (x := d) in Hout; [|exact Hdin].
      rewrite <- Heq, under_refl in Hout. discriminate Hout. }
    destruct (copy_file_onto_free wx in_file (mp4_path out_file) i ino dev)
      as (wy & Hrun & _ & _ & Hdst & _).
    - destruct Hwx as [-> | ->]; [done|]. simpl. by rewrite lookup_insert_ne.
    - by destruct Hwx as [-> | ->].
    - by rewrite Hd.
    - destruct Hwx as [-> | ->]; [done|]. simpl. by rewrite lookup_insert_ne.
    - destruct Hwx as [-> | ->]; [done|]. by apply parent_dev_insert_free.
    - exists wy. by rewrite <- Hd. }
  wp_step.
  - destruct dont_copy.
    + wp_step. split; [reflexivity|]. intros H; discriminate H.
    + destruct (Hcp eq_refl w1 (or_introl Hfs)) as (wy & Hrun & Hdst).
      wp_step. eapply wp_known; [exact Hrun|]. cbv beta iota.
      wp_step. auto.
  - do 3 wp_step. rewrite Hfs, Hst. wp_step. wp_step.
    apply wp_init_db. wp_step. wp_step.
    eapply wp_known;
      [apply mkdtemp_run; cbn [w_fs set_fs set_ledger log_event];
       rewrite Hfs; exact Hmk|].
    cbv beta iota. wp_step. wp_step. wp_step.
    assert (Hentry : fits_int64 (r_crf entry) = true).
    { destruct Hvalid as [_ Hall].
      apply List.Forall_forall with (x := entry) in Hall; [|exact Hin].
      by destruct Hall. }
    assert (Hdfree1 : names (w_fs w1) !! d = None) by (by rewrite Hfs).
    rewrite <- Hfs.
    apply wp_check.
    + intros e Hhash. exfalso.
      rewrite (hash_of_scratch E w w1 in_file d dev' Hisfile Hc0 Hfs Hhs Hdfree1)
        in Hhash.
      congruence.
    + intros h Hhash Hfits. congruence.
    + intros h Hhash Hfits Hledger. discriminate Hledger.
    + intros h rows Hhash Hfits Hledger. simpl in Hledger.
      injection Hledger as <-.
      wp_step.
      rewrite (ledger_hit_truthy E w w1 entry in_file d dev' h Hvalid Hin Hh
                 Hisfile Hc0 Hfs Hl Hhs Hdfree1 Hhash).
      destruct dont_copy.
      * wp_step. split; [reflexivity|]. intros H; discriminate H.
      * destruct (Hcopy eq_refl) as (_ & _ & _ & Hout).
        apply List.Forall_forall with (x := d) in Hout; [|exact Hdin].
        match goal with
        | |- wp _ _ ?wx =>
            destruct (Hcp eq_refl wx) as (wy & Hrun & Hdst);
              [right; simpl; by rewrite Hfs|]
        end.
        wp_step. eapply wp_known; [exact Hrun|]. cbv beta iota.
        wp_step. split; [reflexivity|]. intros _. simpl.
        by apply holds_rmtree.
Qed.

(** C1. For an input whose digest, with a crf and a preset, is the key
    of a row of a valid ledger: [check] returns the recorded output size,
    and [reencode] with that crf and preset and without [force] runs no
    encoder; when it returns, it returns no path if [dont_copy] is set and
    otherwise the output path, which holds the bytes of the input (unless
    the output path lies inside a scratch directory, which is removed).
    And it does return: whenever the input is a regular file that the
    probe accepts, a scratch directory can be made and nothing exists at
    the output path (for the copy: the output path is a free name in an
    existing directory, outside the scratch directories), the run ends
    with that result and, for the copy, with the bytes of the input at the
    output path. *)
Theorem reencode_ledger_hit_runs_no_encoder (w : world) (in_file : string)
    (entry : row) :
  ledger_valid w ->
  In entry (ledger_rows w) ->
  hash_of E w in_file = Ret (r_hash entry) ->
  (BadEncodingDatabase_check E in_file (r_crf entry) (r_preset entry) w).1
  = Ret (Some (r_output_bytes entry)) /\
  (forall out_file extra_args dont_copy r w',
    reencode E in_file out_file (r_crf entry) (r_preset entry) false
      extra_args dont_copy w = (r, w') ->
    (exists evs, events_between w w' evs /\
                 Forall (fun e => ~ is_encoder_run e) evs) /\
    (forall res, r = Ret res ->
       if dont_copy then res = None
       else res = Some (mp4_path out_file) /\
            (Forall (fun d => FS.under d (mp4_path out_file) = false)
               (tmp_candidates E) ->
             forall data, FS.read_file (w_fs w) in_file = Ret data ->
               FS.read_file (w_fs w') (mp4_path out_file) = Ret data))) /\
  forall out_file extra_args dont_copy data dev t d fs',
    holds (w_fs w) in_file data ->
    (Probe_probe E in_file w).1 = Ret t ->
    FS.mkdtemp (tmp_candidates E) (w_fs w) = Ret (d, fs') ->
    FS.exists_ (w_fs w) (mp4_path out_file) = false ->
    (dont_copy = false ->
     names (w_fs w) !! mp4_path out_file = None /\
     FS.parent_dev (w_fs w) (mp4_path out_file) = Some dev /\
     Z.of_nat (length data) <= FS.MAX_FILE_SIZE /\
     Forall (fun c => FS.under c (mp4_path out_file) = false) (tmp_candidates E)) ->
    exists w',
      reencode E in_file out_file (r_crf entry) (r_preset entry) false
        extra_args dont_copy w
      = (Ret (if dont_copy then None else Some (mp4_path out_file)), w') /\
      (dont_copy = false -> holds (w_fs w') (mp4_path out_file) data).
Proof.
  intros Hvalid Hin Hh. split; [|split].
  - rewrite check_run, Hh.
    destruct Hvalid as [Hnd Hall].
    pose proof Hall as Hall'.
    apply List.Forall_forall with (x := entry) in Hall'; [|done].
    destruct Hall' as (-> & _ & _).
    unfold ledger_rows in *.
    destruct (w_ledger w) as [rows|]; [|done]. simpl in *.
    by rewrite (select_in _ _ Hnd Hin).
  - intros out_file extra_args dont_copy r w' Hrun.
    cut (wp (reencode E in_file out_file (r_crf entry) (r_preset entry) false
               extra_args dont_copy)
           (fun r w' =>
              (exists evs, events_between w w' evs /\
                           Forall (fun e => ~ is_encoder_run e) evs) /\
              (forall res, r = Ret res ->
                 if dont_copy then res = None
                 else res = Some (mp4_path out_file) /\
                      (Forall (fun d => FS.under d (mp4_path out_file) = false)
                         (tmp_candidates E) ->
                       forall data, FS.read_file (w_fs w) in_file = Ret data ->
                         FS.read_file (w_fs w') (mp4_path out_file) = Ret data))) w).
    { intros Hwp. exact (wp_outcome _ _ _ _ _ Hwp Hrun). }
    clear Hrun r w'.
    exec_reencode.
    all: use_probe_step.
    all: repeat match goal with
                | Hr : Some (ledger_rows _) = Some _ |- _ => injection Hr as <-
                end.
    all: try match goal with
             | Ht : truthy _ = false |- _ =>
                 exfalso;
                 erewrite ledger_hit_truthy in Ht; [discriminate Ht | try eassumption ..]
             end.
    all: (split;
          [ unfold events_between; norm_world; eexists; split; [split_trace|];
            repeat constructor; simpl; try tauto; intros ?; discriminate
          | intros res Hres; try discriminate Hres; injection Hres as <- ]).
    all: cbv iota; try reflexivity.
    all: split; [reflexivity|]; intros Hout data Hread.
    all: unfold mp4_path in *; simpl.
    all: assert (Hholds : holds (w_fs w0) in_file data)
           by (apply holds_intro; by rewrite ?Hfs).
    all: apply holds_read.
    all: try (apply holds_rmtree;
              [| apply List.Forall_forall with (x := tmp_dir) in Hout; done]).
    all: match goal with
         | Hc : copy_file _ _ _ = _ |- _ =>
             apply copy_file_places with (data := data) in Hc as (_ & Hc & _);
             [ exact Hc | try exact Hholds ]
         end.
    all: by apply holds_mkdir.
  - intros out_file extra_args dont_copy data dev t d fs' H1 H2 H3 H4 H5.
    exact (reencode_ledger_hit_returns w in_file entry out_file extra_args
             dont_copy data dev t d fs' Hvalid Hin Hh H1 H2 H3 H4 H5).
Qed.

End LedgerHit.

(** ** [split.py] *)

Section SplitFacts.

Import Split.

Lemma elem_of_concat {A} (x : A) (ls : list (list A)) :
  x ∈ concat ls <-> exists l, x ∈ l /\ l ∈ ls.
Proof.
  induction ls as [|l ls IH]; simpl.
  - split; [by intros ?%elem_of_nil | by intros (l & _ & ?%elem_of_nil)].
  - rewrite elem_of_app, IH. split.
    + intros [H|(l' & H1 & H2)]; [exists l | exists l'];
        (split; [done|]); [left | by right].
    + intros (l' & H1 & H2). apply elem_of_cons in H2 as [->|H2]; [by left|].
      right. eauto.
Qed.

Lemma range_elem (k n d i : nat) :
  (k < d)%nat -> i ∈ range k n d <-> (i < n)%nat /\ (i mod d = k)%nat.
Proof.
  intros Hk. unfold range. rewrite list_elem_of_fmap. split.
  - intros (j & -> & Hj). apply elem_of_seq in Hj as [_ Hj]. simpl in Hj.
    assert (Hle : (d * S j <= n - k + d - 1)%nat).
    { etrans; [|apply (Nat.Div0.mul_div_le _ d)].
      apply Nat.mul_le_mono_l. lia. }
    split; [nia|].
    rewrite Nat.Div0.mod_add. apply Nat.mod_small. lia.
  - intros [Hi Hm]. exists (i / d)%nat.
    pose proof (Nat.div_mod_eq i d) as Hdm. rewrite Hm in Hdm.
    split; [lia|]. apply elem_of_seq. split; [lia|]. simpl.
    assert (S (i / d) <= (n - k + d - 1) / d)%nat; [|lia].
    apply Nat.div_le_lower_bound; [lia|]. nia.
Qed.

Lemma range_NoDup (k n d : nat) : (0 < d)%nat -> NoDup (range k n d).
Proof.
  intros Hd. unfold range. apply NoDup_fmap_2; [|apply NoDup_seq].
  intros a b H. nia.
Qed.

Lemma ranges_NoDup (n d : nat) (ks : list nat) :
  NoDup ks -> Forall (fun k => k < d)%nat ks ->
  NoDup (concat (map (fun k => range k n d) ks)).
Proof.
  induction ks as [|k ks IH]; intros Hnd Hall; simpl; [apply NoDup_nil_2|].
  apply NoDup_cons in Hnd as [Hk Hnd]. apply Forall_cons in Hall as [Hkd Hall].
  apply NoDup_app. split; [apply range_NoDup; lia|].
  split; [|by apply IH].
  intros i Hi Hi'. apply range_elem in Hi as [_ Hi]; [|done].
  apply elem_of_concat in Hi' as (l & Hil & Hl).
  apply list_elem_of_fmap in Hl as (k' & -> & Hk').
  rewrite Forall_forall in Hall.
  apply range_elem in Hil as [_ Hil]; [|by apply Hall].
  congruence.
Qed.

(** The index ranges of the groups partition the positions. *)
Lemma ranges_partition (n d : nat) :
  (0 < d)%nat ->
  concat (map (fun k => range k n d) (seq 0 d)) ≡ₚ seq 0 n.
Proof.
  intros Hd. apply NoDup_Permutation.
  - apply ranges_NoDup; [apply NoDup_seq|].
    apply Forall_forall. intros k Hk. apply elem_of_seq in Hk. lia.
  - apply NoDup_seq.
  - intros i. rewrite elem_of_seq. split.
    + intros Hi. apply elem_of_concat in Hi as (l & Hil & Hl).
      apply list_elem_of_fmap in Hl as (k & -> & Hk).
      apply elem_of_seq in Hk. apply range_elem in Hil; lia.
    + intros [_ Hi]. apply elem_of_concat.
      exists (range (i mod d) n d). split.
      * apply range_elem; [apply Nat.mod_upper_bound; lia | done].
      * apply list_elem_of_fmap. exists (i mod d)%nat. split; [done|].
        apply elem_of_seq. pose proof (Nat.mod_upper_bound i d). lia.
Qed.

Lemma nth_seq_all {A} (l : list A) (d0 : A) :
  map (fun i => nth i l d0) (seq 0 (length l)) = l.
Proof.
  induction l as [|x l IH]; [reflexivity|].
  simpl. f_equal. rewrite <- seq_shift, map_map. exact IH.
Qed.

Lemma insert_by_size_perm (x : string * Z) (l : list (string * Z)) :
  insert_by_size x l ≡ₚ x :: l.
Proof.
  induction l as [|y l IH]; simpl; [done|].
  destruct (snd x <=? snd y); [done|].
  rewrite IH. apply Permutation_swap.
Qed.

Lemma sort_by_size_perm (l : list (string * Z)) : sort_by_size l ≡ₚ l.
Proof.
  induction l as [|x l IH]; simpl; [done|].
  by rewrite insert_by_size_perm, IH.
Qed.

Lemma sum_sizes_app (l1 l2 : list (string * Z)) :
  sum_sizes (l1 ++ l2) = sum_sizes l1 + sum_sizes l2.
Proof. induction l1 as [|x l1 IH]; simpl; lia. Qed.

Lemma sum_sizes_perm (l1 l2 : list (string * Z)) :
  l1 ≡ₚ l2 -> sum_sizes l1 = sum_sizes l2.
Proof. induction 1; simpl; lia. Qed.

(** The last loop succeeds on positions inside the list. *)
Lemma pick_inside (l : list (string * Z)) (idxs : list nat) (d0 : string * Z) :
  Forall (fun i => i < length l)%nat idxs ->
  pick l idxs
  = Ret (map fst (map (fun i => nth i l d0) idxs),
         sum_sizes (map (fun i => nth i l d0) idxs)).
Proof.
  induction idxs as [|i idxs IH]; intros Hall; simpl; [done|].
  apply Forall_cons in Hall as [Hi Hall].
  destruct (lookup_lt_is_Some_2 l i Hi) as [[p s] Hl].
  rewrite Hl, (IH Hall), (nth_lookup_Some _ _ _ _ Hl). reflexivity.
Qed.

(** A group, as the selection of its positions in the sorted list. *)
Lemma group_selection (files : list (string * Z)) (d k : nat) :
  (k < d)%nat ->
  let sorted := rev (sort_by_size files) in
  let sel := map (fun i => nth i sorted (EmptyString, 0))
                 (range k (length sorted) d) in
  group files d k = Ret (map fst sel, sum_sizes sel).
Proof.
  intros Hk sorted sel. unfold group. fold sorted.
  apply pick_inside. apply Forall_forall. intros i Hi.
  by apply range_elem in Hi as [Hi _].
Qed.

(** The selections of all groups together are the files. *)
Lemma selections_partition (files : list (string * Z)) (d : nat) :
  (0 < d)%nat ->
  let sorted := rev (sort_by_size files) in
  concat (map (fun k => map (fun i => nth i sorted (EmptyString, 0))
                            (range k (length sorted) d)) (seq 0 d))
  ≡ₚ files.
Proof.
  intros Hd sorted.
  rewrite <- (map_map (fun k => range k (length sorted) d)
                      (map (fun i => nth i sorted (EmptyString, 0)))).
  rewrite <- concat_map.
  rewrite (ranges_partition (length sorted) d Hd).
  rewrite nth_seq_all. unfold sorted.
  by rewrite <- Permutation_rev, sort_by_size_perm.
Qed.

End SplitFacts.

Section SplitTheorems.

Import Split.

Lemma main_stdout (fs : filesystem) (d k : nat) (stdin : list string)
    (files : list (string * Z)) (skipped : list string) :
  (k < d)%nat ->
  scan fs stdin [] [] = (Ret files, skipped) ->
  stdout (main fs (Z.of_nat d) (Z.of_nat k) stdin) = paths_of (group files d k).
Proof.
  intros Hk Hscan. unfold main. rewrite Hscan.
  replace (Z.of_nat k <? Z.of_nat d) with true by (symmetry; apply Z.ltb_lt; lia).
  replace (0 <=? Z.of_nat k) with true by (symmetry; apply Z.leb_le; lia).
  cbn [negb orb]. rewrite !Nat2Z.id.
  destruct (group files d k) as [[paths total]|e]; [|done].
  by destruct (Humansize.humansize total).
Qed.

(** X22. The groups printed for the indices [0 .. divisor - 1] partition the
    regular files of the input: every file is printed for exactly one
    index. *)
Theorem split_groups_partition (fs : filesystem) (divisor : nat)
    (stdin : list string) (files : list (string * Z)) (skipped : list string) :
  (0 < divisor)%nat ->
  scan fs stdin [] [] = (Ret files, skipped) ->
  concat (map (fun k => stdout (main fs (Z.of_nat divisor) (Z.of_nat k) stdin))
              (seq 0 divisor))
  ≡ₚ map fst files.
Proof.
  intros Hd Hscan.
  etrans; [|exact (Permutation_map fst (selections_partition files divisor Hd))].
  rewrite concat_map, map_map.
  assert (Heq : map (fun k => stdout (main fs (Z.of_nat divisor) (Z.of_nat k) stdin))
                    (seq 0 divisor)
                = map (fun k => map fst
                         (map (fun i => nth i (rev (sort_by_size files)) (EmptyString, 0))
                              (range k (length (rev (sort_by_size files))) divisor)))
                      (seq 0 divisor)).
  { apply map_ext_in. intros k Hk. apply in_seq in Hk.
    rewrite (main_stdout fs divisor k stdin files skipped)
      by first [lia | exact Hscan].
    by rewrite group_selection by lia. }
  by rewrite Heq.
Qed.

(** X23. The sizes that the groups sum up add up to the size of all files, and
    no group fails. *)
Theorem split_totals_add_up (files : list (string * Z)) (divisor : nat) :
  (0 < divisor)%nat ->
  Forall (fun k => exists paths total, group files divisor k = Ret (paths, total))
         (seq 0 divisor) /\
  fold_right Z.add 0 (map (fun k => total_of (group files divisor k)) (seq 0 divisor))
  = sum_sizes files.
Proof.
  intros Hd. split.
  - apply Forall_forall. intros k Hk. apply elem_of_seq in Hk.
    rewrite group_selection by lia. eauto.
  - rewrite <- (sum_sizes_perm _ _ (selections_partition files divisor Hd)).
    assert (Hall : forall ks, Forall (fun k => k < divisor)%nat ks ->
              fold_right Z.add 0 (map (fun k => total_of (group files divisor k)) ks)
              = sum_sizes
                  (concat (map (fun k =>
                     map (fun i => nth i (rev (sort_by_size files)) (EmptyString, 0))
                         (range k (length (rev (sort_by_size files))) divisor)) ks))).
    { induction ks as [|k ks IH]; intros Hks; simpl; [done|].
      apply Forall_cons in Hks as [Hk Hks].
      rewrite sum_sizes_app, <- (IH Hks), group_selection by done. reflexivity. }
    apply Hall, Forall_forall. intros k Hk. apply elem_of_seq in Hk. lia.
Qed.

Lemma lstat_reg_cases (fs : filesystem) (p : string) :
  match lstat_reg fs p with
  | Ret (Some _) => is_reg fs p = true
  | Ret None => is_reg fs p = false
  | Raise _ => True
  end.
Proof.
  unfold lstat_reg, is_reg.
  destruct (names fs !! p) as [[dev|i|t]|]; try done.
  by destruct (inodes fs !! i).
Qed.

Lemma scan_acc (fs : filesystem) (lines : list string)
    (files : list (string * Z)) (skipped : list string)
    (files' : list (string * Z)) (skipped' : list string) :
  scan fs lines files skipped = (Ret files', skipped') ->
  exists more,
    files' = files ++ more /\
    map fst more = List.filter (is_reg fs) (map strip lines) /\
    Forall (fun f => lstat_reg fs (fst f) = Ret (Some (snd f))) more /\
    skipped' = skipped ++ List.filter (fun p => negb (is_reg fs p)) (map strip lines).
Proof.
  revert files skipped. induction lines as [|line lines IH]; intros files skipped.
  - simpl. intros [= <- <-]. exists []. by rewrite !app_nil_r.
  - cbn [scan map List.filter].
    pose proof (lstat_reg_cases fs (strip line)) as Hcase.
    destruct (lstat_reg fs (strip line)) as [[size|]|e] eqn:Hl; [| |done];
      rewrite Hcase; cbn [negb]; intros H;
      destruct (IH _ _ H) as (more & Hf & H1 & H2 & Hs).
    + exists ((strip line, size) :: more).
      rewrite Hf, Hs, <- app_assoc. simpl. rewrite H1.
      split; [done|]. split; [done|]. split; [|done].
      apply Forall_cons. by split.
    + exists more. rewrite Hf, Hs, <- app_assoc. done.
Qed.

(** X24. For input lines that are ASCII text, the files that are split are
    the lines of the input, stripped of their ASCII white space, that name
    a regular file itself, in the order of the input and with their sizes;
    directories and symbolic links (whatever they point to) are
    skipped. *)
Theorem split_keeps_regular_files (fs : filesystem) (stdin : list string)
    (files : list (string * Z)) (skipped : list string) :
  Forall (fun line => isascii line = true) stdin ->
  scan fs stdin [] [] = (Ret files, skipped) ->
  map fst files = List.filter (is_reg fs) (map strip stdin) /\
  skipped = List.filter (fun p => negb (is_reg fs p)) (map strip stdin) /\
  Forall (fun f => lstat_reg fs (fst f) = Ret (Some (snd f))) files.
Proof.
  intros _ H. destruct (scan_acc _ _ _ _ _ _ H) as (more & -> & H1 & H2 & ->).
  simpl. auto.
Qed.

End SplitTheorems.

(** ** The balance of the groups of [split.py] *)

Section SplitBalance.

Import Split.

(** The order of the sort. *)
Local Abbreviation le_size := (fun x y : string * Z => snd x <= snd y).

Lemma insert_by_size_sorted (x : string * Z) (l : list (string * Z)) :
  StronglySorted le_size l -> StronglySorted le_size (insert_by_size x l).
Proof.
  induction 1 as [|y l Hs IH Hy]; cbn [insert_by_size].
  - repeat constructor.
  - destruct (snd x <=? snd y) eqn:Hc.
    + apply Z.leb_le in Hc. constructor; [by constructor|].
      constructor; [exact Hc|].
      eapply List.Forall_impl; [|exact Hy]. simpl. intros; lia.
    + apply Z.leb_gt in Hc. constructor; [exact IH|].
      rewrite (insert_by_size_perm x l). constructor; [simpl; lia|exact Hy].
Qed.

Lemma sort_by_size_sorted (l : list (string * Z)) :
  StronglySorted le_size (sort_by_size l).
Proof.
  induction l as [|x l IH]; [constructor|]. by apply insert_by_size_sorted.
Qed.

Lemma sorted_nth (l : list (string * Z)) (d0 : string * Z) :
  StronglySorted le_size l ->
  forall i j, (i <= j)%nat -> (j < length l)%nat ->
    snd (nth i l d0) <= snd (nth j l d0).
Proof.
  induction 1 as [|y l Hs IH Hy]; intros i j Hij Hj; [simpl in Hj; lia|].
  destruct j as [|j].
  - assert (i = 0%nat) as -> by lia. lia.
  - destruct i as [|i].
    + simpl. rewrite List.Forall_forall in Hy.
      apply (Hy (nth j l d0)). apply nth_In. simpl in Hj. lia.
    + simpl. apply IH; simpl in Hj; lia.
Qed.

(** The sizes by decreasing size, continued with zeros. *)
Local Abbreviation size_at files :=
  (fun x : nat => snd (nth x (rev (sort_by_size files)) (EmptyString, 0))).

Lemma size_at_antitone (files : list (string * Z)) (x y : nat) :
  Forall (fun f => 0 <= snd f) files ->
  (x <= y)%nat -> size_at files y <= size_at files x.
Proof.
  intros Hpos Hxy. cbv beta.
  set (l := sort_by_size files).
  assert (Hl : Forall (fun f => 0 <= snd f) (rev l)).
  { apply Forall_rev. subst l. by rewrite sort_by_size_perm. }
  destruct (Nat.lt_ge_cases y (length (rev l))) as [Hy|Hy].
  - rewrite length_rev in Hy. rewrite !rev_nth by lia.
    apply sorted_nth; [apply sort_by_size_sorted|lia|lia].
  - rewrite (nth_overflow _ _ Hy). simpl.
    destruct (Nat.lt_ge_cases x (length (rev l))) as [Hx|Hx].
    + rewrite List.Forall_forall in Hl. apply (Hl (nth x (rev l) (EmptyString, 0))).
      by apply nth_In.
    + by rewrite (nth_overflow _ _ Hx).
Qed.

Lemma in_le_largest (files : list (string * Z)) (f : string * Z) :
  In f files -> snd f <= largest files.
Proof.
  induction files as [|g files IH]; [done|]. cbn [largest fold_right].
  fold (largest files). intros [->|H]; [lia|]. specialize (IH H). lia.
Qed.

Lemma largest_nonneg (files : list (string * Z)) : 0 <= largest files.
Proof.
  induction files as [|g files IH]; [done|]. cbn [largest fold_right].
  fold (largest files). lia.
Qed.

Lemma size_at_le_largest (files : list (string * Z)) (x : nat) :
  size_at files x <= largest files.
Proof.
  cbv beta. set (l := rev (sort_by_size files)).
  destruct (Nat.lt_ge_cases x (length l)) as [Hx|Hx].
  - apply in_le_largest. apply (Permutation_in (l := l)).
    + subst l. rewrite <- Permutation_rev. apply sort_by_size_perm.
    + by apply nth_In.
  - rewrite (nth_overflow _ _ Hx). apply largest_nonneg.
Qed.

Lemma size_at_nonneg (files : list (string * Z)) (x : nat) :
  Forall (fun f => 0 <= snd f) files -> 0 <= size_at files x.
Proof.
  intros Hpos.
  pose proof (size_at_antitone files x (x + length files) Hpos ltac:(lia)) as H.
  cbv beta in *. rewrite nth_overflow in H; [exact H|].
  rewrite length_rev, (Permutation_length (sort_by_size_perm files)). lia.
Qed.

(** Sums of the first values of a sequence. *)
Local Abbreviation sum_to f n := (fold_right Z.add 0 (map f (seq 0 n))).

Lemma sum_to_S_last (f : nat -> Z) (n : nat) :
  sum_to f (S n) = sum_to f n + f n.
Proof.
  rewrite seq_S, map_app. simpl.
  generalize (map f (seq 0 n)). intros l.
  induction l as [|a l IH]; simpl; lia.
Qed.

Lemma sum_to_S_first (f : nat -> Z) (n : nat) :
  sum_to f (S n) = f 0%nat + sum_to (fun m => f (S m)) n.
Proof. cbn [seq map fold_right]. by rewrite <- seq_shift, map_map. Qed.

Lemma sum_to_le (f g : nat -> Z) (n : nat) :
  (forall m, f m <= g m) -> sum_to f n <= sum_to g n.
Proof.
  intros H. induction n as [|n IH]; [done|].
  rewrite !sum_to_S_last. specialize (H n). lia.
Qed.

Lemma sum_to_extend (f : nat -> Z) (c n : nat) :
  (c <= n)%nat -> (forall m, (c <= m)%nat -> f m = 0) ->
  sum_to f n = sum_to f c.
Proof.
  intros Hc H0. induction n as [|n IH].
  - by assert (c = 0%nat) as -> by lia.
  - destruct (decide (c = S n)) as [->|Hne]; [done|].
    rewrite sum_to_S_last, IH, H0 by lia. lia.
Qed.

Lemma sum_sizes_map {A} (g : A -> string * Z) (l : list A) :
  sum_sizes (map g l) = fold_right Z.add 0 (map (fun x => snd (g x)) l).
Proof. induction l as [|a l IH]; [done|]. simpl. by rewrite <- IH. Qed.

(** The total of a group is the sum of every [d]-th size from [k] on. *)
Lemma total_as_sum (files : list (string * Z)) (d k : nat) :
  (k < d)%nat ->
  total_of (group files d k)
  = sum_to (fun m => size_at files (k + m * d)%nat) (length files).
Proof.
  intros Hk. rewrite (group_selection files d k Hk). cbn [total_of].
  unfold range. rewrite map_map, sum_sizes_map.
  rewrite length_rev, (Permutation_length (sort_by_size_perm files)).
  set (n := length files).
  set (c := ((n - k + d - 1) / d)%nat).
  pose proof (Nat.div_mod_eq (n - k + d - 1) d) as Hdm.
  pose proof (Nat.mod_upper_bound (n - k + d - 1) d ltac:(lia)) as Hmod.
  fold c in Hdm.
  symmetry. apply sum_to_extend.
  - nia.
  - intros m Hm. rewrite nth_overflow; [done|].
    rewrite length_rev, (Permutation_length (sort_by_size_perm files)).
    fold n. nia.
Qed.

(** X26. The groups are balanced: a group with a smaller index is at
    least as large in total as one with a larger index, and larger by the
    size of the largest file at most. *)
Theorem split_groups_balanced (fs : filesystem) (stdin : list string)
    (files : list (string * Z)) (skipped : list string) (divisor i j : nat) :
  scan fs stdin [] [] = (Ret files, skipped) ->
  (i <= j)%nat -> (j < divisor)%nat ->
  total_of (group files divisor j) <= total_of (group files divisor i) /\
  total_of (group files divisor i)
  <= total_of (group files divisor j) + largest files.
Proof.
  intros Hscan Hij Hj.
  assert (Hpos : Forall (fun f => 0 <= snd f) files).
  { destruct (scan_acc _ _ _ _ _ _ Hscan) as (more & -> & _ & Hreg & _).
    simpl. eapply List.Forall_impl; [|exact Hreg].
    intros [p z]. unfold lstat_reg. simpl.
    destruct (names fs !! p) as [[| k |]|]; try discriminate.
    destruct (inodes fs !! k); intros H; inversion H; lia. }
  rewrite !total_as_sum by lia. split.
  - apply sum_to_le. intros m. apply size_at_antitone; [exact Hpos|lia].
  - set (f := fun m : nat => size_at files (i + m * divisor)%nat).
    set (g := fun m : nat => size_at files (j + m * divisor)%nat).
    assert (Hlast : sum_to f (length files) <= sum_to f (S (length files))).
    { rewrite sum_to_S_last.
      pose proof (size_at_nonneg files (i + length files * divisor)%nat Hpos).
      subst f. cbv beta. lia. }
    rewrite sum_to_S_first in Hlast.
    assert (Hshift : sum_to (fun m => f (S m)) (length files)
                     <= sum_to g (length files)).
    { apply sum_to_le. intros m. subst f g. cbv beta.
      apply size_at_antitone; [exact Hpos|]. simpl. lia. }
    pose proof (size_at_le_largest files (i + 0 * divisor)%nat) as Hfirst.
    subst f. cbv beta in *. lia.
Qed.

End SplitBalance.

(** ** The further properties on concrete inputs *)

Import Examples MoreExamples.

Lemma as_mp4_changes_only_the_extension_witness :
  Path.dirname (as_mp4 "videos/b.old.mkv") = "videos" /\
  Path.basename (as_mp4 "videos/b.old.mkv") = "b.old.mp4".
Proof.
  destruct (as_mp4_changes_only_the_extension "videos/b.old.mkv")
    as (Hd & _ & Hb & _).
  split; [exact Hd|]. apply (Hb "b.old" "mkv"); reflexivity.
Defined.

Lemma skip_file_rejects_marked_and_listed_witness : skip_file "Trash" = true.
Proof.
  apply skip_file_rejects_marked_and_listed. right.
  exists "Tra", "sh". split; [reflexivity|]. vm_compute. tauto.
Defined.

Lemma copy_file_onto_free_name_witness :
  exists w',
    copy_file "a.mkv" "copy.mkv" world_new = (Ret tt, w') /\
    holds (w_fs w') "copy.mkv" (bytes_of "0123456789") /\
    names (w_fs w') !! "copy.mkv" = Some (Reg 0).
Proof.
  destruct (copy_file_onto_free_name world_new "a.mkv" "copy.mkv" 0
              {| i_dev := 1; i_data := bytes_of "0123456789" |} 1)
    as (w' & Hrun & _ & _ & Hdst & Hlink & _).
  - vm_compute. reflexivity.
  - vm_compute. reflexivity.
  - vm_compute. intros H. discriminate H.
  - vm_compute. reflexivity.
  - vm_compute. reflexivity.
  - exists w'. split; [exact Hrun|]. split; [exact Hdst|].
    apply Hlink. reflexivity.
Defined.

Lemma copy_file_missing_source_leaves_test_file_witness :
  exists w',
    copy_file "missing.mkv" "copy.mkv" world_new = (Raise FileNotFoundError, w') /\
    FS.exists_ (w_fs w') "copy.mkv" = true.
Proof.
  destruct (copy_file_missing_source_leaves_test_file world_new
              "missing.mkv" "copy.mkv" 1)
    as (w' & Hrun & _ & _ & Hex).
  - vm_compute. reflexivity.
  - discriminate.
  - vm_compute. reflexivity.
  - vm_compute. reflexivity.
  - exists w'. split; [exact Hrun | exact Hex].
Defined.

Lemma ledger_is_keyed_by_content_witness :
  (BadEncodingDatabase_check env_larger "twin.mkv" 23 "fast"
     (BadEncodingDatabase_insert env_larger "a.mkv" 23 "fast" 11
        (world_of fs_twins (Some []))).2).1
  = Ret (Some 11).
Proof.
  apply (ledger_is_keyed_by_content env_larger (world_of fs_twins (Some [])) _
           "a.mkv" "twin.mkv" (bytes_of "0123456789") 23 "fast" 11);
    vm_compute; reflexivity.
Defined.

Lemma hash_file_is_memoized_witness :
  BadEncodingDatabase_hash_file env_larger "a.mkv"
    (set_fs {| names := ∅; inodes := []; cwd_dev := 1 |}
       (BadEncodingDatabase_hash_file env_larger "a.mkv" world_new).2)
  = (Ret (bytes_of "0123456789"),
     set_fs {| names := ∅; inodes := []; cwd_dev := 1 |}
       (BadEncodingDatabase_hash_file env_larger "a.mkv" world_new).2).
Proof.
  apply (hash_file_is_memoized env_larger world_new
           (BadEncodingDatabase_hash_file env_larger "a.mkv" world_new).2).
  - vm_compute. reflexivity.
  - reflexivity.
Defined.

Lemma undated_run :
  Probe_isvideo env_undated "a.mkv" world_new
  = (Raise (OtherError "ValueError"),
     (Probe_isvideo env_undated "a.mkv" world_new).2).
Proof. vm_compute. reflexivity. Qed.

Lemma isvideo_outcomes_witness :
  is_Some (w_probes (Probe_isvideo env_larger "a.mkv" world_new).2 !! "a.mkv") /\
  (Probe_isvideo env_undated "a.mkv" world_new).1
  = Raise (OtherError "ValueError") /\
  w_probes (Probe_isvideo env_undated "a.mkv" world_new).2 = w_probes world_new.
Proof.
  split; [|split].
  - exact (isvideo_outcomes env_larger world_new _ "a.mkv" (Ret true)
             ltac:(vm_compute; reflexivity)).
  - by rewrite undated_run.
  - exact (proj1 (isvideo_outcomes env_undated world_new _ "a.mkv" _ undated_run)).
Defined.

Lemma reencode_rejects_unusable_paths_witness :
  reencode env_larger "missing.mkv" "out.mkv" 23 "fast" false [] false world_new
  = (Raise ErrorCalled, world_new).
Proof.
  apply reencode_rejects_unusable_paths. left. vm_compute. reflexivity.
Defined.

Lemma a_mkv_held : holds (w_fs world_new) "a.mkv" (bytes_of "0123456789").
Proof.
  exists 0%nat, {| i_dev := 1; i_data := bytes_of "0123456789" |}.
  vm_compute. auto.
Qed.

Lemma outside_scratch (E : env) (p : string) :
  tmp_candidates E = ["/tmp/tmp0"; "/tmp/tmp1"] ->
  FS.under "/tmp/tmp0" p = false -> FS.under "/tmp/tmp1" p = false ->
  Forall (fun d => FS.under d p = false) (tmp_candidates E).
Proof. intros -> H0 H1. repeat constructor; assumption. Qed.

Lemma reencode_keeps_files_witness :
  holds
    (w_fs (reencode env_larger "a.mkv" "out.mkv" 23 "fast" false [] false
             world_new).2)
    "a.mkv" (bytes_of "0123456789").
Proof.
  apply (reencode_keeps_files env_larger world_new _ "a.mkv" "out.mkv" 23 "fast"
           false [] false _ "a.mkv" _ (surjective_pairing _) eq_refl a_mkv_held).
  apply outside_scratch; vm_compute; reflexivity.
Defined.


Lemma smaller_run :
  reencode env_smaller "a.mkv" "out.mkv" 23 "fast" false [] false world_new
  = (Ret (Some "out.mp4"),
     (reencode env_smaller "a.mkv" "out.mkv" 23 "fast" false [] false world_new).2).
Proof. vm_compute. reflexivity. Qed.

Lemma reencode_returns_a_new_mp4_witness :
  exists data,
    holds
      (w_fs (reencode env_smaller "a.mkv" "out.mkv" 23 "fast" false [] false
               world_new).2)
      "out.mp4" data.
Proof.
  destruct (reencode_returns_a_new_mp4 env_smaller world_new _ "a.mkv" "out.mkv"
              23 "fast" false [] false "out.mp4" smaller_run)
    as (_ & _ & _ & H).
  apply H. apply outside_scratch; vm_compute; reflexivity.
Defined.

Lemma reencode_success_after_encoding_witness :
  ledger_rows
    (reencode env_smaller "a.mkv" "out.mkv" 23 "fast" false [] false world_new).2
  = ledger_rows world_new.
Proof.
  refine (proj1 (reencode_success_after_encoding env_smaller world_new _
                   "a.mkv" "out.mkv" 23 "fast" false [] false "out.mp4"
                   (w_trace (reencode env_smaller "a.mkv" "out.mkv" 23 "fast"
                               false [] false world_new).2)
                   smaller_run _ _)).
  - unfold events_between. simpl. by rewrite app_nil_r.
  - vm_compute. apply Exists_cons_tl, Exists_cons_hd. reflexivity.
Defined.

Lemma reencode_spawns_each_tool_once_witness :
  (spawns_of "ffmpeg"
     (w_trace (reencode env_smaller "a.mkv" "out.mkv" 23 "fast" false [] false
                 world_new).2) <= 1)%nat.
Proof.
  refine (proj2 (reencode_spawns_each_tool_once env_smaller world_new _
                   "a.mkv" "out.mkv" 23 "fast" false [] false _ _
                   (surjective_pairing _) _)).
  unfold events_between. simpl. by rewrite app_nil_r.
Defined.

Lemma reencode_skips_encoder_only_for_cause_witness :
  (exists t,
     w_probes (reencode env_larger "a.mkv" "out.mkv" 23 "fast" false [] false
                 world_hit).2 !! "a.mkv" = Some t /\
     t.1.1 = "hevc" /\ (t.1.2 = Some "aac" \/ t.1.2 = None)) \/
  (exists h v,
     hash_of env_larger world_hit "a.mkv" = Ret h /\
     select_output_bytes (ledger_rows world_hit) h 23 "fast" = Some v /\
     v <> 0).
Proof.
  apply (reencode_skips_encoder_only_for_cause env_larger world_hit _
           "a.mkv" "out.mkv" 23 "fast" [] false (Some "out.mp4")
           (w_trace (reencode env_larger "a.mkv" "out.mkv" 23 "fast" false []
                       false world_hit).2)).
  - vm_compute. reflexivity.
  - unfold events_between. simpl. by rewrite app_nil_r.
  - vm_compute. repeat constructor; intros H; try discriminate H; exact H.
Defined.

Lemma humansize_exact_multiples_witness :
  Humansize.humansize (3 * 1024 ^ 2) = Ret "3MiB".
Proof. apply (humansize_exact_multiples 3 2); lia. Defined.

Lemma humansize_closed_form_witness : Humansize.humansize 1536 = Ret "1.5KiB".
Proof. rewrite (humansize_closed_form 1536) by lia. vm_compute. reflexivity. Defined.

Lemma main_run_plain_mode_witness :
  exists data,
    holds
      (w_fs (main_run env_smaller no_benchmark relpath_id plain_args world_new).2)
      "videos/a.mp4" data.
Proof.
  destruct (main_run_plain_mode env_smaller no_benchmark relpath_id plain_args
              world_new _ _ eq_refl eq_refl eq_refl eq_refl
              (surjective_pairing _)) as [_ H].
  destruct H as (_ & _ & H); [vm_compute; reflexivity|].
  apply H. apply outside_scratch; vm_compute; reflexivity.
Defined.

Lemma reencode_replace_refuses_to_overwrite_witness :
  exists e,
    (reencode_replace env_larger (run_args "old.mkv" false true) world_new).1
    = Raise e.
Proof.
  refine (proj1 (reencode_replace_refuses_to_overwrite env_larger
                   (run_args "old.mkv" false true) world_new _ _ _ _
                   (surjective_pairing _))).
  - vm_compute. discriminate.
  - vm_compute. reflexivity.
Defined.

Lemma reencode_replace_needs_the_encoder_witness :
  holds
    (w_fs (reencode_replace env_target (run_args "a.mkv" false true) world_new).2)
    "a.mkv" (bytes_of "0123456789").
Proof.
  apply (reencode_replace_needs_the_encoder env_target
           (run_args "a.mkv" false true) world_new _ _
           (w_trace (reencode_replace env_target (run_args "a.mkv" false true)
                       world_new).2)
           (surjective_pairing _)).
  - unfold events_between. simpl. by rewrite app_nil_r.
  - vm_compute. repeat constructor; intros H; try discriminate H; exact H.
  - exact a_mkv_held.
  - apply outside_scratch; vm_compute; reflexivity.
Defined.

Lemma fs0_scratch_ready :
  scratch_ready (tmp_candidates env_smaller) (w_fs world_new).
Proof.
  split; [|split].
  - repeat constructor; (discriminate || reflexivity).
  - intros c d Hc Hd Hne. vm_compute in Hc, Hd.
    destruct Hc as [<-|[<-|[]]], Hd as [<-|[<-|[]]]; try done;
      vm_compute; reflexivity.
  - apply map_Forall_to_list. vm_compute. repeat constructor.
Qed.

Lemma reencode_replace_installs_the_encoding_witness :
  holds
    (w_fs (reencode_replace env_smaller (run_args "a.mkv" false true)
             world_new).2)
    "a.mp4" (bytes_of "012") /\
  names
    (w_fs (reencode_replace env_smaller (run_args "a.mkv" false true)
             world_new).2)
  !! "a.mkv" = None.
Proof.
  destruct (reencode_replace_installs_the_encoding env_smaller
              (run_args "a.mkv" false true) world_new
              (reencode_replace env_smaller (run_args "a.mkv" false true)
                 world_new).2
              (w_trace (reencode_replace env_smaller
                          (run_args "a.mkv" false true) world_new).2)
              eq_refl fs0_scratch_ready)
    as ((data & percent & in_size & d & dev & Hholds & _ & _ & Hwrote)
        & Hgone & _).
  - repeat constructor; vm_compute; reflexivity.
  - intros _. vm_compute. reflexivity.
  - vm_compute. reflexivity.
  - unfold events_between. simpl. by rewrite app_nil_r.
  - vm_compute. apply Exists_cons_tl, Exists_cons_hd. reflexivity.
  - split.
    + destruct Hwrote as (cmd & d' & dev' & text & _ & _ & _ & Hext).
      simpl in Hext. injection Hext as _ <-. exact Hholds.
    + apply Hgone. vm_compute. discriminate.
Defined.

Lemma stdin0_scan :
  Split.scan fs0 stdin0 [] []
  = (Ret [("a.mkv", 10); ("videos/b.mkv", 20); ("old.mp4", 3)], ["videos"]).
Proof. vm_compute. reflexivity. Qed.

Lemma split_groups_partition_witness :
  concat (map (fun k => Split.stdout (Split.main fs0 2 (Z.of_nat k) stdin0))
              (seq 0 2))
  ≡ₚ ["a.mkv"; "videos/b.mkv"; "old.mp4"].
Proof.
  exact (split_groups_partition fs0 2 stdin0 _ _ ltac:(lia) stdin0_scan).
Defined.

Lemma split_totals_add_up_witness :
  fold_right Z.add 0
    (map (fun k => Split.total_of
                     (Split.group [("a.mkv", 10); ("videos/b.mkv", 20);
                                   ("old.mp4", 3)] 2 k))
         (seq 0 2))
  = 33.
Proof.
  exact (proj2 (split_totals_add_up
                  [("a.mkv", 10); ("videos/b.mkv", 20); ("old.mp4", 3)] 2
                  ltac:(lia))).
Defined.

Lemma split_keeps_regular_files_witness :
  List.filter (Split.is_reg fs0) (map Split.strip stdin0)
  = ["a.mkv"; "videos/b.mkv"; "old.mp4"].
Proof.
  symmetry.
  refine (proj1 (split_keeps_regular_files fs0 stdin0 _ _ _ stdin0_scan)).
  repeat constructor.
Defined.

Lemma split_groups_balanced_witness :
  Split.total_of (Split.group [("a.mkv", 10); ("videos/b.mkv", 20);
                               ("old.mp4", 3)] 2 1)
  <= Split.total_of (Split.group [("a.mkv", 10); ("videos/b.mkv", 20);
                                  ("old.mp4", 3)] 2 0) /\
  Split.total_of (Split.group [("a.mkv", 10); ("videos/b.mkv", 20);
                               ("old.mp4", 3)] 2 0)
  <= Split.total_of (Split.group [("a.mkv", 10); ("videos/b.mkv", 20);
                                  ("old.mp4", 3)] 2 1)
     + Split.largest [("a.mkv", 10); ("videos/b.mkv", 20); ("old.mp4", 3)].
Proof.
  exact (split_groups_balanced fs0 stdin0 _ _ 2 0 1 stdin0_scan
           ltac:(lia) ltac:(lia)).
Defined.

Lemma hit_run :
  reencode env_larger "a.mkv" "out.mkv" 23 "fast" false [] false world_hit
  = (Ret (Some "out.mp4"),
     (reencode env_larger "a.mkv" "out.mkv" 23 "fast" false [] false world_hit).2).
Proof. vm_compute. reflexivity. Qed.

Lemma reencode_ledger_hit_runs_no_encoder_witness :
  (BadEncodingDatabase_check env_larger "a.mkv" 23 "fast" world_hit).1
  = Ret (Some 11) /\
  (reencode env_larger "a.mkv" "out.mkv" 23 "fast" false [] false world_hit).1
  = Ret (Some "out.mp4") /\
  FS.read_file
    (w_fs (reencode env_larger "a.mkv" "out.mkv" 23 "fast" false [] false
             world_hit).2)
    "out.mp4"
  = Ret (bytes_of "0123456789") /\
  (reencode env_larger "a.mkv" "out.mkv" 23 "fast" false [] true world_hit).1
  = Ret None /\
  exists evs,
    events_between world_hit
      (reencode env_larger "a.mkv" "out.mkv" 23 "fast" false [] false world_hit).2
      evs /\
    Forall (fun e => ~ is_encoder_run e) evs.
Proof.
  assert (Hin : In (key_a 11) (ledger_rows world_hit)) by (left; reflexivity).
  assert (Hh : hash_of env_larger world_hit "a.mkv" = Ret (r_hash (key_a 11)))
    by (vm_compute; reflexivity).
  destruct (reencode_ledger_hit_runs_no_encoder env_larger world_hit "a.mkv"
              (key_a 11) world_hit_valid Hin Hh) as (Hcheck & Hrun & Hreturns).
  split; [exact Hcheck|].
  destruct (Hrun "out.mkv" [] false _ _ hit_run) as [Hev Hres].
  destruct (Hres _ eq_refl) as [_ Hread].
  split; [by rewrite hit_run|].
  split.
  { apply Hread; [apply outside_scratch; vm_compute; reflexivity|].
    vm_compute. reflexivity. }
  split; [|exact Hev].
  assert (Hnone : exists w',
             reencode env_larger "a.mkv" "out.mkv" 23 "fast" false [] true world_hit
             = (Ret None, w') /\
             (true = false ->
              holds (w_fs w') (mp4_path "out.mkv") (bytes_of "0123456789"))).
  { eapply (Hreturns "out.mkv" [] true (bytes_of "0123456789") 1%N
              ("h264", Some "aac", "12.5")).
    - exact a_mkv_held.
    - vm_compute. reflexivity.
    - vm_compute. reflexivity.
    - vm_compute. reflexivity.
    - intros H. discriminate H. }
  destruct Hnone as (w' & Heq & _). by rewrite Heq.
Defined.
